(** * Spotlight backend: scoring engine, candidate generation, outcome
    learning, job manager and trust metrics.

    Python floats are modelled as exact rationals [Q] (or reals [R] where the
    source calls [math.sin], [math.cos], [math.sqrt] or [** 0.5]).  A Python
    exception raised inside a function (ZeroDivisionError, TypeError on a
    [None] operand, ValueError) is modelled by [None] in the [option] monad. *)

From Stdlib Require Import QArith Qabs Qround Qminmax ZArith Bool List String Ascii.
From Stdlib Require Import Sorting.Permutation Sorting.Sorted DecimalString.
From Stdlib Require Import Reals.
From Stdlib Require Import Lia.
From Stdlib Require Lqa Lra.
Import ListNotations.

Ltac qlra := Lqa.lra.
Ltac rlra := Lra.lra.

Open Scope Q_scope.

(** ** Python helpers on rationals *)

Definition Qltb (x y : Q) : bool := negb (Qle_bool y x).

(** Python [a / b] on floats: raises ZeroDivisionError when [b == 0]. *)
Definition pydiv (a b : Q) : option Q :=
  if Qeq_bool b 0 then None else Some (a / b).

Notation "'let*' x := c 'in' k" :=
  (match c with Some x => k | None => None end)
  (at level 200, x name, c at level 100, k at level 200).

(** Python's built-in [round]: round half to even, to an integer. *)
Definition round_half_even (y : Q) : Z :=
  let f := Qfloor y in
  let r := y - inject_Z f in
  if Qltb r (1#2) then f
  else if Qltb (1#2) r then (f + 1)%Z
  else if Z.even f then f else (f + 1)%Z.

(** Python [round(x)] (no ndigits): an [int]. *)
Definition py_round (x : Q) : Z := round_half_even x.

(** Python [round(x, nd)] for [nd >= 0]: a float. *)
Definition py_round_nd (x : Q) (nd : nat) : Q :=
  inject_Z (round_half_even (x * inject_Z (10 ^ Z.of_nat nd)))
    / inject_Z (10 ^ Z.of_nat nd).

(** Python [int(x)] on a float: truncation toward zero. *)
Definition py_int (x : Q) : Z :=
  if Qle_bool 0 x then Qfloor x else (- Qfloor (- x))%Z.

(** ** Scoring engine ([agents/scorer.py]) *)

Module Scorer.

(** A value of the [features] dict: the key may be absent, bound to [None],
    or bound to a number. *)
Inductive fval := Absent | PyNone | Num (q : Q).

(** [features.get(key, default)] passed to a helper that compares or divides
    it: a key bound to Python [None] makes the helper raise TypeError. *)
Definition get_default (v : fval) (d : Q) : option Q :=
  match v with Absent => Some d | PyNone => None | Num q => Some q end.

(** [features.get(key)]. *)
Definition get (v : fval) : option Q :=
  match v with Num q => Some q | _ => None end.

Definition is_not_none (v : fval) : bool :=
  match v with Num _ => true | _ => false end.

Record features := mkFeatures {
  population_density : fval;
  median_income : fval;
  nearest_metro_distance_m : fval;
  nearest_tram_distance_m : fval;
  competitors_per_1k_residents : fval;
  competitors_count : fval;
  walkability_poi_count : fval
}.

Record weights := mkWeights {
  w_population : Q; w_income : Q; w_access : Q; w_competition : Q;
  w_walkability : Q
}.

Record concept_config := mkConfig {
  base_revenue_eur : Q;
  target_income_min : Q;
  target_income_max : Q;
  optimal_population_density : Q;
  target_competitors_per_1k : Q;
  cfg_weights : weights
}.

Record score_components := mkComponents {
  c_population : Q; c_income : Q; c_access : Q; c_competition : Q;
  c_walkability : Q
}.

Record score_result := mkResult {
  score : Q;
  revenue_low : Z;
  revenue_mid : Z;
  revenue_high : Z;
  confidence : Q;
  components : score_components
}.

Definition _calculate_population_score (density optimal : Q) : option Q :=
  if Qle_bool optimal density then Some 100
  else if Qle_bool density 0 then Some 0
  else let* r := pydiv density optimal in Some (r * 100).

Definition _calculate_income_score (median_income target_min target_max : Q)
  : option Q :=
  if Qltb median_income target_min then
    let gap := target_min - median_income in
    let* g := pydiv gap target_min in
    let penalty := Qmin (g * 100) 50 in
    Some (Qmax (50 - penalty) 0)
  else if Qltb target_max median_income then
    let gap := median_income - target_max in
    let* g := pydiv gap target_max in
    let penalty := Qmin (g * 50) 25 in
    Some (Qmax (75 - penalty) 50)
  else
    let middle := (target_min + target_max) / 2 in
    let distance_from_middle := Qabs (median_income - middle) in
    let max_distance := (target_max - target_min) / 2 in
    let* d := pydiv distance_from_middle max_distance in
    let s := 100 - d * 15 in
    Some (Qmax s 85).

Definition metro_bonus (metro : option Q) : Q :=
  match metro with
  | Some m =>
      if Qle_bool m 200 then 40
      else if Qle_bool m 500 then 30
      else if Qle_bool m 1000 then 15 else 0
  | None => 0
  end.

Definition tram_bonus (tram : option Q) : Q :=
  match tram with
  | Some t =>
      if Qle_bool t 100 then 10
      else if Qle_bool t 300 then 5 else 0
  | None => 0
  end.

Definition _calculate_access_score (metro tram : option Q) : Q :=
  Qmin (50 + metro_bonus metro + tram_bonus tram) 100.

Definition _calculate_competition_score (competitors_per_1k target : Q)
  : option Q :=
  if Qeq_bool competitors_per_1k 0 then Some 40
  else
    let* ratio := pydiv competitors_per_1k target in
    if Qle_bool 0.8 ratio && Qle_bool ratio 1.2 then Some 100
    else if Qle_bool 0.5 ratio && Qltb ratio 0.8 then Some 85
    else if Qltb 1.2 ratio && Qle_bool ratio 1.5 then Some 75
    else if Qltb 1.5 ratio then
      let penalty := Qmin ((ratio - 1.5) * 30) 50 in
      Some (Qmax (50 - penalty) 20)
    else Some 60.

Definition _calculate_walkability_score (poi_count : Q) : Q :=
  if Qle_bool 100 poi_count then 100
  else if Qle_bool 50 poi_count then 85
  else if Qle_bool 25 poi_count then 70
  else if Qle_bool 10 poi_count then 55
  else Qmax (poi_count * 3) 20.

Definition _calculate_revenue (base_revenue population_density median_income
  competitors_per_1k : Q) (cfg : concept_config) : option Q :=
  let* p := pydiv population_density (optimal_population_density cfg) in
  let pop_multiplier := Qmin p 1.5 in
  let target_mid := (target_income_min cfg + target_income_max cfg) / 2 in
  let* income_multiplier :=
    if Qltb 0 median_income then
      let* i := pydiv median_income target_mid in
      let m := 0.7 + i * 0.3 in
      Some (Qmax (Qmin m 1.3) 0.7)
    else Some 1 in
  let target_comp := target_competitors_per_1k cfg in
  let* saturation_penalty :=
    if Qltb target_comp competitors_per_1k then
      let* c := pydiv competitors_per_1k target_comp in
      Some (Qmin ((c - 1) * 0.3) 0.4)
    else Some 0 in
  let revenue := base_revenue * pop_multiplier * income_multiplier
                 * (1 - saturation_penalty) in
  Some (Qmax revenue (base_revenue * 0.5)).

Definition b2Q (b : bool) : Q := if b then 1 else 0.

Definition _calculate_confidence (f : features) : Q :=
  let present := b2Q (is_not_none (population_density f))
               + b2Q (is_not_none (median_income f))
               + b2Q (is_not_none (competitors_count f))
               + b2Q (is_not_none (nearest_metro_distance_m f)) in
  let completeness := present / 4 in
  0.6 + completeness * 0.4.

(** Half-width of the revenue band, as a fraction of the mid value. *)
Definition band_percent (confidence : Q) : Q := 0.15 + 0.15 * (1 - confidence).

Definition revenue_band (revenue_mid confidence : Q) : Q * Q :=
  (revenue_mid * (1 - band_percent confidence),
   revenue_mid * (1 + band_percent confidence)).

Definition overall (w : weights) (p i a c k : Q) : Q :=
  w_population w * p + w_income w * i + w_access w * a
  + w_competition w * c + w_walkability w * k.

(** [ScoringEngine.calculate_score], after [_get_concept_config] resolved the
    concept to [cfg] (an unresolved concept raises ValueError before this). *)
Definition calculate_score (f : features) (cfg : concept_config)
  : option score_result :=
  let* density := get_default (population_density f) 0 in
  let* population_score :=
    _calculate_population_score density (optimal_population_density cfg) in
  let* income := get_default (median_income f) 0 in
  let* income_score :=
    _calculate_income_score income (target_income_min cfg)
      (target_income_max cfg) in
  let access_score := _calculate_access_score
      (get (nearest_metro_distance_m f)) (get (nearest_tram_distance_m f)) in
  let* comp := get_default (competitors_per_1k_residents f) 0 in
  let* competition_score :=
    _calculate_competition_score comp (target_competitors_per_1k cfg) in
  let* poi := get_default (walkability_poi_count f) 0 in
  let walkability_score := _calculate_walkability_score poi in
  let overall_score := overall (cfg_weights cfg) population_score
      income_score access_score competition_score walkability_score in
  let* revenue_prediction :=
    _calculate_revenue (base_revenue_eur cfg) density income comp cfg in
  let confidence := _calculate_confidence f in
  let revenue_mid := revenue_prediction in
  let (revenue_low, revenue_high) := revenue_band revenue_mid confidence in
  Some (mkResult
    (py_round_nd overall_score 1)
    (py_round revenue_low) (py_round revenue_mid) (py_round revenue_high)
    (py_round_nd confidence 2)
    (mkComponents (py_round_nd population_score 1) (py_round_nd income_score 1)
       (py_round_nd access_score 1) (py_round_nd competition_score 1)
       (py_round_nd walkability_score 1))).

(** The validation [create_concept] applies ([routes/concepts.py]):
    [ConceptWeights] fields are [ge=0, le=1], the weights must sum to within
    [0.95 <= total_weight <= 1.05], and [ConceptCreate] declares the base
    revenue, income targets, optimal density and competitor target [gt=0]. *)
Definition total_weight (w : weights) : Q :=
  0 + w_population w + w_income w + w_access w + w_competition w + w_walkability w.

Definition unit_interval (x : Q) : bool := Qle_bool 0 x && Qle_bool x 1.

Definition concept_create_valid (cfg : concept_config) : bool :=
  let w := cfg_weights cfg in
  unit_interval (w_population w) && unit_interval (w_income w)
  && unit_interval (w_access w) && unit_interval (w_competition w)
  && unit_interval (w_walkability w)
  && Qle_bool 0.95 (total_weight w) && Qle_bool (total_weight w) 1.05
  && Qltb 0 (base_revenue_eur cfg) && Qltb 0 (target_income_min cfg)
  && Qltb 0 (target_income_max cfg) && Qltb 0 (optimal_population_density cfg)
  && Qltb 0 (target_competitors_per_1k cfg).

(** The constraint [Field(ge=0, le=100)] of the [score] field of the
    response models that carry [calculate_score]'s score
    ([AreaOpportunity], [SitePrediction], [RecommendedAddress] in
    [models/schemas.py]). *)
Definition score_field_valid (s : Q) : bool := Qle_bool 0 s && Qle_bool s 100.

End Scorer.

(** ** Candidate deduplication ([services/address_generator.py]) *)

Module Dedup.
Local Open Scope R_scope.

(** The fields of a candidate dict that deduplication and ranking read or
    write; [rank] is absent until [generate_candidates] adds it. *)
Record candidate := mkCandidate {
  address : string;
  lat : R;
  lng : R;
  cand_score : R;
  rank : option nat
}.

Definition radians (x : R) : R := x * PI / 180.

(** [math.atan2] on the reals. *)
Definition atan2 (y x : R) : R :=
  if Rlt_dec 0 x then atan (y / x)
  else if Rlt_dec x 0 then
    (if Rle_dec 0 y then atan (y / x) + PI else atan (y / x) - PI)
  else if Rlt_dec 0 y then PI / 2
  else if Rlt_dec y 0 then - (PI / 2)
  else 0.

(** [AddressGenerator._haversine_distance]. *)
Definition _haversine_distance (lat1 lng1 lat2 lng2 : R) : R :=
  let R_earth := 6371000 in
  let lat1_rad := radians lat1 in
  let lat2_rad := radians lat2 in
  let delta_lat := radians (lat2 - lat1) in
  let delta_lng := radians (lng2 - lng1) in
  let a := sin (delta_lat / 2) ^ 2
           + cos lat1_rad * cos lat2_rad * sin (delta_lng / 2) ^ 2 in
  let c := 2 * atan2 (sqrt a) (sqrt (1 - a)) in
  R_earth * c.

Definition dist (c k : candidate) : R :=
  _haversine_distance (lat c) (lng c) (lat k) (lng k).

(** [sorted(xs, key=lambda x: x['score'], reverse=True)]: a stable sort by
    descending score (equal scores keep their input order). *)
Fixpoint insert_desc (x : candidate) (l : list candidate) : list candidate :=
  match l with
  | [] => [x]
  | y :: l' =>
      if Rlt_dec (cand_score y) (cand_score x) then x :: l
      else if Rlt_dec (cand_score x) (cand_score y) then y :: insert_desc x l'
      else x :: l
  end.

Fixpoint sort_desc (l : list candidate) : list candidate :=
  match l with
  | [] => []
  | x :: l' => insert_desc x (sort_desc l')
  end.

(** The inner [for kept_candidate in kept] loop with its [break]. *)
Fixpoint too_close (c : candidate) (kept : list candidate) (min_distance_m : R)
  : bool :=
  match kept with
  | [] => false
  | k :: ks =>
      if Rlt_dec (dist c k) min_distance_m then true
      else too_close c ks min_distance_m
  end.

Fixpoint dedup_loop (kept sorted_candidates : list candidate)
  (min_distance_m : R) : list candidate :=
  match sorted_candidates with
  | [] => kept
  | c :: cs =>
      if too_close c kept min_distance_m
      then dedup_loop kept cs min_distance_m
      else dedup_loop (app kept [c]) cs min_distance_m
  end.

(** [AddressGenerator._deduplicate_by_distance]. *)
Definition _deduplicate_by_distance (candidates : list candidate)
  (min_distance_m : R) : list candidate :=
  match candidates with
  | [] => []
  | _ => dedup_loop [] (sort_desc candidates) min_distance_m
  end.

(** Two candidates at least [m] apart, measured from either one. *)
Definition separated (m : R) (a b : candidate) : Prop :=
  m <= dist a b /\ m <= dist b a.

(** The order [sorted(..., reverse=True)] produces: non-increasing score. *)
Definition desc (a b : candidate) : Prop := cand_score b <= cand_score a.

(** Python's [xs[:limit]] for an int [limit] (negative counts from the end). *)
Definition py_prefix {A} (l : list A) (limit : Z) : list A :=
  if (0 <=? limit)%Z then firstn (Z.to_nat limit) l
  else firstn (List.length l - Z.to_nat (- limit)) l.

Fixpoint add_ranks (i : nat) (l : list candidate) : list candidate :=
  match l with
  | [] => []
  | c :: cs => mkCandidate (address c) (lat c) (lng c) (cand_score c) (Some i)
               :: add_ranks (S i) cs
  end.

(** Steps 3 to 5 of [AddressGenerator.generate_candidates], applied to the
    candidates [all_candidates] gathered from the areas (the early return on
    an empty area list returns [[]]). *)
Definition generate_candidates_from (top_areas_empty : bool)
  (all_candidates : list candidate) (limit : Z) : list candidate :=
  if top_areas_empty then []
  else
    let deduped := _deduplicate_by_distance all_candidates 80 in
    let deduped := sort_desc deduped in
    let top_n := py_prefix deduped limit in
    add_ranks 1 top_n.

End Dedup.

(** ** Synthetic address fallback ([services/address_generator.py]) *)

Module MockAddress.

(** The [AddressGenerator] object: its injected services. *)
Record address_generator := mkGenerator {
  statfin : string;
  pop_grid : string;
  digitransit : string;
  overpass_service : option string
}.

Definition streets : list string :=
  ["Mannerheimintie"; "Aleksanterinkatu"; "Esplanadi"; "Fredrikinkatu";
   "Bulevardi"; "Lönnrotinkatu"; "Annankatu"; "Unioninkatu";
   "Kaivokatu"; "Mikonkatu"; "Pohjoisesplanadi"; "Eteläesplanadi"]%string.

(** [str] of a Python int. *)
Definition z_to_string (z : Z) : string :=
  DecimalString.NilZero.string_of_int (Z.to_int z).

(** [AddressGenerator._generate_mock_address]; Python's [%] by a positive
    int is [Z.modulo]. *)
Definition _generate_mock_address (self : address_generator) (lat lng : Q)
  : string :=
  let street_idx := Z.modulo (py_int ((lat + lng) * 1000)) 12 in
  let street := nth (Z.to_nat street_idx) streets ""%string in
  let house_num := (Z.modulo (py_int (Qabs (lat - 60.1) * 1000)) 99 + 1)%Z in
  let postal := ("00" ++ z_to_string (100 + Z.modulo (py_int (lng * 1000)) 890))%string in
  (street ++ " " ++ z_to_string house_num ++ ", " ++ postal ++ " Helsinki")%string.

(** The first feature's properties of a Digitransit reverse-geocode reply. *)
Record properties := mkProperties {
  street : string; housenumber : string; postalcode : string; locality : string
}.

(** What [self.digitransit.reverse_geocode] does: raise, or return a result
    ([None] when it is falsy or has no ['features'] key). *)
Inductive geocode_reply :=
  | GeocodeRaised
  | GeocodeResult (features : option (list properties)).

Definition nonempty (s : string) : bool :=
  match s with EmptyString => false | _ => true end.

(** [AddressGenerator._reverse_geocode]. *)
Definition _reverse_geocode (self : address_generator) (lat lng : Q)
  (reply : geocode_reply) : option string :=
  match reply with
  | GeocodeRaised => Some (_generate_mock_address self lat lng)
  | GeocodeResult (Some (p :: _)) =>
      if nonempty (street p) && nonempty (locality p) then
        if nonempty (housenumber p) then
          Some (street p ++ " " ++ housenumber p ++ ", " ++ postalcode p
                ++ " " ++ locality p)%string
        else Some (street p ++ ", " ++ postalcode p ++ " " ++ locality p)%string
      else Some (_generate_mock_address self lat lng)
  | GeocodeResult _ => Some (_generate_mock_address self lat lng)
  end.

End MockAddress.

(** ** Outcome learning ([services/concept_learner.py]) *)

Module Learner.

Inductive py_exc :=
  | ValueError (msg : string)
  | ZeroDivisionError
  | TypeError
  | AttributeError
  | StatisticsError
  | IntegrityError.

(** A Python call: it returns a value or raises. *)
Inductive res (A : Type) := Ok (a : A) | Raise (e : py_exc).
Arguments Ok {A} a.
Arguments Raise {A} e.

Definition bind {A B} (m : res A) (k : A -> res B) : res B :=
  match m with Ok a => k a | Raise e => Raise e end.

Notation "x <- m ;; k" := (bind m (fun x => k))
  (at level 61, m at next level, right associativity).

Definition of_div (o : option Q) : res Q :=
  match o with Some q => Ok q | None => Raise ZeroDivisionError end.

(** The JSON feature snapshot stored with a prediction: the keys read by the
    learner, and whether the dict holds other keys (it is then truthy). *)
Record json_features := mkJsonFeatures {
  jf : Scorer.features;
  other_keys : bool
}.

Definition json_truthy (j : option json_features) : bool :=
  match j with
  | None => false
  | Some (mkJsonFeatures f o) =>
      o || negb (match Scorer.population_density f, Scorer.median_income f,
                  Scorer.nearest_metro_distance_m f, Scorer.nearest_tram_distance_m f,
                  Scorer.competitors_per_1k_residents f, Scorer.competitors_count f,
                  Scorer.walkability_poi_count f with
                 | Scorer.Absent, Scorer.Absent, Scorer.Absent, Scorer.Absent,
                   Scorer.Absent, Scorer.Absent, Scorer.Absent => true
                 | _, _, _, _, _, _, _ => false end)
  end.

Record prediction := mkPrediction {
  pred_id : Z;
  pred_concept_id : option string;
  pred_revenue_mid : Q;
  pred_score : Q;
  pred_features : option json_features
}.

Record training_outcome := mkOutcome {
  to_id : Z;
  to_concept_id : string;
  to_prediction_id : Z;
  predicted_revenue_eur : Q;
  predicted_score : Q;
  features_used : option json_features;
  actual_revenue_eur : Q;
  variance_pct : Q;
  opened_at : Z;
  used_in_training : bool;
  training_weight : Q
}.

Record concept := mkConcept {
  concept_id : string;
  base_revenue_eur : Z;
  revenue_variance : Q;
  avg_prediction_error : option Q;
  weights : Scorer.weights;
  outcomes_count : Z;
  last_trained_at : option Z
}.

(** The database session: the three tables (rows in insertion order), the
    next autoincrement id of [concept_training_outcomes], and the clock read
    by [datetime.utcnow()]. *)
Record db := mkDb {
  predictions : list prediction;
  outcomes : list training_outcome;
  concepts : list concept;
  next_outcome_id : Z;
  utcnow : Z
}.

Definition find_prediction (d : db) (pid : Z) : option prediction :=
  find (fun p => Z.eqb (pred_id p) pid) (predictions d).

Definition find_concept (d : db) (cid : string) : option concept :=
  find (fun c => String.eqb (concept_id c) cid) (concepts d).

Definition outcomes_of (d : db) (cid : string) : list training_outcome :=
  filter (fun o => String.eqb (to_concept_id o) cid) (outcomes d).

Definition put_concept (d : db) (c : concept) : db :=
  mkDb (predictions d)
    (outcomes d)
    (map (fun c' => if String.eqb (concept_id c') (concept_id c) then c else c')
       (concepts d))
    (next_outcome_id d) (utcnow d).

Definition set_outcomes (d : db) (os : list training_outcome) : db :=
  mkDb (predictions d) os (concepts d) (next_outcome_id d) (utcnow d).

(** [statistics.median] and [statistics.mean]. *)
Fixpoint insert_le (x : Q) (l : list Q) : list Q :=
  match l with
  | [] => [x]
  | y :: l' => if Qle_bool x y then x :: l else y :: insert_le x l'
  end.

Fixpoint sort_Q (l : list Q) : list Q :=
  match l with [] => [] | x :: l' => insert_le x (sort_Q l') end.

Definition median (data : list Q) : res Q :=
  let data := sort_Q data in
  let n := List.length data in
  if Nat.eqb n 0 then Raise StatisticsError
  else if Nat.odd n then Ok (nth (Nat.div n 2) data 0)
  else let i := Nat.div n 2 in Ok ((nth (Nat.sub i 1) data 0 + nth i data 0) / 2).

Definition sumQ (l : list Q) : Q := fold_left Qplus l 0.

Definition mean (data : list Q) : res Q :=
  let n := List.length data in
  if Nat.eqb n 0 then Raise StatisticsError
  else Ok (sumQ data / inject_Z (Z.of_nat n)).

Definition mean0 (data : list Q) : Q :=
  sumQ data / inject_Z (Z.of_nat (List.length data)).

Definition truthy_str (o : option string) : option string :=
  match o with None | Some EmptyString => None | Some s => Some s end.

Definition MIN_OUTCOMES_FOR_TRAINING : nat := 5.
Definition MIN_OUTCOMES_FOR_WEIGHTS : nat := 20.

Section WithPow.

(** Python's [v ** 0.5] on the non-negative float [x_variance * y_variance];
    only the weight re-estimation reads it. *)
Variable pow_half : Q -> Q.

Fixpoint clean_pairs (xs ys : list (option Q)) : list (Q * Q) :=
  match xs, ys with
  | Some a :: xs', Some b :: ys' => (a, b) :: clean_pairs xs' ys'
  | _ :: xs', _ :: ys' => clean_pairs xs' ys'
  | _, _ => []
  end.

(** [ConceptLearner._calculate_correlation]; [None] entries are Python
    [None] values. *)
Definition _calculate_correlation (x y : list (option Q)) : Q :=
  if negb (Nat.eqb (List.length x) (List.length y)) || Nat.ltb (List.length x) 2
  then 0
  else
    let pairs := clean_pairs x y in
    if Nat.ltb (List.length pairs) 2 then 0
    else
      let x_clean := map fst pairs in
      let y_clean := map snd pairs in
      let x_mean := mean0 x_clean in
      let y_mean := mean0 y_clean in
      let numerator := sumQ (map (fun p => (fst p - x_mean) * (snd p - y_mean)) pairs) in
      let x_variance := sumQ (map (fun xi => (xi - x_mean) * (xi - x_mean)) x_clean) in
      let y_variance := sumQ (map (fun yi => (yi - y_mean) * (yi - y_mean)) y_clean) in
      let denominator := pow_half (x_variance * y_variance) in
      if Qeq_bool denominator 0 then 0 else numerator / denominator.

(** The per-factor value series of [_optimize_weights], built in one pass
    over the outcomes: population, income, access, competition,
    walkability, and the actual revenues. *)
Record series := mkSeries {
  s_pop : list (option Q); s_inc : list (option Q); s_acc : list (option Q);
  s_comp : list (option Q); s_walk : list (option Q); s_rev : list (option Q)
}.

Definition access_value (v : Scorer.fval) : res (option Q) :=
  match Scorer.get_default v 1000 with
  | None => Raise TypeError
  | Some m => q <- of_div (pydiv 1 (m + 1));; Ok (Some q)
  end.

Fixpoint collect (os : list training_outcome) (acc : series) : res series :=
  match os with
  | [] => Ok acc
  | o :: os' =>
      if negb (json_truthy (features_used o)) then collect os' acc
      else
        let f := match features_used o with
                 | Some j => jf j
                 | None => Scorer.mkFeatures Scorer.Absent Scorer.Absent
                     Scorer.Absent Scorer.Absent Scorer.Absent Scorer.Absent
                     Scorer.Absent
                 end in
        a <- access_value (Scorer.nearest_metro_distance_m f);;
        collect os'
          (mkSeries
             (s_pop acc ++ [Scorer.get_default (Scorer.population_density f) 0])
             (s_inc acc ++ [Scorer.get_default (Scorer.median_income f) 0])
             (s_acc acc ++ [a])
             (s_comp acc ++ [Scorer.get_default (Scorer.competitors_per_1k_residents f) 0])
             (s_walk acc ++ [Scorer.get_default (Scorer.walkability_poi_count f) 0])
             (s_rev acc ++ [Some (actual_revenue_eur o)]))
  end.

(** [max(new_weights, key=new_weights.get)] followed by the update of that
    key: the first key, in dict order, holding the largest value. *)
Definition adjust_max (w : Scorer.weights) (delta : Q) : Scorer.weights :=
  let p := Scorer.w_population w in let i := Scorer.w_income w in
  let a := Scorer.w_access w in let c := Scorer.w_competition w in
  let k := Scorer.w_walkability w in
  let m := Qmax (Qmax (Qmax (Qmax p i) a) c) k in
  let upd x := py_round_nd (x + delta) 2 in
  if Qeq_bool p m then Scorer.mkWeights (upd p) i a c k
  else if Qeq_bool i m then Scorer.mkWeights p (upd i) a c k
  else if Qeq_bool a m then Scorer.mkWeights p i (upd a) c k
  else if Qeq_bool c m then Scorer.mkWeights p i a (upd c) k
  else Scorer.mkWeights p i a c (upd k).

Definition weight_sum (w : Scorer.weights) : Q :=
  Scorer.w_population w + Scorer.w_income w + Scorer.w_access w
  + Scorer.w_competition w + Scorer.w_walkability w.

(** [ConceptLearner._optimize_weights]; [Ok None] is the Python [None]. *)
Definition _optimize_weights (os : list training_outcome)
  (current_weights : Scorer.weights) : res (option Scorer.weights) :=
  if Nat.ltb (List.length os) MIN_OUTCOMES_FOR_WEIGHTS then Ok None
  else
    s <- collect os (mkSeries [] [] [] [] [] []);;
    let corr x := Qabs (_calculate_correlation x (s_rev s)) in
    let cp := corr (s_pop s) in let ci := corr (s_inc s) in
    let ca := corr (s_acc s) in let cc := corr (s_comp s) in
    let ck := corr (s_walk s) in
    let total_corr := 0 + cp + ci + ca + cc + ck in
    if Qeq_bool total_corr 0 then Ok None
    else
      let nw x := py_round_nd (x / total_corr) 2 in
      let new_weights := Scorer.mkWeights (nw cp) (nw ci) (nw ca) (nw cc) (nw ck) in
      let ws := 0 + weight_sum new_weights in
      if negb (Qeq_bool ws 1) then Ok (Some (adjust_max new_weights (1 - ws)))
      else Ok (Some new_weights).

Definition new_variance_of (mape : Q) (n : nat) : Q :=
  if Qltb mape 10 then 0.10
  else if Qltb mape 15 then 0.12
  else if Qltb mape 20 then 0.15
  else Qmax (0.20 - inject_Z (Z.of_nat n) * 0.005) 0.15.

(** [ConceptLearner._retrain_concept]. *)
Definition _retrain_concept (d : db) (cid : string) : res db :=
  match find_concept d cid with
  | None => Ok d
  | Some c =>
      let os := outcomes_of d cid in
      if Nat.ltb (List.length os) MIN_OUTCOMES_FOR_TRAINING then Ok d
      else
        new_base_revenue <- median (map actual_revenue_eur os);;
        mape <- mean (map (fun o => Qabs (variance_pct o)) os);;
        let new_variance := new_variance_of mape (List.length os) in
        let c1 := mkConcept (concept_id c) (py_int new_base_revenue) new_variance
                    (Some mape) (weights c) (outcomes_count c) (Some (utcnow d)) in
        optimized <-
          (if Nat.leb MIN_OUTCOMES_FOR_WEIGHTS (List.length os)
           then _optimize_weights os (weights c1) else Ok None);;
        let c2 := match optimized with
                  | Some w => mkConcept (concept_id c1) (base_revenue_eur c1)
                      (revenue_variance c1) (avg_prediction_error c1) w
                      (outcomes_count c1) (last_trained_at c1)
                  | None => c1
                  end in
        let mark o :=
          if String.eqb (to_concept_id o) cid then
            mkOutcome (to_id o) (to_concept_id o) (to_prediction_id o)
              (predicted_revenue_eur o) (predicted_score o) (features_used o)
              (actual_revenue_eur o) (variance_pct o) (opened_at o) true
              (training_weight o)
          else o in
        Ok (put_concept (set_outcomes d (map mark (outcomes d))) c2)
  end.

Record record_result := mkRecordResult {
  training_outcome_id : option Z;
  r_variance_pct : Q;
  triggered_retraining : bool;
  new_accuracy : option Q;
  r_outcomes_count : option Z;
  message : option string
}.

(** Whether a stored training outcome already refers to the prediction. *)
Definition outcome_exists (d : db) (prediction_id : Z) : bool :=
  existsb (fun o => Z.eqb (to_prediction_id o) prediction_id) (outcomes d).

(** [ConceptLearner.record_outcome]: the result dict and the session after
    [commit()]. *)
Definition record_outcome (d : db) (prediction_id : Z) (actual_revenue : Q)
  (opened : Z) : res (record_result * db) :=
  match find_prediction d prediction_id with
  | None => Raise (ValueError ("Prediction " ++ MockAddress.z_to_string prediction_id
                                ++ " not found")%string)
  | Some p =>
      match truthy_str (pred_concept_id p) with
      | None =>
          Ok (mkRecordResult None 0 false None None
                (Some "No concept linked to prediction - cannot learn"%string), d)
      | Some cid =>
          v <- of_div (pydiv (actual_revenue - pred_revenue_mid p) (pred_revenue_mid p));;
          let variance := v * 100 in
          let o := mkOutcome (next_outcome_id d) cid prediction_id
                     (pred_revenue_mid p) (pred_score p) (pred_features p)
                     actual_revenue variance opened false 1 in
          let d1 := mkDb (predictions d) (outcomes d ++ [o]) (concepts d)
                      (next_outcome_id d + 1) (utcnow d) in
          (* [db.flush()]: [prediction_id] is a unique column of
             [concept_training_outcomes]. *)
          if outcome_exists d prediction_id then Raise IntegrityError else
          match find_concept d1 cid with
          | None => Raise AttributeError
          | Some c =>
              let c' := mkConcept (concept_id c) (base_revenue_eur c)
                          (revenue_variance c) (avg_prediction_error c) (weights c)
                          (outcomes_count c + 1) (last_trained_at c) in
              let d2 := put_concept d1 c' in
              if Z.leb (Z.of_nat MIN_OUTCOMES_FOR_TRAINING) (outcomes_count c') then
                d3 <- _retrain_concept d2 (concept_id c');;
                let acc := match find_concept d3 cid with
                           | Some c3 => avg_prediction_error c3
                           | None => None
                           end in
                Ok (mkRecordResult (Some (to_id o)) (py_round_nd variance 2) true acc
                      (Some (outcomes_count c')) None, d3)
              else
                Ok (mkRecordResult (Some (to_id o)) (py_round_nd variance 2) false None
                      (Some (outcomes_count c')) None, d2)
          end
      end
  end.

End WithPow.

End Learner.

(** Sample sessions for the learner. *)
Module LearnerData.
Import Learner.
Local Open Scope string_scope.

(** The [v ** 0.5] of weight re-estimation: with fewer than 20 outcomes
    retraining never reads it, so any function serves for the samples. *)
Definition pow_half_unused (x : Q) : Q := 0.

Definition outcome_of (i : Z) (cid : string) (rev : Q) : training_outcome :=
  mkOutcome i cid i 100000 70 None rev ((rev - 100000) / 100000 * 100) 0 false 1.

Fixpoint outcomes_from (i : Z) (cid : string) (revs : list Q) : list training_outcome :=
  match revs with
  | [] => []
  | r :: rs => outcome_of i cid r :: outcomes_from (i + 1) cid rs
  end.

Definition coffee : concept :=
  mkConcept "coffee" 100000 0.2 None (Scorer.mkWeights 0.3 0.2 0.2 0.2 0.1) 5 None.

(** A session holding the concept [coffee] and one outcome per revenue. *)
Definition session_with (revs : list Q) : db :=
  mkDb [] (outcomes_from 1 "coffee" revs) [coffee]
    (Z.of_nat (List.length revs) + 1) 1700000000.

(** A function for [v ** 0.5] with which the correlations are the plain
    covariances: the sample below only needs them nonzero. *)
Definition pow_half_one (x : Q) : Q := 1.

(** An outcome whose stored features give equal correlations for
    population, income and walkability. *)
Definition featured_outcome (i : Z) : training_outcome :=
  mkOutcome i "coffee" i 100000 70
    (Some (mkJsonFeatures
       (Scorer.mkFeatures (Scorer.Num (inject_Z i * 10))
          (Scorer.Num (inject_Z i * 10 + 30000)) Scorer.Absent Scorer.Absent
          Scorer.Absent Scorer.Absent (Scorer.Num (inject_Z i * 10))) false))
    (inject_Z i * 1000 + 90000) ((inject_Z i * 1000 - 10000) / 100000 * 100) 0 false 1.

(** A session holding [coffee] and twenty such outcomes. *)
Definition featured_session : db :=
  mkDb [] (map featured_outcome (map Z.of_nat (seq 1 20))) [coffee] 21 1700000000.

(** A session holding one prediction of [coffee] with the given predicted
    revenue, and the given concepts. *)
Definition linked_session (mid : Q) (cs : list concept) : db :=
  mkDb [mkPrediction 7 (Some "coffee") mid 70 None] [] cs 1 1700000000.

(** The update [_retrain_concept] applies to each outcome: those of the
    retrained concept are marked as used in training. *)
Definition mark_of (cid : string) (o : training_outcome) : training_outcome :=
  if String.eqb (to_concept_id o) cid then
    mkOutcome (to_id o) (to_concept_id o) (to_prediction_id o)
      (predicted_revenue_eur o) (predicted_score o) (features_used o)
      (actual_revenue_eur o) (variance_pct o) (opened_at o) true
      (training_weight o)
  else o.

(** A session holding the prediction of [coffee] (revenue 100000), the
    concept, and a training outcome already recorded for the prediction. *)
Definition duplicate_session : db :=
  mkDb [mkPrediction 7 (Some "coffee") 100000 70 None]
    [mkOutcome 1 "coffee" 7 100000 70 None 110000 10 0 false 1] [coffee] 2 1700000000.

(** A session holding a prediction without a concept. *)
Definition unlinked_session : db :=
  mkDb [mkPrediction 7 None 100000 70 None] [] [coffee] 1 1700000000.

End LearnerData.

(** ** Background jobs ([services/job_manager.py], [routes/recommend.py]) *)

Module Jobs.
Local Open Scope string_scope.

(** An item of a job's [asyncio.Queue]; [EndOfStream] is the [None]
    sentinel. *)
Inductive event :=
  | StageEvent (job_id stage status : string) (metrics : list (string * Z))
      (ms : option Z) (cached : bool)
  | CompletionEvent (job_id : string) (result : string)
  | FailureEvent (job_id error : string)
  | EndOfStream.

Record stage_info := mkStage {
  st_status : string;
  st_metrics : list (string * Z);
  st_ms : option Z;
  st_cached : bool;
  st_timestamp : Z
}.

(** The job dict; [result] stands for the result payload. *)
Record job := mkJob {
  job_id : string;
  status : string;
  city : string;
  concept : string;
  limit : Z;
  include_crime : bool;
  created_at : Z;
  expires_at : Z;
  stages : list (string * stage_info);
  degraded : list string;
  result : option string;
  error : option string;
  completed_at : option Z
}.

(** The [JobManager]: its two dicts (in insertion order) and its TTL.
    Timestamps are seconds of [datetime.utcnow()], passed in as [now]. *)
Record manager := mkManager {
  jobs : list (string * job);
  job_queues : list (string * list event);
  ttl_seconds : Z
}.

Section Dict.
Context {V : Type}.

Definition lookup (k : string) (d : list (string * V)) : option V :=
  match find (fun p => String.eqb (fst p) k) d with
  | Some (_, v) => Some v
  | None => None
  end.

(** [d[k] = v]: an existing key keeps its position, a new key is appended. *)
Definition set (k : string) (v : V) (d : list (string * V)) : list (string * V) :=
  if existsb (fun p => String.eqb (fst p) k) d
  then map (fun p => if String.eqb (fst p) k then (k, v) else p) d
  else app d [(k, v)].

Definition remove (k : string) (d : list (string * V)) : list (string * V) :=
  filter (fun p => negb (String.eqb (fst p) k)) d.

End Dict.

Definition with_jobs (m : manager) (js : list (string * job)) : manager :=
  mkManager js (job_queues m) (ttl_seconds m).

(** [queue.put(e)] when the job has a queue. *)
Definition put_events (m : manager) (jid : string) (es : list event) : manager :=
  match lookup jid (job_queues m) with
  | Some q => mkManager (jobs m) (set jid (app q es) (job_queues m)) (ttl_seconds m)
  | None => m
  end.

Definition empty_manager (ttl : Z) : manager := mkManager [] [] ttl.

(** [JobManager.create_job]; [jid] is the fresh [str(uuid.uuid4())]. *)
Definition create_job (m : manager) (jid : string) (now : Z) (city concept : string)
  (limit : Z) (include_crime : bool) : string * manager :=
  let j := mkJob jid "pending" city concept limit include_crime now
             (now + ttl_seconds m) [] [] None None None in
  (jid, mkManager (set jid j (jobs m)) (set jid [] (job_queues m)) (ttl_seconds m)).

(** [JobManager.emit_stage_update]. *)
Definition emit_stage_update (m : manager) (jid stage st : string)
  (metrics : list (string * Z)) (ms : option Z) (cached : bool) (now : Z) : manager :=
  match lookup jid (jobs m) with
  | None => m
  | Some j =>
      let j' := mkJob (job_id j) (status j) (city j) (concept j) (limit j)
                  (include_crime j) (created_at j) (expires_at j)
                  (set stage (mkStage st metrics ms cached now) (stages j))
                  (degraded j) (result j) (error j) (completed_at j) in
      put_events (with_jobs m (set jid j' (jobs m))) jid
        [StageEvent jid stage st metrics ms cached]
  end.

(** [JobManager.complete_job]. *)
Definition complete_job (m : manager) (jid : string) (res : string)
  (warnings : list string) (now : Z) : manager :=
  match lookup jid (jobs m) with
  | None => m
  | Some j =>
      let st := match warnings with [] => "complete" | _ :: _ => "degraded" end in
      let j' := mkJob (job_id j) st (city j) (concept j) (limit j)
                  (include_crime j) (created_at j) (expires_at j) (stages j)
                  warnings (Some res) (error j) (Some now) in
      put_events (with_jobs m (set jid j' (jobs m))) jid
        [CompletionEvent jid res; EndOfStream]
  end.

(** [JobManager.fail_job]. *)
Definition fail_job (m : manager) (jid err : string) (now : Z) : manager :=
  match lookup jid (jobs m) with
  | None => m
  | Some j =>
      let j' := mkJob (job_id j) "failed" (city j) (concept j) (limit j)
                  (include_crime j) (created_at j) (expires_at j) (stages j)
                  (degraded j) (result j) (Some err) (Some now) in
      put_events (with_jobs m (set jid j' (jobs m))) jid
        [FailureEvent jid err; EndOfStream]
  end.

(** [JobManager.get_job]. *)
Definition get_job (m : manager) (jid : string) : option job :=
  lookup jid (jobs m).

(** [JobManager.cleanup_expired_jobs]. *)
Definition cleanup_expired_jobs (m : manager) (now : Z) : manager :=
  let expired := map fst (filter (fun p => Z.ltb (expires_at (snd p)) now) (jobs m)) in
  fold_left (fun m' jid => mkManager (remove jid (jobs m')) (remove jid (job_queues m'))
                             (ttl_seconds m'))
    expired m.

(** [run_recommendation_job]: [job = get_job(id); if job: job['status'] =
    'running'] mutates the dict held by the registry. *)
Definition mark_running (m : manager) (jid : string) : manager :=
  match get_job m jid with
  | None => m
  | Some j =>
      with_jobs m (set jid (mkJob (job_id j) "running" (city j) (concept j) (limit j)
                             (include_crime j) (created_at j) (expires_at j) (stages j)
                             (degraded j) (result j) (error j) (completed_at j)) (jobs m))
  end.

(** What [stream_job_events] takes from a queue before it would block: the
    events it yields, and [Some rest] when it reached the [None] sentinel
    (the generator returns, [rest] stays queued) or [None] when the queue
    ran empty first (the generator waits and yields keepalives). *)
Fixpoint drain (q : list event) : list event * option (list event) :=
  match q with
  | [] => ([], None)
  | EndOfStream :: rest => ([], Some rest)
  | e :: rest => let (ys, r) := drain rest in (e :: ys, r)
  end.

(** [JobManager.stream_job_events], run until it returns or blocks: the
    events yielded, whether the generator returned, and the manager with
    the consumed items taken off the job's queue.  A job without a queue
    returns at once. *)
Definition stream_job_events (m : manager) (jid : string)
  : list event * bool * manager :=
  match lookup jid (job_queues m) with
  | None => ([], true, m)
  | Some q =>
      let (ys, r) := drain q in
      match r with
      | Some rest => (ys, true, mkManager (jobs m) (set jid rest (job_queues m)) (ttl_seconds m))
      | None => (ys, false, mkManager (jobs m) (set jid [] (job_queues m)) (ttl_seconds m))
      end
  end.

(** The registry operations the application performs: the routes create
    jobs, the background task marks them running, emits stage updates and
    completes or fails them; [get_job] reads.  No module of the application
    calls [cleanup_expired_jobs]. *)
Inductive app_step : manager -> manager -> Prop :=
  | AppCreate m jid now city concept limit incl :
      lookup jid (jobs m) = None ->
      app_step m (snd (create_job m jid now city concept limit incl))
  | AppRunning m jid : app_step m (mark_running m jid)
  | AppEmit m jid stage st metrics ms cached now :
      app_step m (emit_stage_update m jid stage st metrics ms cached now)
  | AppComplete m jid res warnings now :
      app_step m (complete_job m jid res warnings now)
  | AppFail m jid err now : app_step m (fail_job m jid err now).

End Jobs.

(** A sample run of the registry: a job created at time 0 with the default
    TTL of 3600 s, marked running, its geocoding stage reported at 60 s and
    its scoring stage at 7200 s, long after its expiry; it never completes. *)
Module JobsData.
Import Jobs.
Local Open Scope string_scope.

Definition stale_run : manager :=
  let m0 := snd (create_job (empty_manager 3600) "job-1" 0 "Helsinki" "coffee" 10 false) in
  let m1 := mark_running m0 "job-1" in
  let m2 := emit_stage_update m1 "job-1" "GEO" "done" [] (Some 120%Z) false 60 in
  emit_stage_update m2 "job-1" "SCORE" "running" [] None false 7200.

End JobsData.

(** ** Trust metrics ([services/trust_metrics.py]) *)

Module Trust.
Local Open Scope R_scope.

(** [DataCoverage]; its fields are declared [ge=0, le=1]. *)
Record data_coverage := mkCoverage {
  demographics : R;
  competition : R;
  transit : R;
  overall : R
}.

Definition dict_get (d : list (string * R)) (k : string) : option R :=
  match find (fun p => String.eqb (fst p) k) d with
  | Some (_, v) => Some v
  | None => None
  end.

Definition get_or (d : list (string * R)) (k : string) (dflt : R) : R :=
  match dict_get d k with Some v => v | None => dflt end.

(** Python's [round] on reals: round half to even, after flooring with
    [up y - 1]. *)
Definition round_half_even_R (y : R) : Z :=
  let f := (up y - 1)%Z in
  let r := y - IZR f in
  if Rlt_dec r (1 / 2) then f
  else if Rlt_dec (1 / 2) r then (f + 1)%Z
  else if Z.even f then f else (f + 1)%Z.

Definition py_round_nd_R (x : R) (nd : nat) : R :=
  IZR (round_half_even_R (x * 10 ^ nd)) / 10 ^ nd.

Definition sumR (l : list R) : R := fold_left Rplus l 0.

Definition required_features : list string :=
  ["population_1km"; "median_income"; "competitors_count";
   "nearest_metro_distance_m"; "walkability_poi_count"]%string.

Definition features_present (score_components : list (string * R)) : nat :=
  List.length (filter (fun f => match dict_get score_components f with
                                | Some _ => true | None => false end)
                 required_features).

(** [features.get(f) is not None] on the feature dict; a value [None] is
    Python [None]. *)
Definition is_present (features : list (string * option R)) (f : string) : bool :=
  match find (fun p => String.eqb (fst p) f) features with
  | Some (_, Some _) => true
  | _ => false
  end.

Definition count_present (fields : list string) (features : list (string * option R))
  : nat :=
  List.length (filter (is_present features) fields).

(** [TrustMetrics.calculate_coverage]. *)
Definition calculate_coverage (features : list (string * option R)) : data_coverage :=
  let demo_fields := ["population_1km"; "population_density"; "median_income"]%string in
  let demographics :=
    INR (count_present demo_fields features) / INR (List.length demo_fields) in
  let comp_fields := ["competitors_count"; "competitors_per_1k_residents"]%string in
  let competition :=
    INR (count_present comp_fields features) / INR (List.length comp_fields) in
  let transit_fields := ["nearest_metro_distance_m"; "nearest_tram_distance_m";
                         "walkability_poi_count"]%string in
  let transit :=
    INR (count_present transit_fields features) / INR (List.length transit_fields) in
  let overall := demographics * 0.4 + competition * 0.3 + transit * 0.3 in
  mkCoverage (py_round_nd_R demographics 2) (py_round_nd_R competition 2)
    (py_round_nd_R transit 2) (py_round_nd_R overall 2).

(** The keys of the [score_components] dict that [ScoringEngine.calculate_score]
    returns. *)
Definition component_keys : list string :=
  ["population"; "income"; "access"; "competition"; "walkability"]%string.

(** [TrustMetrics.calculate_confidence]; [variance ** 0.5] is [sqrt] of a
    non-negative real. *)
Definition calculate_confidence (score_components : list (string * R))
  (coverage : data_coverage) : R :=
  let coverage_score := overall coverage * 0.4 in
  let scores := [get_or score_components "population" 50;
                 get_or score_components "income" 50;
                 get_or score_components "access" 50;
                 get_or score_components "competition" 50]%string in
  let avg_score := sumR scores / 4 in
  let variance := sumR (map (fun s => (s - avg_score) ^ 2) scores) / 4 in
  let std_dev := sqrt variance in
  let consistency := Rmax 0 (1 - std_dev / 50) in
  let consistency_score := consistency * 0.3 in
  let completeness := INR (features_present score_components) / 5 in
  let completeness_score := completeness * 0.3 in
  let confidence := coverage_score + consistency_score + completeness_score in
  py_round_nd_R (Rmin confidence 1) 2.

End Trust.

(** ** Candidate scoring ([services/address_generator.py]) *)

Module AddressScoring.
Import Dedup.
Local Open Scope R_scope.

(** An entry of the [areas] table of [_get_hardcoded_population]; its
    ['name'] is never read. *)
Record area := mkArea { area_lat : R; area_lng : R; area_pop : Z }.

Definition areas : list area :=
  [mkArea 60.170 24.938 18000; mkArea 60.169 24.945 16500;
   mkArea 60.163 24.940 15200; mkArea 60.158 24.933 14800;
   mkArea 60.180 24.950 13500; mkArea 60.175 24.965 12000;
   mkArea 60.195 24.925 11500; mkArea 60.203 24.962 10800;
   mkArea 60.220 24.960 9500; mkArea 60.210 25.080 8200;
   mkArea 60.225 25.040 7500; mkArea 60.160 24.880 8800].

(** The [for area in areas] loop; [min_dist = None] is [float('inf')]. *)
Fixpoint closest_area (l : list area) (lat lng : R) (min_dist : option R)
  (closest_pop : Z) : option R * Z :=
  match l with
  | [] => (min_dist, closest_pop)
  | a :: l' =>
      let dist := _haversine_distance lat lng (area_lat a) (area_lng a) in
      let closer := match min_dist with
                    | None => true
                    | Some m => if Rlt_dec dist m then true else false
                    end in
      if closer then closest_area l' lat lng (Some dist) (area_pop a)
      else closest_area l' lat lng min_dist closest_pop
  end.

(** [AddressGenerator._get_hardcoded_population]. *)
Definition _get_hardcoded_population (lat lng : R) : Z :=
  let (min_dist, closest_pop) := closest_area areas lat lng None 8000 in
  match min_dist with
  | Some m => if Rlt_dec m 2.0 then closest_pop else 8000
  | None => 8000
  end.

Record pop_data := mkPopData { p_score : R; population : Z; p_coverage : R }.
Record comp_data := mkCompData {
  c_score : R; competitors : Z; per_1k : R; c_coverage : R }.
Record transit_data := mkTransitData {
  t_score : R; nearest_metro_m : Z; nearest_tram_m : Z; t_coverage : R }.

(** [AddressGenerator._get_population_score]. *)
Definition _get_population_score (lat lng : R) : pop_data :=
  let population := _get_hardcoded_population lat lng in
  if (0 <? population)%Z then
    mkPopData (Rmin (IZR population / 25000 * 100) 100) population 1.0
  else mkPopData 50 8000 0.8.

(** [AddressGenerator._get_competition_score]. *)
Definition _get_competition_score (lat lng : R) (concept : string) : comp_data :=
  let competitors := 10%Z in
  let per_1k := 0.9 in
  let score := Rmax (100 - per_1k * 33.3) 0 in
  mkCompData score competitors per_1k 0.9.

(** [AddressGenerator._get_transit_score]. *)
Definition _get_transit_score (lat lng : R) : transit_data :=
  let nearest_metro_m := 250%Z in
  let nearest_tram_m := 120%Z in
  let metro_score := Rmax (50 - IZR nearest_metro_m / 10) 0 in
  let tram_score := Rmax (50 - IZR nearest_tram_m / 6) 0 in
  let score := metro_score + tram_score in
  mkTransitData (Rmin score 100) nearest_metro_m nearest_tram_m 0.88.

(** Python [int(x)] on a float: truncation toward zero ([up x - 1] is the
    floor of [x]). *)
Definition py_int_R (x : R) : Z :=
  if Rle_dec 0 x then (up x - 1)%Z else (- (up (- x) - 1))%Z.

Definition Rge_b (x y : R) : bool := if Rle_dec y x then true else false.

(** The numeric fields and the decision of the dict [_score_candidate]
    returns. *)
Record scored := mkScored {
  s_score : R;
  revenue_min_eur : Z;
  revenue_max_eur : Z;
  s_confidence : R;
  decision : string
}.

(** [AddressGenerator._score_candidate].  The three data helpers do not
    raise, so the fallbacks for an exception out of [asyncio.gather] are
    not taken, and the [try] never reaches its [return None]. *)
Definition _score_candidate (lat lng : R) (address concept : string)
  (include_crime : bool) : option scored :=
  let pd := _get_population_score lat lng in
  let cd := _get_competition_score lat lng concept in
  let td := _get_transit_score lat lng in
  let pop_score := p_score pd in
  let comp_score := c_score cd in
  let transit_score := t_score td in
  let income_score := 70 in
  let traffic_score := 60 in
  let score := pop_score * 0.28 + comp_score * 0.15 + transit_score * 0.20
               + income_score * 0.22 + traffic_score * 0.10 in
  let base_revenue := 150000 in
  let revenue_min := py_int_R (base_revenue * (score / 100) * 0.65) in
  let revenue_max := py_int_R (base_revenue * (score / 100) * 1.20) in
  let confidence := Rmin (0.5 + p_coverage pd * 0.2 + c_coverage cd * 0.2
                          + t_coverage td * 0.1) 0.95 in
  let decision :=
    if Rge_b score 85 && Rge_b confidence 0.80 then "MAKE_OFFER"%string
    else if Rge_b score 70 && Rge_b confidence 0.65 then "NEGOTIATE"%string
    else "PASS"%string in
  Some (mkScored (Trust.py_round_nd_R score 1) revenue_min revenue_max
          (Trust.py_round_nd_R confidence 2) decision).

End AddressScoring.

(** ** Concept management API ([routes/concepts.py]) and concept resolution
    ([agents/scorer.py]) *)

Module ConceptsApi.
Local Open Scope string_scope.

(** A row of the [concepts] table, with the columns the routes and the
    scorer read or write ([updated_at] and [last_trained_at] are left out).
    [created_at] is a [DateTime] column filled by [default=datetime.utcnow]
    on insert: [Some t] for a datetime, [None] for NULL. *)
Record concept_row := mkRow {
  id : string;
  customer_id : string;
  name : string;
  category : string;
  description : option string;
  base_revenue_eur : Z;
  revenue_variance : Q;
  target_income_min : Z;
  target_income_max : Z;
  optimal_population_density : Z;
  target_competitors_per_1k : Q;
  weights : Scorer.weights;
  outcomes_count : Z;
  avg_prediction_error : option Q;
  is_system_default : bool;
  is_active : bool;
  created_at : option Z
}.

(** The session: the concept rows in table order and the ids of the
    customers. *)
Record api_db := mkApiDb { rows : list concept_row; customers : list string }.

(** A route returns its response, or raises [HTTPException(status_code)];
    a request body that fails its Pydantic model is refused with 422
    before the route runs. *)
Inductive api_res (A : Type) := Done (a : A) | HTTPException (status_code : Z).
Arguments Done {A} a.
Arguments HTTPException {A} status_code.

(** A Python value handed to Pydantic for a field. *)
Inductive py_val := PyStr (s : string) | PyDatetime (t : Z) | PyNone.

(** What the ORM reads from a [DateTime] column. *)
Definition datetime_column (v : option Z) : py_val :=
  match v with Some t => PyDatetime t | None => PyNone end.

(** Pydantic's validation of a field declared [str]: a [datetime] or [None]
    is refused. *)
Definition str_field (v : py_val) : bool :=
  match v with PyStr _ => true | _ => false end.

(** [ConceptResponse.model_validate(concept)] in a route: [created_at] is
    declared [str], so the row's [datetime] fails validation, the
    [ValidationError] escapes the route and FastAPI answers 500 ([updated_at],
    also a [DateTime] column declared [str], fails the same way). *)
Definition concept_response (r : concept_row) : api_res concept_row :=
  if str_field (datetime_column (created_at r)) then Done r else HTTPException 500.

(** [ConceptCreate]. *)
Record concept_create := mkCreate {
  cc_customer_id : string;
  cc_name : string;
  cc_category : string;
  cc_description : option string;
  cc_base_revenue_eur : Z;
  cc_target_income_min : Z;
  cc_target_income_max : Z;
  cc_optimal_population_density : Z;
  cc_target_competitors_per_1k : Q;
  cc_weights : Scorer.weights
}.

(** [ConceptUpdate] after [model_dump(exclude_unset=True)]: [Some v] for a
    field the request sets to [v], [None] for a field it leaves out (a
    field sent as an explicit [null] is not covered). *)
Record concept_update := mkUpdate {
  u_name : option string;
  u_description : option string;
  u_base_revenue_eur : option Z;
  u_target_income_min : option Z;
  u_target_income_max : option Z;
  u_optimal_population_density : option Z;
  u_target_competitors_per_1k : option Q;
  u_weights : option Scorer.weights;
  u_is_active : option bool
}.

(** The [Field(..., ge=0, le=1)] constraints of [ConceptWeights]. *)
Definition weights_fields_valid (w : Scorer.weights) : bool :=
  Scorer.unit_interval (Scorer.w_population w) && Scorer.unit_interval (Scorer.w_income w)
  && Scorer.unit_interval (Scorer.w_access w)
  && Scorer.unit_interval (Scorer.w_competition w)
  && Scorer.unit_interval (Scorer.w_walkability w).

(** The [Field(..., gt=0)] constraints of [ConceptCreate]. *)
Definition create_fields_valid (c : concept_create) : bool :=
  (0 <? cc_base_revenue_eur c)%Z && (0 <? cc_target_income_min c)%Z
  && (0 <? cc_target_income_max c)%Z && (0 <? cc_optimal_population_density c)%Z
  && Qltb 0 (cc_target_competitors_per_1k c) && weights_fields_valid (cc_weights c).

(** [0.95 <= total_weight <= 1.05] on [sum(weights_dict.values())]. *)
Definition weights_total_ok (w : Scorer.weights) : bool :=
  Qle_bool 0.95 (Scorer.total_weight w) && Qle_bool (Scorer.total_weight w) 1.05.

(** [db.query(Concept).filter(Concept.id == concept_id).first()]. *)
Definition find_row (d : api_db) (cid : string) : option concept_row :=
  find (fun r => String.eqb (id r) cid) (rows d).

(** Committing changes to the object [.first()] returned. *)
Fixpoint replace_first (cid : string) (r' : concept_row) (l : list concept_row)
  : list concept_row :=
  match l with
  | [] => []
  | r :: l' => if String.eqb (id r) cid then r' :: l' else r :: replace_first cid r' l'
  end.

Definition with_rows (d : api_db) (l : list concept_row) : api_db :=
  mkApiDb l (customers d).

Definition customer_exists (d : api_db) (c : string) : bool :=
  existsb (String.eqb c) (customers d).

(** [list_concepts]: the rows, [total], [system_defaults] and
    [custom_concepts], or 500 when a row fails [ConceptResponse].  The
    optional filters apply when truthy; [is_active] is a [bool] query
    parameter, so its filter always applies. *)
Definition list_concepts (d : api_db) (cust cat : option string) (act : bool)
  : api_res (list concept_row * nat * nat * nat) :=
  let keep r :=
    match Learner.truthy_str cust with Some c => String.eqb (customer_id r) c | None => true end
    && match Learner.truthy_str cat with Some c => String.eqb (category r) c | None => true end
    && Bool.eqb (is_active r) act in
  let concepts := filter keep (rows d) in
  let system_defaults := List.length (filter is_system_default concepts) in
  if forallb (fun r => match concept_response r with Done _ => true | _ => false end)
       concepts
  then Done (concepts, List.length concepts, system_defaults,
             (List.length concepts - system_defaults)%nat)
  else HTTPException 500.

(** [get_concept]. *)
Definition get_concept (d : api_db) (cid : string) : api_res concept_row :=
  match find_row d cid with
  | None => HTTPException 404
  | Some r => concept_response r
  end.

(** [create_concept]: the response and the session afterwards; [new_id] is
    the fresh [generate_uuid()] of the row and [now] the [datetime.utcnow()]
    of its [created_at]. The row is committed before the response is
    validated. *)
Definition create_concept (d : api_db) (new_id : string) (now : Z) (c : concept_create)
  : api_res concept_row * api_db :=
  if negb (create_fields_valid c) then (HTTPException 422, d)
  else if negb (customer_exists d (cc_customer_id c)) then (HTTPException 404, d)
  else if negb (weights_total_ok (cc_weights c)) then (HTTPException 400, d)
  else
    let r := mkRow new_id (cc_customer_id c) (cc_name c) (cc_category c)
               (cc_description c) (cc_base_revenue_eur c) 0.2
               (cc_target_income_min c) (cc_target_income_max c)
               (cc_optimal_population_density c) (cc_target_competitors_per_1k c)
               (cc_weights c) 0 None false true (Some now) in
    (concept_response r, with_rows d (rows d ++ [r])).

Definition opt_or {A} (o : option A) (x : A) : A :=
  match o with Some v => v | None => x end.

(** The [setattr] loop of [update_concept]. *)
Definition apply_update (r : concept_row) (u : concept_update) : concept_row :=
  mkRow (id r) (customer_id r) (opt_or (u_name u) (name r)) (category r)
    (match u_description u with Some s => Some s | None => description r end)
    (opt_or (u_base_revenue_eur u) (base_revenue_eur r)) (revenue_variance r)
    (opt_or (u_target_income_min u) (target_income_min r))
    (opt_or (u_target_income_max u) (target_income_max r))
    (opt_or (u_optimal_population_density u) (optimal_population_density r))
    (opt_or (u_target_competitors_per_1k u) (target_competitors_per_1k r))
    (opt_or (u_weights u) (weights r)) (outcomes_count r) (avg_prediction_error r)
    (is_system_default r) (opt_or (u_is_active u) (is_active r)) (created_at r).

(** [update_concept]: the response and the session afterwards; the update
    is committed before the response is validated. *)
Definition update_concept (d : api_db) (cid : string) (u : concept_update)
  : api_res concept_row * api_db :=
  if negb (match u_weights u with Some w => weights_fields_valid w | None => true end)
  then (HTTPException 422, d)
  else
    match find_row d cid with
    | None => (HTTPException 404, d)
    | Some r =>
        if is_system_default r then (HTTPException 403, d)
        else if negb (match u_weights u with Some w => weights_total_ok w | None => true end)
        then (HTTPException 400, d)
        else
          let r' := apply_update r u in
          (concept_response r', with_rows d (replace_first cid r' (rows d)))
    end.

(** [clone_concept]: the response and the session afterwards; [now] is the
    [created_at] of the clone, which is committed before the response is
    validated. *)
Definition clone_concept (d : api_db) (new_id : string) (now : Z)
  (cid new_name cust : string) : api_res concept_row * api_db :=
  match find_row d cid with
  | None => (HTTPException 404, d)
  | Some s =>
      if negb (customer_exists d cust) then (HTTPException 404, d)
      else
        let r := mkRow new_id cust new_name (category s)
                   (Some ("Cloned from " ++ name s)) (base_revenue_eur s)
                   (revenue_variance s) (target_income_min s) (target_income_max s)
                   (optimal_population_density s) (target_competitors_per_1k s)
                   (weights s) 0 None false true (Some now) in
        (concept_response r, with_rows d (rows d ++ [r]))
  end.

(** [delete_concept]: a soft delete. *)
Definition delete_concept (d : api_db) (cid : string) : api_res api_db :=
  match find_row d cid with
  | None => HTTPException 404
  | Some r =>
      if is_system_default r then HTTPException 403
      else
        let r' := mkRow (id r) (customer_id r) (name r) (category r) (description r)
                    (base_revenue_eur r) (revenue_variance r) (target_income_min r)
                    (target_income_max r) (optimal_population_density r)
                    (target_competitors_per_1k r) (weights r) (outcomes_count r)
                    (avg_prediction_error r) (is_system_default r) false (created_at r) in
        Done (with_rows d (replace_first cid r' (rows d)))
  end.

(** The state changes the concept routes make: create, update and clone
    commit whatever they answer; a delete commits when it answers 200. A new
    row gets a fresh id. *)
Inductive api_step : api_db -> api_db -> Prop :=
  | StepCreate d new_id now c res d' :
      find_row d new_id = None -> create_concept d new_id now c = (res, d') ->
      api_step d d'
  | StepUpdate d cid u res d' : update_concept d cid u = (res, d') -> api_step d d'
  | StepClone d new_id now cid nm cust res d' :
      find_row d new_id = None -> clone_concept d new_id now cid nm cust = (res, d') ->
      api_step d d'
  | StepDelete d cid d' : delete_concept d cid = Done d' -> api_step d d'.

(** [ScoringEngine._db_concept_to_config]. *)
Definition _db_concept_to_config (r : concept_row) : Scorer.concept_config :=
  Scorer.mkConfig (inject_Z (base_revenue_eur r)) (inject_Z (target_income_min r))
    (inject_Z (target_income_max r)) (inject_Z (optimal_population_density r))
    (target_competitors_per_1k r) (weights r).

(** [ScoringEngine._get_concept_config]: [session = None] when the engine
    has no database session; [yaml] is [yaml_concepts]. *)
Definition _get_concept_config (session : option api_db)
  (yaml : list (string * Scorer.concept_config)) (concept_category : string)
  (concept_id : option string) : option (Scorer.concept_config * option string) :=
  let from_db :=
    match session with
    | None => None
    | Some d =>
        let by_id :=
          match Learner.truthy_str concept_id with
          | Some cid => find (fun r => String.eqb (id r) cid && is_active r) (rows d)
          | None => None
          end in
        match by_id with
        | Some r => Some (_db_concept_to_config r, Some (id r))
        | None =>
            match find (fun r => String.eqb (category r) concept_category
                                 && is_system_default r && is_active r) (rows d) with
            | Some r => Some (_db_concept_to_config r, Some (id r))
            | None => None
            end
        end
    end in
  match from_db with
  | Some x => Some x
  | None =>
      match find (fun p => String.eqb (fst p) concept_category) yaml with
      | Some (_, cfg) => Some (cfg, None)
      | None => None
      end
  end.

End ConceptsApi.

(** Sample concept tables. *)

Module ConceptsData.
Import ConceptsApi.
Local Open Scope string_scope.
Local Open Scope list_scope.

Definition demo_weights : Scorer.weights := Scorer.mkWeights 0.25 0.20 0.20 0.20 0.15.

Definition default_row : concept_row :=
  mkRow "sys-coffee" "system" "Coffee" "Coffee" None 400000 0.2 30000 60000 3000
    1.5 demo_weights 0 None true true (Some 1700000000%Z).

Definition custom_row : concept_row :=
  mkRow "c1" "cust1" "My Coffee" "Coffee" None 450000 0.2 35000 65000 3500
    1.2 demo_weights 0 None false true (Some 1700000000%Z).

Definition demo_api_db : api_db := mkApiDb [default_row; custom_row] ["cust1"].

(** A [PATCH] body that only sets [target_competitors_per_1k] to 0. *)
Definition zero_target_update : concept_update :=
  mkUpdate None None None None None None (Some 0%Q) None None.

Definition demo_create : concept_create :=
  mkCreate "cust1" "Bakery" "Bakery" None 300000 30000 55000 2500 1.0 demo_weights.

End ConceptsData.

(** ** Lemmas on the Python helpers *)

Lemma Qle_bool_false (a b : Q) : Qle_bool a b = false -> b < a.
Proof. intros H. apply Qnot_le_lt. intro H'. apply Qle_bool_iff in H'. congruence. Qed.

Lemma Qeq_bool_false (a b : Q) : Qeq_bool a b = false -> ~ a == b.
Proof. intros H H'. apply Qeq_bool_iff in H'. congruence. Qed.

Ltac qbool :=
  repeat match goal with
  | H : Qle_bool _ _ = true |- _ => apply Qle_bool_iff in H
  | H : Qle_bool _ _ = false |- _ => apply Qle_bool_false in H
  | H : Qeq_bool _ _ = true |- _ => apply Qeq_bool_iff in H
  | H : Qeq_bool _ _ = false |- _ => apply Qeq_bool_false in H
  | H : negb _ = true |- _ => apply Bool.negb_true_iff in H
  | H : negb _ = false |- _ => apply Bool.negb_false_iff in H
  | H : _ && _ = true |- _ => apply andb_true_iff in H; destruct H
  end.

Lemma pydiv_some (a b q : Q) : pydiv a b = Some q -> ~ b == 0 /\ q = a / b.
Proof.
  unfold pydiv. destruct (Qeq_bool b 0) eqn:E; intros H; [discriminate|].
  apply Qeq_bool_false in E. split; [exact E|]. congruence.
Qed.

Lemma some_inj {A} (a b : A) : Some a = Some b -> a = b.
Proof. congruence. Qed.

(** Case analysis that follows the branches of a definition: the goal is
    [body = Some s -> P]. *)
Ltac break :=
  repeat (cbv beta iota zeta;
   lazymatch goal with
   | |- (if ?b then _ else _) = _ -> _ => let E := fresh "E" in destruct b eqn:E
   | |- (match ?x with Some _ => _ | None => _ end) = _ -> _ =>
       let E := fresh "E" in destruct x eqn:E
   end); qbool;
  repeat match goal with
  | H : pydiv _ _ = Some _ |- _ => apply pydiv_some in H; destruct H; subst
  end;
  let H := fresh "H" in intros H; try discriminate H;
  apply some_inj in H; subst.

Ltac destr_qbool :=
  repeat match goal with
  | |- context [Qle_bool ?a ?b] => destruct (Qle_bool a b) eqn:?
  | |- context [Qeq_bool ?a ?b] => destruct (Qeq_bool a b) eqn:?
  end; simpl negb in *; qbool.

Lemma round_half_even_bounds (y : Q) :
  (Qfloor y <= round_half_even y <= Qfloor y + 1)%Z.
Proof.
  unfold round_half_even, Qltb.
  destruct (Qle_bool (1#2) (y - inject_Z (Qfloor y))), (Qle_bool (y - inject_Z (Qfloor y)) (1#2)),
    (Z.even (Qfloor y)); simpl; lia.
Qed.

Lemma round_half_even_mono (x y : Q) :
  x <= y -> (round_half_even x <= round_half_even y)%Z.
Proof.
  intros Hxy.
  pose proof (Qfloor_resp_le x y Hxy) as Hf.
  destruct (Z.eq_dec (Qfloor x) (Qfloor y)) as [E|E].
  - unfold round_half_even, Qltb. rewrite <- E.
    set (f := Qfloor x) in *.
    destr_qbool; destruct (Z.even f); simpl; try lia; exfalso; qlra.
  - pose proof (round_half_even_bounds x). pose proof (round_half_even_bounds y).
    lia.
Qed.

Lemma round_half_even_Qeq (x y : Q) :
  x == y -> round_half_even x = round_half_even y.
Proof.
  intros H. apply Z.le_antisymm; apply round_half_even_mono; qlra.
Qed.

Lemma round_half_even_Z (n : Z) : round_half_even (inject_Z n) = n.
Proof.
  unfold round_half_even, Qltb. rewrite Qfloor_Z.
  replace (Qle_bool (1#2) (inject_Z n - inject_Z n)) with false; [reflexivity|].
  symmetry. apply Bool.not_true_iff_false. rewrite Qle_bool_iff.
  intro H. qlra.
Qed.

Lemma pow10_pos (nd : nat) : 0 < inject_Z (10 ^ Z.of_nat nd).
Proof.
  change 0 with (inject_Z 0). rewrite <- Zlt_Qlt. apply Z.pow_pos_nonneg; lia.
Qed.

Lemma py_round_nd_mono (x y : Q) (nd : nat) :
  x <= y -> py_round_nd x nd <= py_round_nd y nd.
Proof.
  intros H. unfold py_round_nd.
  pose proof (pow10_pos nd) as Hp.
  apply Qle_shift_div_l; [exact Hp|].
  unfold Qdiv. rewrite <- Qmult_assoc, (Qmult_comm (/ _)), Qmult_inv_r, Qmult_1_r
    by (intro E; rewrite E in Hp; discriminate).
  rewrite <- Zle_Qle. apply round_half_even_mono.
  apply Qmult_le_compat_r; qlra.
Qed.

Lemma py_round_nd_exact (x : Q) (nd : nat) (k : Z) :
  x * inject_Z (10 ^ Z.of_nat nd) == inject_Z k -> py_round_nd x nd == x.
Proof.
  intros H. unfold py_round_nd.
  rewrite (round_half_even_Qeq _ _ H), round_half_even_Z, <- H.
  pose proof (pow10_pos nd) as Hp.
  field. intro E. rewrite E in Hp. discriminate.
Qed.

Lemma py_round_mono (x y : Q) : x <= y -> (py_round x <= py_round y)%Z.
Proof. apply round_half_even_mono. Qed.

Lemma py_round_nonneg (x : Q) : 0 <= x -> (0 <= py_round x)%Z.
Proof.
  intros H. rewrite <- (round_half_even_Z 0). apply round_half_even_mono. exact H.
Qed.

Lemma Qdiv_nonneg (a b : Q) : 0 <= a -> 0 < b -> 0 <= a / b.
Proof. intros Ha Hb. apply Qle_shift_div_l; [exact Hb|]. qlra. Qed.

Lemma Qdiv_le_one (a b : Q) : a <= b -> 0 < b -> a / b <= 1.
Proof. intros Ha Hb. apply Qle_shift_div_r; [exact Hb|]. qlra. Qed.

Lemma Qdiv_pos (a b : Q) : 0 < a -> 0 < b -> 0 < a / b.
Proof. intros Ha Hb. apply Qlt_shift_div_l; [exact Hb|]. qlra. Qed.

Ltac qminmax :=
  repeat match goal with
  | |- context [Qmax ?a ?b] =>
      let m := fresh "m" in
      assert ((a < b /\ Qmax a b == b) \/ (b <= a /\ Qmax a b == a))
        by apply Q.max_spec;
      set (m := Qmax a b) in *; clearbody m
  | |- context [Qmin ?a ?b] =>
      let m := fresh "m" in
      assert ((a < b /\ Qmin a b == a) \/ (b <= a /\ Qmin a b == b))
        by apply Q.min_spec;
      set (m := Qmin a b) in *; clearbody m
  | H : context [Qmax ?a ?b] |- _ =>
      let m := fresh "m" in
      assert ((a < b /\ Qmax a b == b) \/ (b <= a /\ Qmax a b == a))
        by apply Q.max_spec;
      set (m := Qmax a b) in *; clearbody m
  | H : context [Qmin ?a ?b] |- _ =>
      let m := fresh "m" in
      assert ((a < b /\ Qmin a b == a) \/ (b <= a /\ Qmin a b == b))
        by apply Q.min_spec;
      set (m := Qmin a b) in *; clearbody m
  end;
  repeat match goal with H : _ \/ _ |- _ => destruct H end;
  repeat match goal with H : _ /\ _ |- _ => destruct H end.

Ltac qdec := first [ apply Qle_bool_iff; vm_compute; reflexivity
                   | apply Qeq_bool_iff; vm_compute; reflexivity
                   | unfold Qlt; vm_compute; reflexivity ].

Section ScorerBounds.
Import Scorer.

Lemma population_score_bounds (d o s : Q) :
  _calculate_population_score d o = Some s -> 0 <= s <= 100.
Proof.
  unfold _calculate_population_score. break; try qlra.
  assert (0 < o) by qlra.
  pose proof (Qdiv_nonneg d o ltac:(qlra) ltac:(assumption)).
  pose proof (Qdiv_le_one d o ltac:(qlra) ltac:(assumption)).
  set (g := d / o) in *; clearbody g. qlra.
Qed.

Lemma income_score_bounds (m tmin tmax s : Q) :
  0 < tmin -> 0 < tmax ->
  _calculate_income_score m tmin tmax = Some s -> 0 <= s <= 100.
Proof.
  intros Hmin Hmax. unfold _calculate_income_score, Qltb. break.
  - pose proof (Qdiv_nonneg (tmin - m) tmin ltac:(qlra) Hmin).
    set (g := (tmin - m) / tmin) in *; clearbody g. qminmax; qlra.
  - pose proof (Qdiv_nonneg (m - tmax) tmax ltac:(qlra) Hmax).
    set (g := (m - tmax) / tmax) in *; clearbody g. qminmax; qlra.
  - set (md := (tmax - tmin) / 2) in *.
    assert (Hmd : md == (tmax - tmin) * (1 # 2)) by reflexivity.
    assert (0 < md) by qlra.
    assert (Habs : Qabs (m - (tmin + tmax) / 2) <= md).
    { apply Qabs_Qle_condition.
      assert (Hh : (tmin + tmax) / 2 == (tmin + tmax) * (1 # 2)) by reflexivity.
      rewrite Hh. split; qlra. }
    pose proof (Qdiv_nonneg _ md (Qabs_nonneg (m - (tmin + tmax) / 2)) ltac:(assumption)).
    pose proof (Qdiv_le_one _ md Habs ltac:(assumption)).
    set (g := Qabs (m - (tmin + tmax) / 2) / md) in *; clearbody g.
    qminmax; qlra.
Qed.

Lemma competition_score_bounds (c t s : Q) :
  _calculate_competition_score c t = Some s -> 0 <= s <= 100.
Proof.
  unfold _calculate_competition_score, Qltb. break; try qlra.
  set (g := c / t) in *; clearbody g. qminmax; qlra.
Qed.

Lemma walkability_score_bounds (p : Q) :
  0 <= _calculate_walkability_score p <= 100.
Proof.
  unfold _calculate_walkability_score. destr_qbool; try qlra. qminmax; qlra.
Qed.

Lemma access_score_bounds (mt tr : option Q) :
  50 <= _calculate_access_score mt tr <= 100.
Proof.
  unfold _calculate_access_score.
  assert (0 <= metro_bonus mt <= 40).
  { unfold metro_bonus. destruct mt; [destr_qbool|]; qlra. }
  assert (0 <= tram_bonus tr <= 10).
  { unfold tram_bonus. destruct tr; [destr_qbool|]; qlra. }
  qminmax; qlra.
Qed.

Lemma weighted_le (w x : Q) : 0 <= w -> 0 <= x <= 100 -> 0 <= w * x <= w * 100.
Proof.
  intros Hw [H0 H1]. split.
  - apply Qmult_le_0_compat; assumption.
  - rewrite (Qmult_comm w x), (Qmult_comm w 100). apply Qmult_le_compat_r; assumption.
Qed.

Lemma overall_bounds (w : weights) (p i a c k : Q) :
  0 <= w_population w -> 0 <= w_income w -> 0 <= w_access w ->
  0 <= w_competition w -> 0 <= w_walkability w ->
  0 <= p <= 100 -> 0 <= i <= 100 -> 0 <= a <= 100 -> 0 <= c <= 100 ->
  0 <= k <= 100 ->
  0 <= overall w p i a c k <= 100 * total_weight w.
Proof.
  intros H1 H2 H3 H4 H5 Hp Hi Ha Hc Hk. unfold overall, total_weight.
  pose proof (weighted_le _ _ H1 Hp). pose proof (weighted_le _ _ H2 Hi).
  pose proof (weighted_le _ _ H3 Ha). pose proof (weighted_le _ _ H4 Hc).
  pose proof (weighted_le _ _ H5 Hk).
  set (wp := w_population w) in *; set (wi := w_income w) in *;
  set (wa := w_access w) in *; set (wc := w_competition w) in *;
  set (wk := w_walkability w) in *.
  set (xp := wp * p) in *; set (xi := wi * i) in *; set (xa := wa * a) in *;
  set (xc := wc * c) in *; set (xk := wk * k) in *.
  qlra.
Qed.

Lemma confidence_exact (f : features) :
  py_round_nd (_calculate_confidence f) 2 == _calculate_confidence f /\
  0.6 <= _calculate_confidence f <= 1.
Proof.
  unfold _calculate_confidence.
  destruct (is_not_none (population_density f)), (is_not_none (median_income f)),
    (is_not_none (competitors_count f)), (is_not_none (nearest_metro_distance_m f));
    repeat split; qdec.
Qed.

Lemma concept_create_valid_spec (cfg : concept_config) :
  concept_create_valid cfg = true ->
  let w := cfg_weights cfg in
  0 <= w_population w <= 1 /\ 0 <= w_income w <= 1 /\ 0 <= w_access w <= 1 /\
  0 <= w_competition w <= 1 /\ 0 <= w_walkability w <= 1 /\
  0.95 <= total_weight w <= 1.05 /\
  0 < base_revenue_eur cfg /\ 0 < target_income_min cfg /\
  0 < target_income_max cfg /\ 0 < optimal_population_density cfg /\
  0 < target_competitors_per_1k cfg.
Proof.
  unfold concept_create_valid, unit_interval, Qltb. intros H.
  repeat match type of H with
         | _ && _ = true => apply andb_true_iff in H; destruct H as [H ?]
         end.
  qbool. simpl. repeat split; assumption.
Qed.

Lemma calculate_score_inv (f : features) (cfg : concept_config) (r : score_result) :
  calculate_score f cfg = Some r ->
  exists density income comp poi ps is cs rev,
    _calculate_population_score density (optimal_population_density cfg) = Some ps /\
    _calculate_income_score income (target_income_min cfg) (target_income_max cfg)
      = Some is /\
    _calculate_competition_score comp (target_competitors_per_1k cfg) = Some cs /\
    _calculate_revenue (base_revenue_eur cfg) density income comp cfg = Some rev /\
    score r = py_round_nd (overall (cfg_weights cfg) ps is
                (_calculate_access_score (get (nearest_metro_distance_m f))
                   (get (nearest_tram_distance_m f)))
                cs (_calculate_walkability_score poi)) 1 /\
    revenue_low r = py_round (rev * (1 - band_percent (_calculate_confidence f))) /\
    revenue_mid r = py_round rev /\
    revenue_high r = py_round (rev * (1 + band_percent (_calculate_confidence f))) /\
    confidence r = py_round_nd (_calculate_confidence f) 2.
Proof.
  unfold calculate_score, revenue_band. break.
  do 8 eexists. repeat split; eassumption || reflexivity.
Qed.

Lemma revenue_floor (base d i c : Q) (cfg : concept_config) (rev : Q) :
  _calculate_revenue base d i c cfg = Some rev -> base * 0.5 <= rev.
Proof.
  unfold _calculate_revenue. break. apply Q.le_max_r.
Qed.

Lemma band_percent_bounds (f : features) :
  0.15 <= band_percent (_calculate_confidence f) <= 0.21.
Proof.
  destruct (confidence_exact f) as [_ Hc]. unfold band_percent. qlra.
Qed.

Lemma py_round_nd_0_bound (x : Q) (nd : nat) : 0 <= x -> 0 <= py_round_nd x nd.
Proof.
  intros H. pose proof (py_round_nd_mono 0 x nd H).
  pose proof (py_round_nd_exact 0 nd 0 ltac:(reflexivity)). qlra.
Qed.

(** C2 helper: a non-negative mid value gives an ordered band. *)
Lemma band_ordered (mid b : Q) :
  0 <= mid -> 0 <= b ->
  (py_round (mid * (1 - b)) <= py_round mid <= py_round (mid * (1 + b)))%Z.
Proof.
  intros Hm Hb. split; apply py_round_mono.
  - rewrite Qmult_comm. rewrite <- (Qmult_1_l mid) at 2.
    apply Qmult_le_compat_r; qlra.
  - rewrite Qmult_comm. rewrite <- (Qmult_1_l mid) at 1.
    apply Qmult_le_compat_r; qlra.
Qed.

Ltac cases_if :=
  repeat (cbv beta iota zeta;
    match goal with
    | |- context [if ?b then _ else _] => let E := fresh "E" in destruct b eqn:E
    end); qbool.

Lemma income_score_total (m tmin tmax : Q) :
  0 < tmin -> tmin < tmax -> exists s, _calculate_income_score m tmin tmax = Some s.
Proof.
  intros Hmin Hmax. unfold _calculate_income_score, Qltb, pydiv.
  assert (Hmd : (tmax - tmin) / 2 == (tmax - tmin) * (1 # 2)) by reflexivity.
  cases_if; eauto; exfalso; qlra.
Qed.

Lemma income_score_cases (m tmin tmax s : Q) :
  0 < tmin -> tmin < tmax ->
  _calculate_income_score m tmin tmax = Some s ->
  (m < tmin -> s == Qmax (50 - (tmin - m) / tmin * 100) 0 /\ 0 <= s < 50 /\
     (m <= tmin / 2 -> s == 0)) /\
  (tmax < m -> s == 75 - Qmin ((m - tmax) / tmax * 50) 25 /\ 50 <= s < 75) /\
  (tmin <= m <= tmax -> 85 <= s <= 100 /\
     (m == (tmin + tmax) / 2 -> s == 100) /\
     (~ m == (tmin + tmax) / 2 -> s < 100)).
Proof.
  intros Hmin Hmax. unfold _calculate_income_score, Qltb. break.
  - pose proof (Qdiv_pos (tmin - m) tmin ltac:(qlra) Hmin) as Hg.
    assert (Hh : m <= tmin / 2 -> 1 # 2 <= (tmin - m) / tmin).
    { intros Hm. apply Qle_shift_div_l; [exact Hmin|].
      assert (tmin / 2 == tmin * (1 # 2)) by reflexivity. qlra. }
    set (g := (tmin - m) / tmin) in *; clearbody g.
    repeat split; intros; try (exfalso; qlra);
      try (specialize (Hh ltac:(assumption))); qminmax; qlra.
  - pose proof (Qdiv_pos (m - tmax) tmax ltac:(qlra) ltac:(qlra)) as Hg.
    set (g := (m - tmax) / tmax) in *; clearbody g.
    repeat split; intros; try (exfalso; qlra); qminmax; qlra.
  - set (mid := (tmin + tmax) / 2) in *.
    assert (Hmid : mid == (tmin + tmax) * (1 # 2)) by reflexivity.
    set (md := (tmax - tmin) / 2) in *.
    assert (Hmd : md == (tmax - tmin) * (1 # 2)) by reflexivity.
    assert (0 < md) by qlra.
    assert (Habs : Qabs (m - mid) <= md).
    { apply Qabs_Qle_condition. split; qlra. }
    pose proof (Qdiv_nonneg _ md (Qabs_nonneg (m - mid)) ltac:(assumption)).
    pose proof (Qdiv_le_one _ md Habs ltac:(assumption)).
    assert (Hz : m == mid -> Qabs (m - mid) / md == 0).
    { intros Hm. assert (Hx : m - mid == 0) by qlra. rewrite Hx. reflexivity. }
    assert (Hp : ~ m == mid -> 0 < Qabs (m - mid) / md).
    { intros Hm. apply Qdiv_pos; [|assumption].
      destruct (Qlt_le_dec 0 (m - mid)) as [Hl|Hl].
      - rewrite Qabs_pos by qlra. exact Hl.
      - rewrite Qabs_neg by exact Hl.
        destruct (Qle_lt_or_eq _ _ Hl) as [Hl'|Hl']; [qlra|].
        exfalso. apply Hm. qlra. }
    set (g := Qabs (m - mid) / md) in *; clearbody g.
    repeat split; intros; try (exfalso; qlra);
      try (specialize (Hz ltac:(assumption)));
      try (specialize (Hp ltac:(assumption))); qminmax; qlra.
Qed.

Lemma competition_score_total (c t : Q) :
  ~ t == 0 -> exists s, _calculate_competition_score c t = Some s.
Proof.
  intros Ht. unfold _calculate_competition_score, Qltb, pydiv.
  cases_if; eauto; contradiction.
Qed.

Lemma competition_score_cases (c t s : Q) :
  ~ t == 0 ->
  _calculate_competition_score c t = Some s ->
  (c / t == 0 -> s == 40) /\
  (0.8 <= c / t <= 1.2 -> s == 100) /\
  (0.5 <= c / t < 0.8 -> s == 85) /\
  (1.2 < c / t <= 1.5 -> s == 75) /\
  (1.5 < c / t -> exists penalty, 0 <= penalty <= 50 /\ s == Qmax (50 - penalty) 20) /\
  (c / t < 0.5 -> ~ c / t == 0 -> s == 60) /\
  (c / t == 3 -> 20 <= s <= 50).
Proof.
  intros Ht.
  assert (H0 : c == 0 -> c / t == 0).
  { intros Hc. rewrite Hc. reflexivity. }
  assert (H1 : ~ c == 0 -> ~ c / t == 0).
  { intros Hc E. apply Hc. rewrite <- (Qmult_div_r c t Ht), E. ring. }
  unfold _calculate_competition_score, Qltb. break;
  repeat match goal with
  | H : _ && _ = false |- _ => apply andb_false_iff in H; destruct H
  end; qbool;
  first [ pose proof (H0 ltac:(assumption)) | pose proof (H1 ltac:(assumption)) ];
  clear H0 H1;
  set (r := c / t) in *; clearbody r;
  repeat split; intros;
  repeat match goal with H : _ /\ _ |- _ => destruct H end;
  try contradiction; try (exfalso; qlra);
  try (eexists; split; [|reflexivity]); repeat split; qminmax; qlra.
Qed.

End ScorerBounds.

Module ScorerClaims.
Import Scorer.

(** ** C1 *)

(** For a configuration accepted by [create_concept]'s validation (weights
    in [0,1] summing to 0.95..1.05, positive targets), whenever
    [calculate_score] returns, [0 <= score <= 105] (the weighted sum is at
    most 100 times the weight total) and [0.6 <= confidence <= 1]. *)
Lemma calculate_score_bounds (f : features) (cfg : concept_config)
  (r : score_result) :
  concept_create_valid cfg = true ->
  calculate_score f cfg = Some r ->
  0 <= score r <= 105 /\ 0.6 <= confidence r <= 1.
Proof.
  intros Hv Hs.
  destruct (concept_create_valid_spec cfg Hv)
    as (Hw1 & Hw2 & Hw3 & Hw4 & Hw5 & Htot & _ & Hmin & Hmax & _ & _).
  destruct (calculate_score_inv f cfg r Hs)
    as (density & income & comp & poi & ps & is & cs & rev &
        Hps & His & Hcs & _ & Hscore & _ & _ & _ & Hconf).
  pose proof (population_score_bounds _ _ _ Hps).
  pose proof (income_score_bounds _ _ _ _ Hmin Hmax His).
  pose proof (competition_score_bounds _ _ _ Hcs).
  pose proof (walkability_score_bounds poi).
  pose proof (access_score_bounds (get (nearest_metro_distance_m f))
                (get (nearest_tram_distance_m f))).
  pose proof (overall_bounds (cfg_weights cfg) ps is
    (_calculate_access_score (get (nearest_metro_distance_m f))
       (get (nearest_tram_distance_m f)))
    cs (_calculate_walkability_score poi)
    ltac:(tauto) ltac:(tauto) ltac:(tauto) ltac:(tauto) ltac:(tauto)
    ltac:(assumption) ltac:(assumption) ltac:(split; qlra) ltac:(assumption)
    ltac:(assumption)) as Hov.
  set (ov := overall _ _ _ _ _ _) in *.
  split.
  - rewrite Hscore.
    pose proof (py_round_nd_mono 0 ov 1 ltac:(qlra)).
    pose proof (py_round_nd_mono ov 105 1 ltac:(qlra)).
    pose proof (py_round_nd_exact 0 1 0 ltac:(reflexivity)).
    pose proof (py_round_nd_exact 105 1 1050 ltac:(reflexivity)).
    qlra.
  - rewrite Hconf. destruct (confidence_exact f) as [E B]. qlra.
Qed.

(** C1 (code bug): [calculate_score]'s score is not bounded by 100. For
    every configuration [create_concept] accepts it lies in [0, 105] with
    [0.6 <= confidence <= 1]; but the weighted sum is not normalised, and an
    accepted configuration (every weight 0.21, total 1.05) with a site
    scoring 100 on every factor gives a score above 100, which the
    [score] fields declared [Field(ge=0, le=100)] reject. *)
Theorem calculate_score_exceeds_100 :
  (forall (f : features) (cfg : concept_config) (r : score_result),
     concept_create_valid cfg = true ->
     calculate_score f cfg = Some r ->
     0 <= score r <= 105 /\ 0.6 <= confidence r <= 1) /\
  concept_create_valid
    (mkConfig 100000 40000 60000 5000 2 (mkWeights 0.21 0.21 0.21 0.21 0.21)) = true /\
  exists r,
    calculate_score
      (mkFeatures (Num 6000) (Num 50000) (Num 150) (Num 80) (Num 2) (Num 10) (Num 120))
      (mkConfig 100000 40000 60000 5000 2 (mkWeights 0.21 0.21 0.21 0.21 0.21))
    = Some r /\ score r == 105 /\ score_field_valid (score r) = false.
Proof.
  split; [exact calculate_score_bounds|].
  split; [reflexivity|]. eexists. split; [reflexivity|]. split; [reflexivity|reflexivity].
Qed.

(** ** C2 *)

(** C2: with a non-negative base revenue, [calculate_score] computes the
    band half-width [band_percent conf = 0.15 + 0.15 * (1 - conf)] from the
    confidence [conf] it returns (rounding to two decimals leaves it
    unchanged), the half-width lies in [0.15, 0.30] (in fact at most 0.21),
    low and high are [mid * (1 - b)] and [mid * (1 + b)] before Python's
    [round], equally far from [mid], and [revenue_low <= revenue_mid <=
    revenue_high]. *)
Theorem revenue_band_symmetric (f : features) (cfg : concept_config)
  (r : score_result) :
  0 <= base_revenue_eur cfg ->
  calculate_score f cfg = Some r ->
  exists mid conf,
    0 <= mid /\ confidence r == conf /\
    band_percent conf = 0.15 + 0.15 * (1 - conf) /\
    0.15 <= band_percent conf <= 0.30 /\
    revenue_mid r = py_round mid /\
    revenue_low r = py_round (mid * (1 - band_percent conf)) /\
    revenue_high r = py_round (mid * (1 + band_percent conf)) /\
    mid * (1 + band_percent conf) - mid == mid - mid * (1 - band_percent conf) /\
    (revenue_low r <= revenue_mid r <= revenue_high r)%Z.
Proof.
  intros Hb Hs.
  destruct (calculate_score_inv f cfg r Hs)
    as (density & income & comp & poi & ps & is & cs & rev &
        _ & _ & _ & Hrev & _ & Hlow & Hmid & Hhigh & Hconf).
  pose proof (revenue_floor _ _ _ _ _ _ Hrev) as Hfl.
  pose proof (band_percent_bounds f) as Hbp.
  exists rev, (_calculate_confidence f).
  assert (0 <= rev) by qlra.
  repeat split; try assumption; try qlra.
  - rewrite Hconf. apply (proj1 (confidence_exact f)).
  - rewrite Hlow, Hmid. apply band_ordered; qlra.
  - rewrite Hmid, Hhigh. apply band_ordered; qlra.
Qed.

(** Witness of C2. *)
Lemma revenue_band_symmetric_witness :
  exists r,
    calculate_score
      (mkFeatures (Num 3000) Absent Absent (Num 80) (Num 3) Absent (Num 30))
      (mkConfig 100000 40000 60000 5000 2 (mkWeights 0.3 0.2 0.2 0.2 0.1)) = Some r /\
    exists mid conf,
      0 <= mid /\ confidence r == conf /\
      band_percent conf = 0.15 + 0.15 * (1 - conf) /\
      0.15 <= band_percent conf <= 0.30 /\
      revenue_mid r = py_round mid /\
      revenue_low r = py_round (mid * (1 - band_percent conf)) /\
      revenue_high r = py_round (mid * (1 + band_percent conf)) /\
      mid * (1 + band_percent conf) - mid == mid - mid * (1 - band_percent conf) /\
      (revenue_low r <= revenue_mid r <= revenue_high r)%Z.
Proof.
  eexists. split; [reflexivity|].
  apply (revenue_band_symmetric
      (mkFeatures (Num 3000) Absent Absent (Num 80) (Num 3) Absent (Num 30))
      (mkConfig 100000 40000 60000 5000 2 (mkWeights 0.3 0.2 0.2 0.2 0.1)));
    [qdec | reflexivity].
Defined.

(** ** C3 *)

(** C3 (counterexample): with target range [40000, 60000] a median income
    of 20000 lies only half of [target_min] below the range, yet the income
    score is already 0 (the penalty slope is [100 / target_min] and it is
    capped at 50, so 0 is reached at a gap of [target_min / 2]); a linear
    penalty that reached 0 only as the gap approaches [target_min] would
    give 25 here. *)
Lemma income_score_zero_at_half_gap :
  exists s, _calculate_income_score 20000 40000 60000 = Some s /\
    s == 0 /\ 40000 - 20000 == 40000 / 2.
Proof. eexists. split; [reflexivity|]. split; qdec. Qed.

(** C3 (amended): for [0 < target_min < target_max] the income score is
    defined and: below [target_min] it is [max(50 - 100 * gap / target_min, 0)],
    lies in [0, 50) and is 0 once the gap reaches [target_min / 2]; above
    [target_max] it is [75 - min(50 * gap / target_max, 25)], so the penalty
    is at most 25 and the score lies in [50, 75); within the range it lies in
    [85, 100], equals 100 at the midpoint and is below 100 elsewhere. *)
Theorem income_score_shape (m tmin tmax : Q) :
  0 < tmin -> tmin < tmax ->
  exists s, _calculate_income_score m tmin tmax = Some s /\
  (m < tmin -> s == Qmax (50 - (tmin - m) / tmin * 100) 0 /\ 0 <= s < 50 /\
     (m <= tmin / 2 -> s == 0)) /\
  (tmax < m -> s == 75 - Qmin ((m - tmax) / tmax * 50) 25 /\ 50 <= s < 75) /\
  (tmin <= m <= tmax -> 85 <= s <= 100 /\
     (m == (tmin + tmax) / 2 -> s == 100) /\
     (~ m == (tmin + tmax) / 2 -> s < 100)).
Proof.
  intros Hmin Hmax.
  destruct (income_score_total m tmin tmax Hmin Hmax) as [s Hs].
  exists s. split; [exact Hs|].
  exact (income_score_cases m tmin tmax s Hmin Hmax Hs).
Qed.

(** Witness of C3 (amended). *)
Lemma income_score_shape_witness :
  0 < 40000 /\ 40000 < 60000 /\
  exists s, _calculate_income_score 50000 40000 60000 = Some s /\
  (50000 < 40000 -> s == Qmax (50 - (40000 - 50000) / 40000 * 100) 0 /\ 0 <= s < 50 /\
     (50000 <= 40000 / 2 -> s == 0)) /\
  (60000 < 50000 -> s == 75 - Qmin ((50000 - 60000) / 60000 * 50) 25 /\ 50 <= s < 75) /\
  (40000 <= 50000 <= 60000 -> 85 <= s <= 100 /\
     (50000 == (40000 + 60000) / 2 -> s == 100) /\
     (~ 50000 == (40000 + 60000) / 2 -> s < 100)).
Proof.
  split; [qdec|]. split; [qdec|].
  apply income_score_shape; qdec.
Defined.

(** ** C4 *)

(** C4: for a nonzero target the competition score is defined and is the
    piecewise function of [ratio = competitors_per_1k / target]: 40 at ratio
    0, 100 on [0.8, 1.2], 85 on [0.5, 0.8), 75 on (1.2, 1.5],
    [max(50 - penalty, 20)] with a penalty in [0, 50] above 1.5, 60 for any
    other nonzero ratio below 0.5; at ratio 3.0 it lies in [20, 50]. *)
Theorem competition_score_piecewise (c t : Q) :
  ~ t == 0 ->
  exists s, _calculate_competition_score c t = Some s /\
  (c / t == 0 -> s == 40) /\
  (0.8 <= c / t <= 1.2 -> s == 100) /\
  (0.5 <= c / t < 0.8 -> s == 85) /\
  (1.2 < c / t <= 1.5 -> s == 75) /\
  (1.5 < c / t -> exists penalty, 0 <= penalty <= 50 /\ s == Qmax (50 - penalty) 20) /\
  (c / t < 0.5 -> ~ c / t == 0 -> s == 60) /\
  (c / t == 3 -> 20 <= s <= 50).
Proof.
  intros Ht.
  destruct (competition_score_total c t Ht) as [s Hs].
  exists s. split; [exact Hs|].
  exact (competition_score_cases c t s Ht Hs).
Qed.

(** Witness of C4: three competitors per 1000 residents against a target
    of 1, ratio 3.0. *)
Lemma competition_score_piecewise_witness :
  ~ 1 == 0 /\
  exists s, _calculate_competition_score 3 1 = Some s /\
  (3 / 1 == 0 -> s == 40) /\
  (0.8 <= 3 / 1 <= 1.2 -> s == 100) /\
  (0.5 <= 3 / 1 < 0.8 -> s == 85) /\
  (1.2 < 3 / 1 <= 1.5 -> s == 75) /\
  (1.5 < 3 / 1 -> exists penalty, 0 <= penalty <= 50 /\ s == Qmax (50 - penalty) 20) /\
  (3 / 1 < 0.5 -> ~ 3 / 1 == 0 -> s == 60) /\
  (3 / 1 == 3 -> 20 <= s <= 50).
Proof.
  split; [discriminate|].
  apply competition_score_piecewise. discriminate.
Defined.

End ScorerClaims.

(** ** Deduplication *)

Module DedupClaims.
Import Dedup.
Local Open Scope R_scope.

Lemma sin_half_sq (x y : R) :
  sin (radians (x - y) / 2) ^ 2 = sin (radians (y - x) / 2) ^ 2.
Proof.
  replace (radians (x - y) / 2) with (- (radians (y - x) / 2))
    by (unfold radians; field).
  rewrite sin_neg. ring.
Qed.

Lemma haversine_sym (lat1 lng1 lat2 lng2 : R) :
  _haversine_distance lat1 lng1 lat2 lng2 = _haversine_distance lat2 lng2 lat1 lng1.
Proof.
  unfold _haversine_distance. cbv beta zeta.
  rewrite (sin_half_sq lat2 lat1), (sin_half_sq lng2 lng1).
  rewrite (Rmult_comm (cos (radians lat1)) (cos (radians lat2))).
  reflexivity.
Qed.

Lemma dist_sym (c k : candidate) : dist c k = dist k c.
Proof. apply haversine_sym. Qed.

Lemma Forall_perm {A} (P : A -> Prop) (l l' : list A) :
  Permutation l l' -> Forall P l -> Forall P l'.
Proof.
  intros Hp H. apply Forall_forall. intros x Hx.
  rewrite Forall_forall in H. apply H. apply Permutation_in with l'; [|exact Hx].
  apply Permutation_sym, Hp.
Qed.

Lemma FOP_perm {A} (Rel : A -> A -> Prop) (l l' : list A) :
  (forall a b, Rel a b -> Rel b a) ->
  Permutation l l' -> ForallOrdPairs Rel l -> ForallOrdPairs Rel l'.
Proof.
  intros Hsym Hp. induction Hp; intros H.
  - exact H.
  - inversion H; subst. constructor; [|auto]. apply (Forall_perm _ l); assumption.
  - inversion H as [|? ? Hy H1]; subst. inversion H1 as [|? ? Hx H2]; subst.
    inversion Hy; subst.
    constructor; [constructor; [apply Hsym; assumption|assumption]|].
    constructor; assumption.
  - auto.
Qed.

Lemma FOP_app_single {A} (Rel : A -> A -> Prop) (l : list A) (x : A) :
  ForallOrdPairs Rel l -> Forall (fun y => Rel y x) l ->
  ForallOrdPairs Rel (app l [x]).
Proof.
  induction l as [|y l IH]; intros H Hx; simpl.
  - constructor; constructor.
  - inversion H; subst. inversion Hx; subst. constructor.
    + apply Forall_app. split; [assumption|]. constructor; [assumption|constructor].
    + apply IH; assumption.
Qed.

Lemma FOP_firstn {A} (Rel : A -> A -> Prop) (n : nat) (l : list A) :
  ForallOrdPairs Rel l -> ForallOrdPairs Rel (firstn n l).
Proof.
  revert l. induction n as [|n IH]; intros l H; [constructor|].
  destruct l as [|a l]; [constructor|]. simpl.
  inversion H; subst. constructor; [|auto].
  apply Forall_forall. intros y Hy. rewrite Forall_forall in *.
  match goal with Hf : forall x, In x l -> _ |- _ => apply Hf end.
  rewrite <- (firstn_skipn n l). apply in_or_app. left. exact Hy.
Qed.

Lemma too_close_false (c : candidate) (kept : list candidate) (m : R) :
  too_close c kept m = false -> Forall (fun k => m <= dist c k) kept.
Proof.
  induction kept as [|k ks IH]; simpl; intros H; [constructor|].
  destruct (Rlt_dec (dist c k) m); [discriminate|].
  constructor; [apply Rnot_lt_le; assumption|auto].
Qed.

Lemma too_close_true (c : candidate) (kept : list candidate) (m : R) :
  too_close c kept m = true -> exists k, In k kept /\ dist c k < m.
Proof.
  induction kept as [|k ks IH]; simpl; intros H; [discriminate|].
  destruct (Rlt_dec (dist c k) m).
  - exists k. auto.
  - destruct (IH H) as [k' [Hi Hd]]. exists k'. auto.
Qed.

Lemma dedup_loop_separated (kept l : list candidate) (m : R) :
  ForallOrdPairs (separated m) kept ->
  ForallOrdPairs (separated m) (dedup_loop kept l m).
Proof.
  revert kept. induction l as [|c cs IH]; intros kept H; simpl; [exact H|].
  destruct (too_close c kept m) eqn:E; apply IH; [exact H|].
  apply FOP_app_single; [exact H|].
  apply too_close_false in E.
  apply Forall_forall. intros k Hk. rewrite Forall_forall in E.
  specialize (E k Hk). split; [rewrite dist_sym|]; exact E.
Qed.

Lemma dedup_loop_incl (kept l : list candidate) (m : R) :
  incl kept (dedup_loop kept l m).
Proof.
  revert kept. induction l as [|c cs IH]; intros kept; simpl; [apply incl_refl|].
  destruct (too_close c kept m); [apply IH|].
  eapply incl_tran; [|apply IH]. apply incl_appl, incl_refl.
Qed.

Lemma insert_desc_perm (x : candidate) (l : list candidate) :
  Permutation (insert_desc x l) (x :: l).
Proof.
  induction l as [|y l IH]; simpl; [constructor; constructor|].
  destruct (Rlt_dec (cand_score y) (cand_score x)); [apply Permutation_refl|].
  destruct (Rlt_dec (cand_score x) (cand_score y)); [|apply Permutation_refl].
  eapply perm_trans; [apply perm_skip, IH|]. apply perm_swap.
Qed.

Lemma sort_desc_perm (l : list candidate) : Permutation (sort_desc l) l.
Proof.
  induction l as [|x l IH]; simpl; [constructor|].
  eapply perm_trans; [apply insert_desc_perm|]. apply perm_skip, IH.
Qed.

Lemma insert_desc_sorted (x : candidate) (l : list candidate) :
  StronglySorted desc l -> StronglySorted desc (insert_desc x l).
Proof.
  induction l as [|y l IH]; intros H; simpl.
  - constructor; constructor.
  - inversion H as [|? ? Hl Hy]; subst.
    assert (Hx : forall z, desc y z -> desc x y -> desc x z).
    { unfold desc. intros z H1 H2. eapply Rle_trans; eassumption. }
    destruct (Rlt_dec (cand_score y) (cand_score x)) as [Hlt|Hlt].
    + constructor; [exact H|]. constructor; [unfold desc; rlra|].
      eapply Forall_impl; [|exact Hy]. intros z Hz. apply Hx; [exact Hz|unfold desc; rlra].
    + destruct (Rlt_dec (cand_score x) (cand_score y)) as [Hlt'|Hlt'].
      * constructor; [apply IH, Hl|].
        apply (Forall_perm _ (x :: l)); [apply Permutation_sym, insert_desc_perm|].
        constructor; [unfold desc; rlra|exact Hy].
      * constructor; [exact H|]. constructor; [unfold desc; rlra|].
        eapply Forall_impl; [|exact Hy]. intros z Hz. apply Hx; [exact Hz|unfold desc; rlra].
Qed.

Lemma sort_desc_sorted (l : list candidate) : StronglySorted desc (sort_desc l).
Proof.
  induction l as [|x l IH]; simpl; [constructor|]. apply insert_desc_sorted, IH.
Qed.

Lemma dedup_loop_dominated (kept l : list candidate) (m : R) :
  StronglySorted desc l ->
  (forall k x, In k kept -> In x l -> cand_score x <= cand_score k) ->
  forall c, In c l ->
  In c (dedup_loop kept l m) \/
  exists k, In k (dedup_loop kept l m) /\ dist c k < m /\ cand_score c <= cand_score k.
Proof.
  revert kept. induction l as [|c0 cs IH]; intros kept Hs Hk c Hc; [destruct Hc|].
  inversion Hs as [|? ? Hs' Hc0]; subst. rewrite Forall_forall in Hc0.
  simpl. destruct (too_close c0 kept m) eqn:E.
  - destruct Hc as [Hc|Hc].
    + subst c0. right. destruct (too_close_true _ _ _ E) as [k [Hi Hd]].
      exists k. split; [apply dedup_loop_incl, Hi|]. split; [exact Hd|].
      apply Hk; [exact Hi|left; reflexivity].
    + apply IH; [exact Hs'| |exact Hc].
      intros k x Hi Hx. apply Hk; [exact Hi|right; exact Hx].
  - destruct Hc as [Hc|Hc].
    + subst c0. left. apply dedup_loop_incl. apply in_or_app. right. left. reflexivity.
    + apply IH; [exact Hs'| |exact Hc].
      intros k x Hi Hx. apply in_app_or in Hi. destruct Hi as [Hi|[Hi|[]]].
      * apply Hk; [exact Hi|right; exact Hx].
      * subst k. apply (Hc0 x Hx).
Qed.

Lemma add_ranks_Forall (P : R -> R -> Prop) (c : candidate) (i : nat) (l : list candidate) :
  Forall (fun b => P (lat b) (lng b)) l ->
  Forall (fun b => P (lat b) (lng b)) (add_ranks i l).
Proof.
  revert i. induction l as [|b l IH]; intros i H; simpl; [constructor|].
  inversion H; subst. constructor; [assumption|auto].
Qed.

Lemma add_ranks_separated (m : R) (i : nat) (l : list candidate) :
  ForallOrdPairs (separated m) l -> ForallOrdPairs (separated m) (add_ranks i l).
Proof.
  revert i. induction l as [|a l IH]; intros i H; simpl; [constructor|].
  inversion H as [|? ? Ha Hl]; subst. constructor; [|auto].
  set (a' := mkCandidate (address a) (lat a) (lng a) (cand_score a) (Some i)).
  assert (Hsep : forall b, separated m a b <-> separated m a' b) by (intros; reflexivity).
  pose proof (add_ranks_Forall
      (fun la lo => separated m a (mkCandidate EmptyString la lo 0 None)) a (S i) l) as HF.
  simpl in HF. unfold separated, dist in HF |- *. simpl in HF |- *.
  apply HF. eapply Forall_impl; [|exact Ha]. intros b Hb. exact Hb.
Qed.

Lemma py_prefix_separated (m : R) (l : list candidate) (limit : Z) :
  ForallOrdPairs (separated m) l -> ForallOrdPairs (separated m) (py_prefix l limit).
Proof. intros H. unfold py_prefix. destruct (0 <=? limit)%Z; apply FOP_firstn, H. Qed.

(** C5: the candidates returned by [generate_candidates] are pairwise at
    least 80 m apart under the haversine distance (Earth radius 6371000 m),
    in both directions of the distance; and every input candidate that
    deduplication does not keep is within the minimum distance of a kept
    candidate whose score is at least its own (candidates are kept greedily
    in descending score order). *)
Theorem generate_candidates_separated (top_areas_empty : bool)
  (all_candidates : list candidate) (limit : Z) :
  ForallOrdPairs (fun a b => 80 <= dist a b /\ 80 <= dist b a)
    (generate_candidates_from top_areas_empty all_candidates limit) /\
  (forall c, In c all_candidates ->
     ~ In c (_deduplicate_by_distance all_candidates 80) ->
     exists k, In k (_deduplicate_by_distance all_candidates 80) /\
       dist c k < 80 /\ cand_score c <= cand_score k).
Proof.
  split.
  - unfold generate_candidates_from. destruct top_areas_empty; [constructor|].
    change (ForallOrdPairs (separated 80)
      (add_ranks 1 (py_prefix (sort_desc (_deduplicate_by_distance all_candidates 80)) limit))).
    apply add_ranks_separated, py_prefix_separated.
    apply (FOP_perm _ (_deduplicate_by_distance all_candidates 80)).
    + unfold separated. intros a b [H1 H2]. split; assumption.
    + apply Permutation_sym, sort_desc_perm.
    + unfold _deduplicate_by_distance. destruct all_candidates; [constructor|].
      apply dedup_loop_separated. constructor.
  - intros c Hc Hn. unfold _deduplicate_by_distance in *.
    destruct all_candidates as [|c0 cs]; [destruct Hc|].
    destruct (dedup_loop_dominated [] (sort_desc (c0 :: cs)) 80
      (sort_desc_sorted _) ltac:(intros k x [])
      c (Permutation_in _ (Permutation_sym (sort_desc_perm _)) Hc))
      as [Hi|Hk]; [contradiction|exact Hk].
Qed.

End DedupClaims.

(** ** Synthetic address fallback *)

Module MockAddressClaims.
Import MockAddress.
Local Open Scope string_scope.

Lemma py_int_comp (x y : Q) : x == y -> py_int x = py_int y.
Proof.
  intros H. unfold py_int.
  destruct (Qle_bool 0 x) eqn:Ex, (Qle_bool 0 y) eqn:Ey; qbool;
    try (exfalso; qlra).
  - apply Qfloor_comp. exact H.
  - f_equal. apply Qfloor_comp. rewrite H. reflexivity.
Qed.

(** C6: [_generate_mock_address] is a function of the coordinate values
    alone: two calls with equal coordinates, on any two generator objects
    (whatever services they hold), return the same address string. *)
Theorem mock_address_deterministic (g1 g2 : address_generator)
  (lat lng lat' lng' : Q) :
  lat == lat' -> lng == lng' ->
  _generate_mock_address g1 lat lng = _generate_mock_address g2 lat' lng'.
Proof.
  intros Hlat Hlng. unfold _generate_mock_address.
  rewrite (py_int_comp ((lat + lng) * 1000) ((lat' + lng') * 1000))
    by (rewrite Hlat, Hlng; reflexivity).
  rewrite (py_int_comp (Qabs (lat - 60.1) * 1000) (Qabs (lat' - 60.1) * 1000))
    by (rewrite Hlat; reflexivity).
  rewrite (py_int_comp (lng * 1000) (lng' * 1000)) by (rewrite Hlng; reflexivity).
  reflexivity.
Qed.

(** Witness of C6: the point (60.17, 24.94) given once as decimals and once
    as fractions, to two generators with different services. *)
Lemma mock_address_deterministic_witness :
  6017 # 100 == 60170 # 1000 /\ 2494 # 100 == 1247 # 50 /\
  _generate_mock_address (mkGenerator "a" "b" "c" None) (6017 # 100) (2494 # 100)
  = _generate_mock_address (mkGenerator "x" "y" "z" (Some "o")) (60170 # 1000) (1247 # 50).
Proof.
  split; [reflexivity|]. split; [reflexivity|].
  apply mock_address_deterministic; reflexivity.
Defined.

End MockAddressClaims.

(** ** Outcome learning *)

Module LearnerClaims.
Import Learner LearnerData.
Local Open Scope string_scope.

Lemma find_concept_set_outcomes (d : db) (os : list training_outcome) (cid : string) :
  find_concept (set_outcomes d os) cid = find_concept d cid.
Proof. reflexivity. Qed.

Lemma find_concept_put (d : db) (cid : string) (c c2 : concept) :
  find_concept d cid = Some c -> concept_id c2 = cid ->
  find_concept (put_concept d c2) cid = Some c2.
Proof.
  intros H Hid. subst cid. unfold find_concept, put_concept in *. simpl.
  induction (concepts d) as [|x l IH]; simpl in *; [discriminate|].
  destruct (String.eqb (concept_id x) (concept_id c2)) eqn:E; simpl.
  - rewrite String.eqb_refl. reflexivity.
  - rewrite E. apply IH. exact H.
Qed.

Lemma find_concept_id (d : db) (cid : string) (c : concept) :
  find_concept d cid = Some c -> concept_id c = cid.
Proof.
  intros H. apply find_some in H. destruct H as [_ H]. apply String.eqb_eq, H.
Qed.

(** C7 (counterexample): with six outcomes whose revenues alternate
    100000 and 100001 the median is 100000.5, but retraining stores
    [int(100000.5) = 100000] as the base revenue. *)
Lemma retrain_truncates_median :
  median (map actual_revenue_eur
    (outcomes_of (session_with [100000; 100001; 100000; 100001; 100000; 100001]) "coffee"))
    = Ok (200001 # 2) /\
  exists d', _retrain_concept pow_half_unused
      (session_with [100000; 100001; 100000; 100001; 100000; 100001]) "coffee" = Ok d' /\
  exists c, find_concept d' "coffee" = Some c /\ base_revenue_eur c = 100000%Z.
Proof.
  split; [reflexivity|].
  eexists. split; [reflexivity|]. eexists. split; reflexivity.
Qed.

(** C7 (amended): when retraining of a stored concept with at least 5
    outcomes succeeds, the concept's new base revenue is [int(m)], the
    median [m] of the actual revenues of all the concept's outcomes
    truncated toward zero; it is the median itself exactly when that median
    is a whole number (as for the revenues 100000, 120000, 150000, 90000,
    110000, whose median is 110000). *)
Theorem retrain_base_is_int_median (pow_half : Q -> Q) (d d' : db)
  (cid : string) (c : concept) :
  find_concept d cid = Some c ->
  (MIN_OUTCOMES_FOR_TRAINING <= List.length (outcomes_of d cid))%nat ->
  _retrain_concept pow_half d cid = Ok d' ->
  exists m c',
    median (map actual_revenue_eur (outcomes_of d cid)) = Ok m /\
    find_concept d' cid = Some c' /\
    base_revenue_eur c' = py_int m /\
    (forall k, m == inject_Z k -> base_revenue_eur c' = k).
Proof.
  intros Hc Hn. unfold _retrain_concept. rewrite Hc.
  destruct (Nat.ltb (List.length (outcomes_of d cid)) MIN_OUTCOMES_FOR_TRAINING) eqn:Hl.
  { apply Nat.ltb_lt in Hl. lia. }
  destruct (median (map actual_revenue_eur (outcomes_of d cid))) as [m|e] eqn:Hm;
    cbn [bind]; [|discriminate].
  destruct (mean _) as [mape|e]; cbn [bind]; [|discriminate].
  match goal with |- context [bind ?o _] => destruct o as [opt|e] end;
    cbn [bind]; [|discriminate].
  intros H. injection H as <-.
  pose proof (find_concept_id _ _ _ Hc) as Hid.
  eexists m, _. split; [reflexivity|]. split.
  - apply (find_concept_put _ _ c); [rewrite find_concept_set_outcomes; exact Hc|].
    destruct opt; exact Hid.
  - assert (Hb : forall k, m == inject_Z k -> py_int m = k).
    { intros k Hk. unfold py_int.
      destruct (Qle_bool 0 m) eqn:E; qbool.
      - rewrite (Qfloor_comp _ _ Hk). apply Qfloor_Z.
      - assert (Hk' : - m == inject_Z (- k)) by (rewrite Hk, inject_Z_opp; reflexivity).
        rewrite (Qfloor_comp _ _ Hk'), Qfloor_Z. lia. }
    destruct opt; simpl; split; auto.
Qed.

(** Witness of C7 (amended): the five revenues of the example give the
    base revenue 110000. *)
Lemma retrain_base_is_int_median_witness :
  exists d', _retrain_concept pow_half_unused
      (session_with [100000; 120000; 150000; 90000; 110000]) "coffee" = Ok d' /\
  (exists m c',
    median (map actual_revenue_eur
      (outcomes_of (session_with [100000; 120000; 150000; 90000; 110000]) "coffee")) = Ok m /\
    find_concept d' "coffee" = Some c' /\
    base_revenue_eur c' = py_int m /\
    (forall k, m == inject_Z k -> base_revenue_eur c' = k)) /\
  exists c', find_concept d' "coffee" = Some c' /\ base_revenue_eur c' = 110000%Z.
Proof.
  eexists. split; [reflexivity|]. split.
  - apply (retrain_base_is_int_median pow_half_unused
      (session_with [100000; 120000; 150000; 90000; 110000]) _ "coffee" coffee);
      [reflexivity | vm_compute; lia | reflexivity].
  - eexists. split; reflexivity.
Defined.

(** C8 (counterexample): recording an outcome for a prediction without a
    concept returns normally with [training_outcome_id = None] and leaves
    the session as it was: no training outcome is stored. *)
Lemma unlinked_outcome_not_stored :
  exists r d',
    record_outcome pow_half_unused unlinked_session 7 120000 1700000000 = Ok (r, d') /\
    training_outcome_id r = None /\ triggered_retraining r = false /\
    outcomes d' = [] /\ d' = unlinked_session.
Proof. do 2 eexists. split; [reflexivity|]. repeat split. Qed.

(** C8 (amended): [record_outcome] raises [ValueError] when the prediction
    does not exist; when the prediction exists but has no concept it
    returns normally, reports [triggered_retraining = false] and
    [training_outcome_id = None], [variance_pct = 0] and the message
    "No concept linked to prediction - cannot learn", and leaves the
    session unchanged (the outcome is not stored). *)
Theorem record_outcome_error_cases (pow_half : Q -> Q) (d : db) (pid : Z)
  (actual : Q) (opened : Z) :
  (find_prediction d pid = None ->
     exists msg, record_outcome pow_half d pid actual opened = Raise (ValueError msg)) /\
  (forall p, find_prediction d pid = Some p -> truthy_str (pred_concept_id p) = None ->
     exists r, record_outcome pow_half d pid actual opened = Ok (r, d) /\
       triggered_retraining r = false /\ training_outcome_id r = None /\
       r_variance_pct r = 0 /\
       message r = Some "No concept linked to prediction - cannot learn"%string).
Proof.
  unfold record_outcome. split.
  - intros H. rewrite H. eexists. reflexivity.
  - intros p H Hc. rewrite H, Hc. eexists. split; [reflexivity|].
    repeat split; reflexivity.
Qed.

End LearnerClaims.

(** ** Job registry *)

Module JobsClaims.
Import Jobs JobsData.
Local Open Scope string_scope.

Lemma lookup_map_set {V} (k k' : string) (v' : V) (d : list (string * V)) (v : V) :
  lookup k d = Some v ->
  exists w, lookup k (map (fun p => if String.eqb (fst p) k' then (k', v') else p) d)
            = Some w.
Proof.
  induction d as [|[ka va] l IH]; intros H; unfold lookup in *; simpl in *;
    [discriminate|].
  destruct (String.eqb ka k) eqn:E.
  - apply String.eqb_eq in E. subst ka.
    destruct (String.eqb k k') eqn:E'; simpl.
    + apply String.eqb_eq in E'. subst k'. rewrite String.eqb_refl. eauto.
    + rewrite String.eqb_refl. eauto.
  - destruct (String.eqb ka k') eqn:E'; simpl.
    + apply String.eqb_eq in E'. subst k'. rewrite E. apply IH, H.
    + rewrite E. apply IH, H.
Qed.

Lemma lookup_app_single {V} (k : string) (x : string * V) (d : list (string * V)) (v : V) :
  lookup k d = Some v -> lookup k (app d [x]) = Some v.
Proof.
  induction d as [|[ka va] l IH]; intros H; unfold lookup in *; simpl in *;
    [discriminate|].
  destruct (String.eqb ka k); [exact H|]. apply IH, H.
Qed.

Lemma lookup_set_some {V} (k k' : string) (v' : V) (d : list (string * V)) (v : V) :
  lookup k d = Some v -> exists w, lookup k (set k' v' d) = Some w.
Proof.
  intros H. unfold set. destruct (existsb _ d).
  - eapply lookup_map_set, H.
  - exists v. apply lookup_app_single, H.
Qed.

Lemma put_events_jobs (m : manager) (jid : string) (es : list event) :
  jobs (put_events m jid es) = jobs m.
Proof. unfold put_events. destruct (lookup jid (job_queues m)); reflexivity. Qed.

Ltac keeps_job :=
  match goal with
  | |- context [match ?x with Some _ => _ | None => _ end] =>
      destruct x; [|eauto]
  end;
  unfold get_job in *; try rewrite put_events_jobs; simpl;
  eapply lookup_set_some; eassumption.

Lemma app_step_keeps_jobs (m m' : manager) (jid : string) (j : job) :
  app_step m m' -> get_job m jid = Some j -> exists j', get_job m' jid = Some j'.
Proof.
  intros Hs Hj. destruct Hs.
  - unfold get_job in *. simpl. eapply lookup_set_some, Hj.
  - unfold mark_running. keeps_job.
  - unfold emit_stage_update. keeps_job.
  - unfold complete_job. keeps_job.
  - unfold fail_job. keeps_job.
Qed.

(** C9 (code divergence): [get_job] never looks at [expires_at], and the
    only operation that removes a job, [cleanup_expired_jobs], is never run
    by the application: no step of the application ([app_step]) makes a
    retrievable job unretrievable, so in the sample run the job created at
    time 0 with a TTL of 3600 s is still returned with status [running] at
    time 7200; only an explicit cleanup at that time would remove it. *)
Theorem expired_job_still_running :
  (forall m m' jid j, app_step m m' -> get_job m jid = Some j ->
     exists j', get_job m' jid = Some j') /\
  (exists j, get_job stale_run "job-1" = Some j /\ status j = "running" /\
     expires_at j = 3600%Z /\ (expires_at j < 7200)%Z) /\
  get_job (cleanup_expired_jobs stale_run 7200) "job-1" = None.
Proof.
  split; [exact app_step_keeps_jobs|]. split; [|reflexivity].
  eexists. split; [reflexivity|]. split; [reflexivity|]. split; [reflexivity|].
  vm_compute. reflexivity.
Qed.

End JobsClaims.

(** ** Trust metrics *)

Module TrustClaims.
Import Trust.
Local Open Scope R_scope.

Lemma round_half_even_R_le (y : R) (n : Z) :
  y <= IZR n -> (round_half_even_R y <= n)%Z.
Proof.
  intros H. unfold round_half_even_R. cbv zeta.
  destruct (archimed y) as [H1 H2].
  set (u := up y) in *.
  assert (Hf : IZR (u - 1) <= y) by (rewrite minus_IZR; rlra).
  assert (Hfn : (u - 1 <= n)%Z) by (apply le_IZR; rlra).
  destruct (Rlt_dec (y - IZR (u - 1)) (1 / 2)) as [Hr|Hr]; [exact Hfn|].
  assert (Hlt : (u - 1 < n)%Z) by (apply lt_IZR; rlra).
  destruct (Rlt_dec (1 / 2) (y - IZR (u - 1))); [lia|].
  destruct (Z.even (u - 1)); lia.
Qed.

Lemma py_round_2_le (x : R) : x <= 0.7 -> py_round_nd_R x 2 <= 0.7.
Proof.
  intros H. unfold py_round_nd_R.
  replace (10 ^ 2) with 100 by ring.
  assert (Hr : (round_half_even_R (x * 100) <= 70)%Z)
    by (apply round_half_even_R_le; rlra).
  apply IZR_le in Hr. rlra.
Qed.

Lemma dict_get_absent (sc : list (string * R)) (f : string) (allowed : list string) :
  Forall (fun p => In (fst p) allowed) sc -> ~ In f allowed -> dict_get sc f = None.
Proof.
  intros H Hn. unfold dict_get.
  induction H as [|[k v] l Hk Hl IH]; simpl; [reflexivity|].
  destruct (String.eqb k f) eqn:E; [|exact IH].
  apply String.eqb_eq in E. subst k. contradiction.
Qed.

(** C10: when [score_components] holds only the component-score keys
    (population, income, access, competition, walkability) and the coverage
    is in [0, 1], none of the required feature names is found in it, so the
    completeness term is 0, and the confidence [calculate_confidence]
    returns is at most 0.7. *)
Theorem confidence_without_features (sc : list (string * R)) (cov : data_coverage) :
  Forall (fun p => In (fst p) component_keys) sc ->
  0 <= overall cov <= 1 ->
  features_present sc = 0%nat /\ calculate_confidence sc cov <= 0.7.
Proof.
  intros Hk Hov.
  assert (Hp : features_present sc = 0%nat).
  { unfold features_present, required_features. cbn -[dict_get].
    rewrite !(dict_get_absent sc _ component_keys Hk)
      by (unfold component_keys; simpl; intuition discriminate).
    reflexivity. }
  split; [exact Hp|].
  unfold calculate_confidence. rewrite Hp. cbv zeta.
  match goal with |- context [sqrt ?v] =>
    pose proof (sqrt_pos v); set (sd := sqrt v) in * end.
  assert (Hc : Rmax 0 (1 - sd / 50) <= 1) by (apply Rmax_lub; rlra).
  set (cm := Rmax 0 (1 - sd / 50)) in *.
  apply py_round_2_le.
  eapply Rle_trans; [apply Rmin_l|]. simpl INR. rlra.
Qed.

(** Witness of C10: the components of a scored site, full coverage. *)
Lemma confidence_without_features_witness :
  features_present
    [("population", 80); ("income", 90); ("access", 100); ("competition", 60);
     ("walkability", 70)]%string = 0%nat /\
  calculate_confidence
    [("population", 80); ("income", 90); ("access", 100); ("competition", 60);
     ("walkability", 70)]%string (mkCoverage 1 1 1 1) <= 0.7.
Proof.
  apply confidence_without_features.
  - unfold component_keys. repeat apply Forall_cons; try apply Forall_nil; simpl; auto 6.
  - simpl. split; rlra.
Defined.

End TrustClaims.

(** ** Further properties of the scoring engine *)

Module ScorerExtras.
Import Scorer.

Ltac split_ifs :=
  repeat (cbv beta iota zeta;
    match goal with
    | |- context [if ?b then _ else _] => let E := fresh "E" in destruct b eqn:E
    end); qbool.

Lemma pydiv_nonzero (a b : Q) : ~ b == 0 -> pydiv a b = Some (a / b).
Proof.
  intros H. unfold pydiv. destruct (Qeq_bool b 0) eqn:E; [|reflexivity].
  apply Qeq_bool_iff in E. contradiction.
Qed.

Lemma metro_bonus_antitone (m m' : Q) :
  m <= m' -> metro_bonus (Some m') <= metro_bonus (Some m).
Proof.
  intros H. unfold metro_bonus. destr_qbool; try qlra.
Qed.

Lemma tram_bonus_antitone (t t' : Q) :
  t <= t' -> tram_bonus (Some t') <= tram_bonus (Some t).
Proof.
  intros H. unfold tram_bonus. destr_qbool; try qlra.
Qed.

Lemma metro_bonus_nonneg (m : option Q) : 0 <= metro_bonus m.
Proof. unfold metro_bonus. destruct m; [destr_qbool|]; qlra. Qed.

Lemma tram_bonus_nonneg (t : option Q) : 0 <= tram_bonus t.
Proof. unfold tram_bonus. destruct t; [destr_qbool|]; qlra. Qed.

Lemma Qmin_le_compat_r (a b c : Q) : a <= b -> Qmin a c <= Qmin b c.
Proof. intros H. qminmax; qlra. Qed.

Lemma competition_score_ge_20 (c t s : Q) :
  _calculate_competition_score c t = Some s -> 20 <= s.
Proof.
  unfold _calculate_competition_score, Qltb. break; try qlra.
  set (g := c / t) in *; clearbody g. qminmax; qlra.
Qed.

Lemma revenue_bounds (base d i c : Q) (cfg : concept_config) (rev : Q) :
  0 <= base -> 0 < target_competitors_per_1k cfg ->
  _calculate_revenue base d i c cfg = Some rev -> base * 0.5 <= rev <= base * 1.95.
Proof.
  intros Hb Ht. unfold _calculate_revenue. cbv zeta.
  destruct (pydiv d (optimal_population_density cfg)) as [p|]; [|discriminate].
  set (P := Qmin p 1.5).
  assert (HP : P <= 1.5) by (unfold P; qminmax; qlra).
  clearbody P.
  match goal with |- (let* x := ?e in _) = _ -> _ =>
    assert (HI : forall I, e = Some I -> 0.7 <= I <= 1.3);
    [|destruct e as [I|] eqn:EI; [|discriminate]; specialize (HI I eq_refl)] end.
  { intros I. unfold Qltb. break; [|split; qlra].
    set (g := i / _) in *; clearbody g. qminmax; qlra. }
  match goal with |- (let* x := ?e in _) = _ -> _ =>
    assert (HS : forall S, e = Some S -> 0 <= S <= 0.4);
    [|destruct e as [S|] eqn:ES; [|discriminate]; specialize (HS S eq_refl)] end.
  { intros S. unfold Qltb. break; [|split; qlra].
    set (t := target_competitors_per_1k cfg) in *.
    assert (Hc : 1 < c / t).
    { apply Qlt_shift_div_l; [exact Ht|]. qlra. }
    set (g := c / t) in *; clearbody g. qminmax; qlra. }
  intros H. apply some_inj in H. subst rev.
  assert (HX : base * P <= base * 1.5).
  { rewrite (Qmult_comm base P), (Qmult_comm base 1.5).
    apply Qmult_le_compat_r; assumption. }
  assert (E : base * P * I * (1 - S) == (base * P) * (I * (1 - S))) by ring.
  set (X := base * P) in *. set (Y := I * (1 - S)) in *.
  assert (HY : 0 <= Y <= 1.3).
  { unfold Y. split; [apply Qmult_le_0_compat; qlra|].
    assert (I * (1 - S) <= I * 1).
    { rewrite (Qmult_comm I (1 - S)), (Qmult_comm I 1).
      apply Qmult_le_compat_r; qlra. }
    qlra. }
  clearbody X Y.
  assert (HXY : X * Y <= base * 1.95) by Lqa.nra.
  split; [apply Q.le_max_r|].
  qminmax; qlra.
Qed.

Lemma income_score_degenerate (m tmin tmax : Q) :
  m == tmin -> m == tmax -> _calculate_income_score m tmin tmax = None.
Proof.
  intros H1 H2. unfold _calculate_income_score, Qltb, pydiv.
  assert (Hmd : (tmax - tmin) / 2 == (tmax - tmin) * (1 # 2)) by reflexivity.
  split_ifs; try reflexivity; exfalso; qlra.
Qed.

Lemma income_score_some (m tmin tmax : Q) :
  0 < tmin -> 0 < tmax -> ~ (m == tmin /\ m == tmax) ->
  exists s, _calculate_income_score m tmin tmax = Some s.
Proof.
  intros Hmin Hmax Hn. unfold _calculate_income_score, Qltb, pydiv.
  assert (Hmd : (tmax - tmin) / 2 == (tmax - tmin) * (1 # 2)) by reflexivity.
  split_ifs; eauto; exfalso; try qlra; apply Hn; split; qlra.
Qed.

Lemma population_score_some (d o : Q) :
  0 < o -> exists s, _calculate_population_score d o = Some s.
Proof.
  intros Ho. unfold _calculate_population_score.
  rewrite pydiv_nonzero by (intro E; rewrite E in Ho; discriminate).
  destruct (Qle_bool o d), (Qle_bool d 0); eauto.
Qed.

Lemma revenue_some (base d i c : Q) (cfg : concept_config) :
  0 < optimal_population_density cfg -> 0 < target_income_min cfg ->
  0 < target_income_max cfg -> 0 < target_competitors_per_1k cfg ->
  exists rev, _calculate_revenue base d i c cfg = Some rev.
Proof.
  intros Ho Hmin Hmax Ht. unfold _calculate_revenue.
  assert (Hm : ~ (target_income_min cfg + target_income_max cfg) / 2 == 0).
  { assert (E : (target_income_min cfg + target_income_max cfg) / 2
                == (target_income_min cfg + target_income_max cfg) * (1 # 2))
      by reflexivity.
    rewrite E. intro. qlra. }
  rewrite !pydiv_nonzero by (assumption || (intro E; rewrite E in *; discriminate)).
  cbv zeta. destruct (Qltb 0 i), (Qltb (target_competitors_per_1k cfg) c); eauto.
Qed.

Lemma get_default_some (v : fval) (dflt : Q) :
  v <> PyNone -> get_default v dflt = Some (match v with Num q => q | _ => dflt end).
Proof. destruct v; simpl; congruence. Qed.

Lemma calculate_score_some (f : features) (cfg : concept_config) :
  concept_create_valid cfg = true ->
  population_density f <> PyNone -> median_income f <> PyNone ->
  competitors_per_1k_residents f <> PyNone -> walkability_poi_count f <> PyNone ->
  ~ (exists m, median_income f = Num m /\ m == target_income_min cfg /\
               m == target_income_max cfg) ->
  exists r, calculate_score f cfg = Some r.
Proof.
  intros Hv H1 H2 H3 H4 H5.
  destruct (concept_create_valid_spec cfg Hv) as (_&_&_&_&_&_&_&Hmin&Hmax&Ho&Ht).
  unfold calculate_score.
  rewrite (get_default_some _ _ H1), (get_default_some _ _ H2),
    (get_default_some _ _ H3), (get_default_some _ _ H4).
  destruct (population_score_some
    (match population_density f with Num q => q | _ => 0 end) _ Ho) as [ps Eps].
  rewrite Eps.
  destruct (income_score_some
    (match median_income f with Num q => q | _ => 0 end) _ _ Hmin Hmax) as [is Eis].
  { destruct (median_income f) as [| |m]; [qlra|congruence|].
    intros [Ha Hb]. apply H5. exists m. auto. }
  rewrite Eis.
  destruct (competition_score_total
    (match competitors_per_1k_residents f with Num q => q | _ => 0 end)
    (target_competitors_per_1k cfg) ltac:(intro E; rewrite E in Ht; discriminate))
    as [cs Ecs].
  rewrite Ecs.
  destruct (revenue_some (base_revenue_eur cfg)
    (match population_density f with Num q => q | _ => 0 end)
    (match median_income f with Num q => q | _ => 0 end)
    (match competitors_per_1k_residents f with Num q => q | _ => 0 end) cfg
    Ho Hmin Hmax Ht) as [rev Erev].
  rewrite Erev. eexists. reflexivity.
Qed.

Lemma calculate_score_none (f : features) (cfg : concept_config) :
  population_density f = PyNone \/ median_income f = PyNone \/
  competitors_per_1k_residents f = PyNone \/ walkability_poi_count f = PyNone \/
  (exists m, median_income f = Num m /\ m == target_income_min cfg /\
             m == target_income_max cfg) ->
  calculate_score f cfg = None.
Proof.
  unfold calculate_score.
  intros [H|[H|[H|[H|(m & H & H1 & H2)]]]]; rewrite H; cbn [get_default];
    cbv beta iota;
    try rewrite (income_score_degenerate m _ _ H1 H2);
    repeat match goal with
    | |- (match ?x with Some _ => _ | None => _ end) = None =>
        destruct x; cbv beta iota; [|reflexivity]
    end; try reflexivity.
Qed.

Lemma walkability_score_ge_20 (p : Q) : 20 <= _calculate_walkability_score p.
Proof. unfold _calculate_walkability_score. destr_qbool; qminmax; qlra. Qed.

Lemma round1_range (lo x : Q) (klo : Z) :
  lo * 10 == inject_Z klo -> lo <= x <= 100 -> lo <= py_round_nd x 1 <= 100.
Proof.
  intros Hk [H1 H2].
  pose proof (py_round_nd_mono lo x 1 H1). pose proof (py_round_nd_mono x 100 1 H2).
  pose proof (py_round_nd_exact lo 1 klo Hk).
  pose proof (py_round_nd_exact 100 1 1000 ltac:(reflexivity)). qlra.
Qed.

(** X1: for a positive optimal density, [_calculate_population_score] never
    raises and never decreases when the density grows. *)
Theorem population_score_monotone (o d d' : Q) :
  0 < o -> d <= d' ->
  exists s s', _calculate_population_score d o = Some s /\
    _calculate_population_score d' o = Some s' /\ s <= s'.
Proof.
  intros Ho Hd. unfold _calculate_population_score.
  rewrite !pydiv_nonzero by (intro E; rewrite E in Ho; discriminate).
  assert (Hm : forall x y, x <= y -> x / o * 100 <= y / o * 100).
  { intros x y Hxy. apply Qmult_le_compat_r; [|qlra].
    apply Qmult_le_compat_r; [exact Hxy|].
    apply Qlt_le_weak, Qinv_lt_0_compat, Ho. }
  assert (Hu : forall x, x < o -> x / o * 100 <= 100).
  { intros x Hx. pose proof (Qdiv_le_one x o ltac:(qlra) Ho).
    set (g := x / o) in *; clearbody g. qlra. }
  assert (Hl : forall x, 0 < x -> 0 <= x / o * 100).
  { intros x Hx. pose proof (Qdiv_nonneg x o ltac:(qlra) Ho).
    set (g := x / o) in *; clearbody g. qlra. }
  destr_qbool; do 2 eexists; (split; [reflexivity|]); (split; [reflexivity|]);
    try qlra; try (apply Hm; assumption); try (apply Hu; assumption);
    try (apply Hl; assumption).
Qed.

(** Witness of X1: densities 3000 and 4500 for an optimal density of
    5000. *)
Lemma population_score_monotone_witness :
  exists s s', _calculate_population_score 3000 5000 = Some s /\
    _calculate_population_score 4500 5000 = Some s' /\ s <= s'.
Proof. apply population_score_monotone; qdec. Defined.

(** X2: the walkability score lies in [20, 100] and never decreases when
    the POI count grows. *)
Theorem walkability_score_monotone (p p' : Q) :
  p <= p' ->
  20 <= _calculate_walkability_score p /\
  _calculate_walkability_score p <= _calculate_walkability_score p' /\
  _calculate_walkability_score p' <= 100.
Proof.
  intros H. unfold _calculate_walkability_score.
  destr_qbool; qminmax; repeat split; qlra.
Qed.

(** Witness of X2: 12 and 30 points of interest. *)
Lemma walkability_score_monotone_witness :
  20 <= _calculate_walkability_score 12 /\
  _calculate_walkability_score 12 <= _calculate_walkability_score 30 /\
  _calculate_walkability_score 30 <= 100.
Proof. apply walkability_score_monotone. qdec. Defined.

(** X3: the access score never decreases when the nearest metro or tram
    stop gets closer, and a known distance never scores below a missing
    one. *)
Theorem access_score_closer_better :
  (forall m m' t, m <= m' ->
     _calculate_access_score (Some m') t <= _calculate_access_score (Some m) t) /\
  (forall m t, _calculate_access_score None t <= _calculate_access_score (Some m) t) /\
  (forall m t t', t <= t' ->
     _calculate_access_score m (Some t') <= _calculate_access_score m (Some t)) /\
  (forall m t, _calculate_access_score m None <= _calculate_access_score m (Some t)).
Proof.
  unfold _calculate_access_score. repeat split; intros.
  - apply Qmin_le_compat_r. pose proof (metro_bonus_antitone m m' H). qlra.
  - apply Qmin_le_compat_r. pose proof (metro_bonus_nonneg (Some m)).
    simpl metro_bonus at 1. qlra.
  - apply Qmin_le_compat_r. pose proof (tram_bonus_antitone t t' H). qlra.
  - apply Qmin_le_compat_r. pose proof (tram_bonus_nonneg (Some t)).
    simpl tram_bonus at 1. qlra.
Qed.

(** X4: for a configuration [create_concept] accepts, the mid revenue
    [calculate_score] predicts lies between the rounded half and the
    rounded 1.95-fold of the base revenue: the population multiplier is
    capped at 1.5, the income multiplier at 1.3, the saturation penalty is
    never negative, and the revenue is floored at half the base. *)
Theorem calculate_score_revenue_range (f : features) (cfg : concept_config)
  (r : score_result) :
  concept_create_valid cfg = true ->
  calculate_score f cfg = Some r ->
  (py_round (base_revenue_eur cfg * 0.5) <= revenue_mid r
   <= py_round (base_revenue_eur cfg * 1.95))%Z.
Proof.
  intros Hv Hs.
  destruct (concept_create_valid_spec cfg Hv) as (_&_&_&_&_&_&Hb&_&_&_&Ht).
  destruct (calculate_score_inv f cfg r Hs)
    as (density & income & comp & poi & ps & is & cs & rev &
        _ & _ & _ & Hrev & _ & _ & Hmid & _ & _).
  destruct (revenue_bounds (base_revenue_eur cfg) _ _ _ cfg rev ltac:(qlra) Ht Hrev).
  rewrite Hmid. split; apply py_round_mono; assumption.
Qed.

(** Witness of X4: a Coffee-like configuration and a complete site. *)
Lemma calculate_score_revenue_range_witness :
  exists r,
    calculate_score
      (mkFeatures (Num 6000) (Num 50000) (Num 150) (Num 80) (Num 2) (Num 10) (Num 120))
      (mkConfig 100000 40000 60000 5000 2 (mkWeights 0.3 0.2 0.2 0.2 0.1)) = Some r /\
    (py_round (100000 * 0.5) <= revenue_mid r <= py_round (100000 * 1.95))%Z.
Proof.
  eexists. split; [reflexivity|].
  apply (calculate_score_revenue_range
    (mkFeatures (Num 6000) (Num 50000) (Num 150) (Num 80) (Num 2) (Num 10) (Num 120))
    (mkConfig 100000 40000 60000 5000 2 (mkWeights 0.3 0.2 0.2 0.2 0.1)));
    reflexivity.
Defined.

(** X5: for a configuration [create_concept] accepts, [calculate_score]
    raises exactly when one of [population_density], [median_income],
    [competitors_per_1k_residents], [walkability_poi_count] is bound to
    [None], or when [target_income_min = target_income_max] equals the
    median income (the in-range branch of the income score divides by the
    zero half-width); absent keys and the metro, tram and competitor-count
    keys never make it raise. *)
Theorem calculate_score_fails_iff (f : features) (cfg : concept_config) :
  concept_create_valid cfg = true ->
  (calculate_score f cfg = None <->
   population_density f = PyNone \/ median_income f = PyNone \/
   competitors_per_1k_residents f = PyNone \/ walkability_poi_count f = PyNone \/
   (exists m, median_income f = Num m /\ m == target_income_min cfg /\
              m == target_income_max cfg)).
Proof.
  intros Hv. split; [|apply calculate_score_none].
  intros H.
  assert (D : forall v : fval, v = PyNone \/ v <> PyNone)
    by (intros v; destruct v; [right|left|right]; congruence).
  destruct (D (population_density f)) as [?|H1]; [left; assumption|].
  destruct (D (median_income f)) as [?|H2]; [right; left; assumption|].
  destruct (D (competitors_per_1k_residents f)) as [?|H3]; [do 2 right; left; assumption|].
  destruct (D (walkability_poi_count f)) as [?|H4]; [do 3 right; left; assumption|].
  do 4 right.
  assert (Hdeg : (exists m, median_income f = Num m /\ m == target_income_min cfg /\
                            m == target_income_max cfg) \/
                 ~ (exists m, median_income f = Num m /\ m == target_income_min cfg /\
                              m == target_income_max cfg)).
  { destruct (median_income f) as [| |m].
    - right. intros (m' & E & _). discriminate.
    - right. intros (m' & E & _). discriminate.
    - destruct (Qeq_dec m (target_income_min cfg)) as [A|A];
        [destruct (Qeq_dec m (target_income_max cfg)) as [B|B]|].
      + left. eauto.
      + right. intros (m' & E & _ & B'). injection E as <-. contradiction.
      + right. intros (m' & E & A' & _). injection E as <-. contradiction. }
  destruct Hdeg as [Hd|Hd]; [exact Hd|].
  exfalso. destruct (calculate_score_some f cfg Hv H1 H2 H3 H4 Hd) as [r Hr].
  congruence.
Qed.

(** Witness of X5: [create_concept] accepts equal income targets of 50000,
    and a site whose median income is 50000 makes scoring raise. *)
Lemma calculate_score_fails_iff_witness :
  concept_create_valid
    (mkConfig 100000 50000 50000 5000 2 (mkWeights 0.3 0.2 0.2 0.2 0.1)) = true /\
  calculate_score
    (mkFeatures (Num 6000) (Num 50000) (Num 150) (Num 80) (Num 2) (Num 10) (Num 120))
    (mkConfig 100000 50000 50000 5000 2 (mkWeights 0.3 0.2 0.2 0.2 0.1)) = None.
Proof.
  split; [reflexivity|].
  apply (calculate_score_fails_iff
    (mkFeatures (Num 6000) (Num 50000) (Num 150) (Num 80) (Num 2) (Num 10) (Num 120))
    (mkConfig 100000 50000 50000 5000 2 (mkWeights 0.3 0.2 0.2 0.2 0.1))
    eq_refl).
  do 4 right. exists 50000. split; [reflexivity|]. split; reflexivity.
Defined.

(** X6: for a configuration [create_concept] accepts, every component score
    [calculate_score] reports lies in [0, 100]; the access component is at
    least 50 and the competition and walkability components at least 20. *)
Theorem calculate_score_components_range (f : features) (cfg : concept_config)
  (r : score_result) :
  concept_create_valid cfg = true ->
  calculate_score f cfg = Some r ->
  0 <= c_population (components r) <= 100 /\ 0 <= c_income (components r) <= 100 /\
  50 <= c_access (components r) <= 100 /\ 20 <= c_competition (components r) <= 100 /\
  20 <= c_walkability (components r) <= 100.
Proof.
  intros Hv.
  destruct (concept_create_valid_spec cfg Hv) as (_&_&_&_&_&_&_&Hmin&Hmax&_&_).
  unfold calculate_score, revenue_band. break. cbn [components].
  cbn [c_population c_income c_access c_competition c_walkability].
  repeat match goal with
  | H : _calculate_population_score _ _ = Some _ |- _ =>
      apply population_score_bounds in H
  | H : _calculate_income_score _ _ _ = Some _ |- _ =>
      apply (income_score_bounds _ _ _ _ Hmin Hmax) in H
  | H : _calculate_competition_score _ _ = Some _ |- _ =>
      pose proof (competition_score_ge_20 _ _ _ H); apply competition_score_bounds in H
  end.
  pose proof (access_score_bounds (get (nearest_metro_distance_m f))
                (get (nearest_tram_distance_m f))).
  match goal with |- context [_calculate_walkability_score ?p] =>
    pose proof (walkability_score_bounds p); pose proof (walkability_score_ge_20 p) end.
  refine (conj (round1_range 0 _ 0 ltac:(reflexivity) _)
         (conj (round1_range 0 _ 0 ltac:(reflexivity) _)
         (conj (round1_range 50 _ 500 ltac:(reflexivity) _)
         (conj (round1_range 20 _ 200 ltac:(reflexivity) _)
               (round1_range 20 _ 200 ltac:(reflexivity) _))))); split; qlra.
Qed.

(** Witness of X6: a Coffee-like configuration and a complete site. *)
Lemma calculate_score_components_range_witness :
  exists r,
    calculate_score
      (mkFeatures (Num 6000) (Num 50000) (Num 150) (Num 80) (Num 2) (Num 10) (Num 120))
      (mkConfig 100000 40000 60000 5000 2 (mkWeights 0.3 0.2 0.2 0.2 0.1)) = Some r /\
    0 <= c_population (components r) <= 100 /\ 0 <= c_income (components r) <= 100 /\
    50 <= c_access (components r) <= 100 /\ 20 <= c_competition (components r) <= 100 /\
    20 <= c_walkability (components r) <= 100.
Proof.
  eexists. split; [reflexivity|].
  apply (calculate_score_components_range
    (mkFeatures (Num 6000) (Num 50000) (Num 150) (Num 80) (Num 2) (Num 10) (Num 120))
    (mkConfig 100000 40000 60000 5000 2 (mkWeights 0.3 0.2 0.2 0.2 0.1)));
    reflexivity.
Defined.

End ScorerExtras.

(** ** Candidate scoring *)

Module AddressScoringExtras.
Import Dedup AddressScoring.
Local Open Scope R_scope.

Lemma atan2_nonneg (y x : R) : 0 <= y -> 0 <= x -> 0 <= atan2 y x.
Proof.
  intros Hy Hx. unfold atan2.
  destruct (Rlt_dec 0 x) as [H|H].
  - assert (Hq : 0 <= y / x) by (apply Rmult_le_pos; [exact Hy | left; apply Rinv_0_lt_compat, H]).
    destruct (Req_dec (y / x) 0) as [E|E].
    + rewrite E, atan_0. apply Rle_refl.
    + rewrite <- atan_0. left. apply atan_increasing. rlra.
  - destruct (Rlt_dec x 0); [rlra|].
    destruct (Rlt_dec 0 y); [pose proof PI_RGT_0; rlra|].
    destruct (Rlt_dec y 0); rlra.
Qed.

Lemma haversine_nonneg (lat1 lng1 lat2 lng2 : R) :
  0 <= _haversine_distance lat1 lng1 lat2 lng2.
Proof.
  unfold _haversine_distance. cbv zeta.
  match goal with |- 0 <= _ * (2 * atan2 ?y ?x) =>
    pose proof (atan2_nonneg y x (sqrt_pos _) (sqrt_pos _)) end.
  rlra.
Qed.

Lemma closest_area_spec (l : list area) (lat lng : R) (md : option R) (cp : Z)
  (md' : option R) (cp' : Z) :
  closest_area l lat lng md cp = (md', cp') ->
  (md' = md /\ cp' = cp) \/
  (exists a, In a l /\ md' = Some (_haversine_distance lat lng (area_lat a) (area_lng a))
             /\ cp' = area_pop a).
Proof.
  revert md cp. induction l as [|a l IH]; intros md cp H; simpl in H.
  - injection H as <- <-. left. split; reflexivity.
  - match type of H with (if ?b then _ else _) = _ => destruct b end.
    + destruct (IH _ _ H) as [[-> ->]|(a' & Ha' & -> & ->)].
      * right. exists a. split; [left; reflexivity|]. split; reflexivity.
      * right. exists a'. split; [right; exact Ha'|]. split; reflexivity.
    + destruct (IH _ _ H) as [[-> ->]|(a' & Ha' & -> & ->)].
      * left. split; reflexivity.
      * right. exists a'. split; [right; exact Ha'|]. split; reflexivity.
Qed.

Lemma areas_pop_range (a : area) : In a areas -> (7500 <= area_pop a <= 18000)%Z.
Proof. unfold areas. simpl. intuition (subst; simpl; lia). Qed.

Lemma hardcoded_population_range (lat lng : R) :
  (7500 <= _get_hardcoded_population lat lng <= 18000)%Z.
Proof.
  unfold _get_hardcoded_population.
  destruct (closest_area areas lat lng None 8000) as [md' cp'] eqn:E.
  apply closest_area_spec in E.
  destruct md' as [m|]; [|lia].
  destruct (Rlt_dec m 2.0) as [Hm|Hm]; [|lia].
  destruct E as [[E _]|(a & Ha & Em & ->)]; [discriminate|].
  apply areas_pop_range, Ha.
Qed.

(** The loop keeps the least distance met: its final [min_dist] is at
    most the initial one and at most the distance of every area. *)
Lemma closest_area_le (l : list area) (lat lng : R) (md : option R) (cp : Z)
  (md' : option R) (cp' : Z) :
  closest_area l lat lng md cp = (md', cp') ->
  (forall m, md = Some m -> exists m', md' = Some m' /\ m' <= m) /\
  (forall b, In b l ->
     exists m', md' = Some m' /\ m' <= _haversine_distance lat lng (area_lat b) (area_lng b)).
Proof.
  revert md cp. induction l as [|a l IH]; intros md cp H; simpl in H.
  - injection H as <- <-. split.
    + intros m ->. exists m. split; [reflexivity|apply Rle_refl].
    + intros b [].
  - set (da := _haversine_distance lat lng (area_lat a) (area_lng a)) in *.
    destruct md as [m0|].
    + destruct (Rlt_dec da m0) as [Hlt|Hge].
      * destruct (IH _ _ H) as [H1 H2]. destruct (H1 da eq_refl) as (m' & Hm' & Hle).
        split.
        -- intros m Hm. injection Hm as <-. exists m'. split; [exact Hm'|rlra].
        -- intros b [<-|Hb]; [exists m'; split; [exact Hm'|exact Hle]|exact (H2 b Hb)].
      * destruct (IH _ _ H) as [H1 H2]. destruct (H1 m0 eq_refl) as (m' & Hm' & Hle).
        split.
        -- intros m Hm. injection Hm as <-. exists m'. split; [exact Hm'|exact Hle].
        -- intros b [<-|Hb]; [exists m'; split; [exact Hm'|fold da; rlra]|exact (H2 b Hb)].
    + destruct (IH _ _ H) as [H1 H2]. destruct (H1 da eq_refl) as (m' & Hm' & Hle).
      split.
      * intros m Hm. discriminate.
      * intros b [<-|Hb]; [exists m'; split; [exact Hm'|exact Hle]|exact (H2 b Hb)].
Qed.

(** X7: [_get_hardcoded_population] takes the area centre closest to the
    point (by [_haversine_distance], in metres, although the comment reads
    "within ~2km"). When every centre is at least 2.0 away it returns the
    default 8000; when some centre is less than 2.0 away it returns the
    population of a centre less than 2.0 away that is at least as close as
    every other; the result is always between 7500 and 18000. *)
Theorem hardcoded_population_spec (lat lng : R) :
  ((forall a, In a areas -> 2 <= _haversine_distance lat lng (area_lat a) (area_lng a)) ->
   _get_hardcoded_population lat lng = 8000%Z) /\
  ((exists a, In a areas /\ _haversine_distance lat lng (area_lat a) (area_lng a) < 2) ->
   exists a, In a areas /\ _haversine_distance lat lng (area_lat a) (area_lng a) < 2 /\
     (forall b, In b areas ->
        _haversine_distance lat lng (area_lat a) (area_lng a)
        <= _haversine_distance lat lng (area_lat b) (area_lng b)) /\
     _get_hardcoded_population lat lng = area_pop a) /\
  (7500 <= _get_hardcoded_population lat lng <= 18000)%Z.
Proof.
  pose proof (hardcoded_population_range lat lng) as Hrange.
  unfold _get_hardcoded_population in *.
  destruct (closest_area areas lat lng None 8000) as [md' cp'] eqn:E.
  pose proof (closest_area_le _ _ _ _ _ _ _ E) as [_ Hle].
  apply closest_area_spec in E.
  destruct E as [[-> _]|(a & Ha & -> & ->)].
  { destruct (Hle (mkArea 60.170 24.938 18000)) as (m' & Hm' & _);
      [left; reflexivity|discriminate]. }
  split; [|split; [|exact Hrange]].
  - intros Hall. pose proof (Hall a Ha).
    destruct (Rlt_dec _ 2.0); [rlra|reflexivity].
  - intros (a0 & Ha0 & Hd0).
    destruct (Hle a0 Ha0) as (m' & Hm' & Hm0). injection Hm' as <-.
    exists a. split; [exact Ha|].
    assert (Hlt : _haversine_distance lat lng (area_lat a) (area_lng a) < 2) by rlra.
    split; [exact Hlt|]. split.
    + intros b Hb. destruct (Hle b Hb) as (m'' & Hm'' & Hb'). injection Hm'' as <-. exact Hb'.
    + destruct (Rlt_dec _ 2.0); [reflexivity|rlra].
Qed.

Lemma round_half_even_R_ge (y : R) (n : Z) :
  IZR n <= y -> (n <= Trust.round_half_even_R y)%Z.
Proof.
  intros H. unfold Trust.round_half_even_R. cbv zeta.
  destruct (archimed y) as [H1 H2].
  set (u := up y) in *.
  assert (Hn : (n <= u - 1)%Z).
  { assert (n < u)%Z by (apply lt_IZR; rlra). lia. }
  destruct (Rlt_dec _ _); [exact Hn|].
  destruct (Rlt_dec _ _); [lia|].
  destruct (Z.even (u - 1)); lia.
Qed.

Lemma round_half_even_R_IZR (n : Z) : Trust.round_half_even_R (IZR n) = n.
Proof.
  apply Z.le_antisymm.
  - apply TrustClaims.round_half_even_R_le, Rle_refl.
  - apply round_half_even_R_ge, Rle_refl.
Qed.

Lemma py_int_R_floor (x : R) :
  0 <= x -> IZR (py_int_R x) <= x < IZR (py_int_R x) + 1.
Proof.
  intros H. unfold py_int_R. destruct (Rle_dec 0 x) as [_|]; [|contradiction].
  destruct (archimed x) as [H1 H2]. rewrite minus_IZR. simpl IZR. rlra.
Qed.

Lemma py_int_R_mono (x y : R) : 0 <= x -> x <= y -> (py_int_R x <= py_int_R y)%Z.
Proof.
  intros Hx Hxy.
  destruct (py_int_R_floor x Hx) as [A B].
  destruct (py_int_R_floor y ltac:(rlra)) as [C D].
  assert (py_int_R x < py_int_R y + 1)%Z.
  { apply lt_IZR. rewrite plus_IZR. simpl IZR. rlra. }
  lia.
Qed.

(** X8: [_score_candidate] always returns a result, and its decision is
    always "PASS": the placeholder competition (70.03) and transit (55)
    scores, the fixed income (70) and traffic (60) scores and a population
    score of at most 72 give a score between 51.3 and 63.1, below the 70
    that "NEGOTIATE" needs; the confidence is always 0.95, and
    [0 < revenue_min_eur <= revenue_max_eur]. *)
Theorem score_candidate_always_pass (lat lng : R) (address concept : string)
  (include_crime : bool) :
  exists s, _score_candidate lat lng address concept include_crime = Some s /\
    decision s = "PASS"%string /\ s_confidence s = 0.95 /\
    51.3 <= s_score s <= 63.1 /\
    (0 < revenue_min_eur s <= revenue_max_eur s)%Z.
Proof.
  pose proof (hardcoded_population_range lat lng) as Hp.
  unfold _score_candidate, _get_population_score, _get_competition_score,
    _get_transit_score.
  cbv zeta. cbn [p_score c_score t_score p_coverage c_coverage t_coverage].
  set (p := _get_hardcoded_population lat lng) in *.
  assert (Hp0 : (0 <? p)%Z = true) by (apply Z.ltb_lt; lia).
  rewrite Hp0. cbn [p_score p_coverage].
  assert (HP : 7500 <= IZR p <= 18000) by (split; apply IZR_le; lia).
  rewrite Rmin_left by rlra.
  rewrite Rmax_left by rlra.
  rewrite (Rmax_left (50 - 250 / 10)) by rlra.
  rewrite (Rmax_left (50 - 120 / 6)) by rlra.
  rewrite Rmin_left by rlra.
  rewrite Rmin_right by rlra.
  set (score := IZR p / 25000 * 100 * 0.28 + (100 - 0.9 * 33.3) * 0.15
                + (50 - 250 / 10 + (50 - 120 / 6)) * 0.20 + 70 * 0.22 + 60 * 0.10).
  assert (Hs : 51.3045 <= score <= 63.0645) by (unfold score; split; rlra).
  clearbody score.
  eexists. split; [reflexivity|]. cbn [decision s_confidence s_score revenue_min_eur
    revenue_max_eur].
  split.
  { unfold Rge_b.
    destruct (Rle_dec 85 score); [rlra|].
    destruct (Rle_dec 70 score); [rlra|]. reflexivity. }
  split.
  { unfold Trust.py_round_nd_R. replace (0.95 * 10 ^ 2) with (IZR 95) by (simpl; rlra).
    rewrite round_half_even_R_IZR. simpl pow. rlra. }
  split.
  { unfold Trust.py_round_nd_R. simpl pow.
    assert (A : (513 <= Trust.round_half_even_R (score * (10 * 1)))%Z)
      by (apply round_half_even_R_ge; rlra).
    assert (B : (Trust.round_half_even_R (score * (10 * 1)) <= 631)%Z)
      by (apply TrustClaims.round_half_even_R_le; rlra).
    apply IZR_le in A. apply IZR_le in B. split; rlra. }
  split.
  - destruct (py_int_R_floor (150000 * (score / 100) * 0.65) ltac:(rlra)) as [_ B].
    assert (0 < py_int_R (150000 * (score / 100) * 0.65) + 1)%Z
      by (apply lt_IZR; rewrite plus_IZR; simpl IZR; rlra).
    destruct (py_int_R_floor (150000 * (score / 100) * 0.65) ltac:(rlra)) as [A _].
    assert (1 < py_int_R (150000 * (score / 100) * 0.65) + 1)%Z
      by (apply lt_IZR; rewrite plus_IZR; simpl IZR; rlra).
    lia.
  - apply py_int_R_mono; rlra.
Qed.

End AddressScoringExtras.

(** ** Deduplication and ranking of candidates *)

Module DedupExtras.
Import Dedup DedupClaims.
Local Open Scope R_scope.
Local Open Scope list_scope.

Lemma SS_remove_mid {A} (Rel : A -> A -> Prop) (l1 l2 : list A) (x : A) :
  StronglySorted Rel (l1 ++ x :: l2) -> StronglySorted Rel (l1 ++ l2).
Proof.
  induction l1 as [|a l1 IH]; simpl; intros H.
  - apply StronglySorted_inv in H. apply H.
  - apply StronglySorted_inv in H. destruct H as [H1 H2]. constructor; [apply IH, H1|].
    apply Forall_app in H2. destruct H2 as [H2 H3]. apply Forall_app.
    split; [exact H2|]. inversion H3; assumption.
Qed.

Lemma SS_firstn {A} (Rel : A -> A -> Prop) (n : nat) (l : list A) :
  StronglySorted Rel l -> StronglySorted Rel (firstn n l).
Proof.
  revert l. induction n as [|n IH]; intros l H; [constructor|].
  destruct l as [|a l]; simpl; [constructor|].
  apply StronglySorted_inv in H. destruct H as [H1 H2]. constructor; [apply IH, H1|].
  apply Forall_forall. intros y Hy. rewrite Forall_forall in H2. apply H2.
  rewrite <- (firstn_skipn n l). apply in_or_app. left. exact Hy.
Qed.

Lemma dedup_loop_app (kept l : list candidate) (m : R) :
  exists s, dedup_loop kept l m = kept ++ s /\ incl s l /\ (List.length s <= List.length l)%nat.
Proof.
  revert kept. induction l as [|c cs IH]; intros kept; simpl.
  - exists []. rewrite app_nil_r. split; [reflexivity|]. split; [apply incl_refl|apply Nat.le_refl].
  - destruct (too_close c kept m).
    + destruct (IH kept) as (s & E & Hi & Hl). exists s. split; [exact E|].
      split; [apply incl_tl, Hi|lia].
    + destruct (IH (kept ++ [c])) as (s & E & Hi & Hl). exists (c :: s).
      rewrite E, <- app_assoc. split; [reflexivity|].
      split; [apply incl_cons; [left; reflexivity|apply incl_tl, Hi]|simpl; lia].
Qed.

Lemma dedup_loop_sorted (kept l : list candidate) (m : R) :
  StronglySorted desc (kept ++ l) -> StronglySorted desc (dedup_loop kept l m).
Proof.
  revert kept. induction l as [|c cs IH]; intros kept H; simpl.
  - rewrite app_nil_r in H. exact H.
  - destruct (too_close c kept m).
    + apply IH. apply (SS_remove_mid _ _ _ c H).
    + apply IH. rewrite <- app_assoc. exact H.
Qed.

Lemma insert_desc_nonempty (x : candidate) (l : list candidate) : insert_desc x l <> [].
Proof.
  destruct l as [|y l]; simpl; [discriminate|].
  destruct (Rlt_dec _ _); [discriminate|]. destruct (Rlt_dec _ _); discriminate.
Qed.

Lemma dedup_parts (cands : list candidate) (m : R) :
  incl (_deduplicate_by_distance cands m) cands /\
  StronglySorted desc (_deduplicate_by_distance cands m) /\
  (List.length (_deduplicate_by_distance cands m) <= List.length cands)%nat.
Proof.
  unfold _deduplicate_by_distance. destruct cands as [|c0 cs].
  - split; [apply incl_refl|]. split; [constructor|simpl; lia].
  - destruct (dedup_loop_app [] (sort_desc (c0 :: cs)) m) as (s & E & Hi & Hl).
    split; [|split].
    + rewrite E. intros x Hx. apply (Permutation_in _ (sort_desc_perm (c0 :: cs))), Hi, Hx.
    +  apply dedup_loop_sorted. apply sort_desc_sorted.
    + rewrite E. simpl. rewrite (Permutation_length (sort_desc_perm (c0 :: cs))) in Hl. exact Hl.
Qed.

Lemma add_ranks_rank (i : nat) (l : list candidate) :
  map rank (add_ranks i l) = map Some (seq i (List.length l)).
Proof.
  revert i. induction l as [|c l IH]; intros i; simpl; [reflexivity|]. rewrite IH. reflexivity.
Qed.

Lemma add_ranks_length (i : nat) (l : list candidate) :
  List.length (add_ranks i l) = List.length l.
Proof. revert i. induction l; intros i; simpl; [reflexivity|]. rewrite IHl. reflexivity. Qed.

Lemma add_ranks_score (P : R -> Prop) (i : nat) (l : list candidate) :
  Forall (fun b => P (cand_score b)) l -> Forall (fun b => P (cand_score b)) (add_ranks i l).
Proof.
  revert i. induction l as [|c l IH]; intros i H; simpl; [constructor|].
  inversion H; subst. constructor; [assumption|apply IH; assumption].
Qed.

Lemma add_ranks_sorted (i : nat) (l : list candidate) :
  StronglySorted desc l -> StronglySorted desc (add_ranks i l).
Proof.
  revert i. induction l as [|c l IH]; intros i H; simpl; [constructor|].
  apply StronglySorted_inv in H. destruct H as [H1 H2]. constructor; [apply IH, H1|].
  apply (add_ranks_score (fun s => s <= cand_score c)), H2.
Qed.

Lemma add_ranks_origin (i : nat) (l : list candidate) :
  Forall (fun c => exists k, In k l /\ address k = address c /\ lat k = lat c /\
                   lng k = lng c /\ cand_score k = cand_score c) (add_ranks i l).
Proof.
  revert i. induction l as [|c l IH]; intros i; simpl; [constructor|].
  constructor.
  - exists c. simpl. auto 6.
  - eapply Forall_impl; [|apply IH]. intros a (k & Hk & E). exists k. split; [right; exact Hk|exact E].
Qed.

(** X9: the haversine distance is never negative, is 0 between a point and
    itself, and is symmetric. *)
Theorem haversine_metric_facts (lat1 lng1 lat2 lng2 : R) :
  0 <= _haversine_distance lat1 lng1 lat2 lng2 /\
  _haversine_distance lat1 lng1 lat1 lng1 = 0 /\
  _haversine_distance lat1 lng1 lat2 lng2 = _haversine_distance lat2 lng2 lat1 lng1.
Proof.
  split; [apply AddressScoringExtras.haversine_nonneg|]. split; [|apply haversine_sym].
  unfold _haversine_distance, radians. cbv zeta.
  rewrite !Rminus_diag. replace (0 * PI / 180 / 2) with 0 by field.
  rewrite sin_0. replace (0 ^ 2 + cos (lat1 * PI / 180) * cos (lat1 * PI / 180) * 0 ^ 2)
    with 0 by ring.
  rewrite Rminus_0_r, sqrt_0, sqrt_1. unfold atan2.
  destruct (Rlt_dec 0 1) as [_|H]; [|rlra].
  replace (0 / 1) with 0 by field. rewrite atan_0. ring.
Qed.

(** X10: [_deduplicate_by_distance] returns some of its input candidates,
    in non-increasing score order, never more than it was given, and an
    empty list exactly when it was given none (the best candidate is always
    kept). *)
Theorem deduplicate_subset_sorted (cands : list candidate) (m : R) :
  incl (_deduplicate_by_distance cands m) cands /\
  (_deduplicate_by_distance cands m = [] <-> cands = []) /\
  StronglySorted desc (_deduplicate_by_distance cands m) /\
  (List.length (_deduplicate_by_distance cands m) <= List.length cands)%nat.
Proof.
  destruct (dedup_parts cands m) as (Hi & Hs & Hl).
  split; [exact Hi|]. split; [|split; assumption].
  split; [|intros ->; reflexivity].
  unfold _deduplicate_by_distance. destruct cands as [|c0 cs]; [reflexivity|].
  simpl sort_desc. intros H. exfalso.
  destruct (insert_desc c0 (sort_desc cs)) as [|x rest] eqn:E;
    [apply (insert_desc_nonempty _ _ E)|].
  simpl in H. assert (Hin := dedup_loop_incl [x] rest m x (or_introl eq_refl)).
  rewrite H in Hin. destruct Hin.
Qed.

(** X11: the candidates [generate_candidates] returns carry the ranks
    1, 2, ..., n in list order, are in non-increasing score order, number
    at most [limit] for a non-negative [limit], and each has the address,
    coordinates and score of one of the gathered candidates. *)
Theorem generate_candidates_ranked (top_areas_empty : bool)
  (all_candidates : list candidate) (limit : Z) :
  map rank (generate_candidates_from top_areas_empty all_candidates limit)
    = map Some (seq 1 (List.length (generate_candidates_from top_areas_empty all_candidates limit))) /\
  StronglySorted desc (generate_candidates_from top_areas_empty all_candidates limit) /\
  ((0 <= limit)%Z ->
   (List.length (generate_candidates_from top_areas_empty all_candidates limit) <= Z.to_nat limit)%nat) /\
  Forall (fun c => exists k, In k all_candidates /\ address k = address c /\
                   lat k = lat c /\ lng k = lng c /\ cand_score k = cand_score c)
    (generate_candidates_from top_areas_empty all_candidates limit).
Proof.
  unfold generate_candidates_from. destruct top_areas_empty.
  { split; [reflexivity|]. split; [constructor|]. split; [simpl; lia|constructor]. }
  destruct (dedup_parts all_candidates 80) as (Hi & _ & _).
  set (dd := _deduplicate_by_distance all_candidates 80) in *.
  assert (Hp : incl (py_prefix (sort_desc dd) limit) all_candidates).
  { intros x Hx. apply Hi. apply (Permutation_in _ (sort_desc_perm dd)).
    unfold py_prefix in Hx. destruct (0 <=? limit)%Z;
      [rewrite <- (firstn_skipn (Z.to_nat limit) (sort_desc dd))
      |rewrite <- (firstn_skipn (List.length (sort_desc dd) - Z.to_nat (- limit)) (sort_desc dd))];
      apply in_or_app; left; exact Hx. }
  split; [rewrite add_ranks_rank, add_ranks_length; reflexivity|]. split.
  { apply add_ranks_sorted. unfold py_prefix. destruct (0 <=? limit)%Z;
      apply SS_firstn, sort_desc_sorted. }
  split.
  { intros Hl. rewrite add_ranks_length. unfold py_prefix.
    apply Z.leb_le in Hl. rewrite Hl. rewrite length_firstn. lia. }
  eapply Forall_impl; [|apply add_ranks_origin].
  intros a (k & Hk & E). exists k. split; [apply Hp, Hk|exact E].
Qed.

End DedupExtras.

(** ** Outcome learning *)

Module LearnerExtras.
Import Learner.

Lemma round_half_even_near (y : Q) :
  y - (1#2) <= inject_Z (round_half_even y) <= y + (1#2).
Proof.
  pose proof (Qfloor_le y) as H1. pose proof (Qlt_floor y) as H2.
  unfold round_half_even, Qltb. set (f := Qfloor y) in *. clearbody f.
  rewrite inject_Z_plus in H2.
  destr_qbool; try destruct (Z.even f); rewrite ?inject_Z_plus;
    change (inject_Z 1) with 1 in *; split; qlra.
Qed.

Lemma round2_share (x t : Q) : 0 <= x -> x <= t -> 0 < t ->
  exists k, py_round_nd (x / t) 2 * 100 == inject_Z k /\ 0 <= inject_Z k <= 100 /\
            x / t * 100 - (1#2) <= inject_Z k <= x / t * 100 + (1#2).
Proof.
  intros Hx Hxt Ht.
  exists (round_half_even (x / t * 100)).
  unfold py_round_nd. change (inject_Z (10 ^ Z.of_nat 2)) with 100.
  pose proof (Qdiv_nonneg x t Hx Ht). pose proof (Qdiv_le_one x t Hxt Ht).
  set (y := x / t) in *. clearbody y.
  split; [field|]. split.
  - split.
    + assert (Hr : (round_half_even (inject_Z 0) <= round_half_even (y * 100))%Z)
        by (apply round_half_even_mono; change (inject_Z 0) with 0; qlra).
      rewrite round_half_even_Z in Hr.
      apply (Qle_trans _ (inject_Z 0)); [apply Qle_refl|rewrite <- Zle_Qle; exact Hr].
    + assert (Hr : (round_half_even (y * 100) <= round_half_even (inject_Z 100))%Z)
        by (apply round_half_even_mono; change (inject_Z 100) with 100; qlra).
      rewrite round_half_even_Z in Hr.
      apply (Qle_trans _ (inject_Z 100)); [rewrite <- Zle_Qle; exact Hr|apply Qle_refl].
  - pose proof (round_half_even_near (y * 100)). qlra.
Qed.

Lemma round2_exact (x : Q) (k : Z) : x * 100 == inject_Z k -> py_round_nd x 2 == x.
Proof. intros H. apply (py_round_nd_exact x 2 k). exact H. Qed.

Lemma Qmax5_spec (p i a c k : Q) :
  let m := Qmax (Qmax (Qmax (Qmax p i) a) c) k in
  p <= m /\ i <= m /\ a <= m /\ c <= m /\ k <= m /\
  (m == p \/ m == i \/ m == a \/ m == c \/ m == k).
Proof. cbv zeta. qminmax; repeat split; qlra. Qed.

(** The normalisation step of [_optimize_weights], for the five absolute
    correlations. *)
Lemma normalise_weights_spec (cp ci ca cc ck : Q) :
  0 <= cp -> 0 <= ci -> 0 <= ca -> 0 <= cc -> 0 <= ck ->
  ~ 0 + cp + ci + ca + cc + ck == 0 ->
  let total_corr := 0 + cp + ci + ca + cc + ck in
  let nw x := py_round_nd (x / total_corr) 2 in
  let new_weights := Scorer.mkWeights (nw cp) (nw ci) (nw ca) (nw cc) (nw ck) in
  let ws := 0 + weight_sum new_weights in
  let w := if negb (Qeq_bool ws 1) then adjust_max new_weights (1 - ws) else new_weights in
  weight_sum w == 1 /\
  0 <= Scorer.w_population w <= 1 /\ 0 <= Scorer.w_income w <= 1 /\
  0 <= Scorer.w_access w <= 1 /\ 0 <= Scorer.w_competition w <= 1 /\
  0 <= Scorer.w_walkability w <= 1.
Proof.
  intros H1 H2 H3 H4 H5 Ht. cbv zeta.
  set (t := 0 + cp + ci + ca + cc + ck) in *.
  assert (Htp : 0 < t) by (unfold t in *; apply Qnot_le_lt; intro; apply Ht; qlra).
  assert (Hsum : cp / t + ci / t + ca / t + cc / t + ck / t == 1)
    by (unfold t in *; field; intro E; apply Ht; qlra).
  destruct (round2_share cp t) as (k1 & E1 & B1 & N1); [exact H1|unfold t; qlra|exact Htp|].
  destruct (round2_share ci t) as (k2 & E2 & B2 & N2); [exact H2|unfold t; qlra|exact Htp|].
  destruct (round2_share ca t) as (k3 & E3 & B3 & N3); [exact H3|unfold t; qlra|exact Htp|].
  destruct (round2_share cc t) as (k4 & E4 & B4 & N4); [exact H4|unfold t; qlra|exact Htp|].
  destruct (round2_share ck t) as (k5 & E5 & B5 & N5); [exact H5|unfold t; qlra|exact Htp|].
  pose proof (Qdiv_nonneg cp t H1 Htp). pose proof (Qdiv_nonneg ci t H2 Htp).
  pose proof (Qdiv_nonneg ca t H3 Htp). pose proof (Qdiv_nonneg cc t H4 Htp).
  pose proof (Qdiv_nonneg ck t H5 Htp).
  set (y1 := cp / t) in *. set (y2 := ci / t) in *. set (y3 := ca / t) in *.
  set (y4 := cc / t) in *. set (y5 := ck / t) in *.
  set (n1 := py_round_nd y1 2) in *. set (n2 := py_round_nd y2 2) in *.
  set (n3 := py_round_nd y3 2) in *. set (n4 := py_round_nd y4 2) in *.
  set (n5 := py_round_nd y5 2) in *.
  clearbody y1 y2 y3 y4 y5 n1 n2 n3 n4 n5.
  assert (Hk : forall z : Z, inject_Z z * 1 == inject_Z z) by (intros; qlra).
  assert (Hx : forall x, x == n1 \/ x == n2 \/ x == n3 \/ x == n4 \/ x == n5 ->
    py_round_nd (x + (1 - (0 + (n1 + n2 + n3 + n4 + n5)))) 2
      == x + (1 - (0 + (n1 + n2 + n3 + n4 + n5)))).
  { intros x Hxn.
    assert (Hxk : exists kx, x * 100 == inject_Z kx)
      by (destruct Hxn as [E|[E|[E|[E|E]]]];
          [exists k1|exists k2|exists k3|exists k4|exists k5]; qlra).
    destruct Hxk as [kx Ekx].
    apply (round2_exact _ (kx + 100 - (k1 + k2 + k3 + k4 + k5))).
    unfold Z.sub. rewrite !inject_Z_plus, inject_Z_opp, !inject_Z_plus. change (inject_Z 100) with 100. qlra. }
  unfold weight_sum. cbn [Scorer.w_population Scorer.w_income Scorer.w_access
    Scorer.w_competition Scorer.w_walkability].
  destruct (Qeq_bool (0 + (n1 + n2 + n3 + n4 + n5)) 1) eqn:Ews; simpl negb; qbool.
  { cbn. repeat split; qlra. }
  unfold adjust_max. cbn [Scorer.w_population Scorer.w_income Scorer.w_access
    Scorer.w_competition Scorer.w_walkability]. cbv zeta.
  destruct (Qmax5_spec n1 n2 n3 n4 n5) as (M1 & M2 & M3 & M4 & M5 & Mone).
  set (m := Qmax (Qmax (Qmax (Qmax n1 n2) n3) n4) n5) in *. clearbody m.
  destr_qbool; cbn [Scorer.w_population Scorer.w_income Scorer.w_access
    Scorer.w_competition Scorer.w_walkability];
  [ pose proof (Hx n1 ltac:(auto 6 with qarith)) as U
  | pose proof (Hx n2 ltac:(right; left; reflexivity)) as U
  | pose proof (Hx n3 ltac:(right; right; left; reflexivity)) as U
  | pose proof (Hx n4 ltac:(right; right; right; left; reflexivity)) as U
  | pose proof (Hx n5 ltac:(right; right; right; right; reflexivity)) as U ];
  try (assert (m == n5) by (destruct Mone as [E|[E|[E|[E|E]]]];
                            [exfalso; auto with qarith..|exact E]));
  set (v := py_round_nd _ 2) in *; clearbody v;
  repeat split; qlra.
Qed.

Lemma optimize_weights_ok (pow_half : Q -> Q) (os : list training_outcome)
  (cw w : Scorer.weights) :
  _optimize_weights pow_half os cw = Ok (Some w) ->
  (MIN_OUTCOMES_FOR_WEIGHTS <= List.length os)%nat /\
  weight_sum w == 1 /\
  0 <= Scorer.w_population w <= 1 /\ 0 <= Scorer.w_income w <= 1 /\
  0 <= Scorer.w_access w <= 1 /\ 0 <= Scorer.w_competition w <= 1 /\
  0 <= Scorer.w_walkability w <= 1.
Proof.
  unfold _optimize_weights.
  destruct (Nat.ltb (List.length os) MIN_OUTCOMES_FOR_WEIGHTS) eqn:El; [discriminate|].
  apply Nat.ltb_ge in El.
  destruct (collect os (mkSeries [] [] [] [] [] [])) as [sr|e]; cbn [bind]; [|discriminate].
  cbv zeta.
  set (cp := Qabs (_calculate_correlation pow_half (s_pop sr) (s_rev sr))).
  set (ci := Qabs (_calculate_correlation pow_half (s_inc sr) (s_rev sr))).
  set (ca := Qabs (_calculate_correlation pow_half (s_acc sr) (s_rev sr))).
  set (cc := Qabs (_calculate_correlation pow_half (s_comp sr) (s_rev sr))).
  set (ck := Qabs (_calculate_correlation pow_half (s_walk sr) (s_rev sr))).
  destruct (Qeq_bool (0 + cp + ci + ca + cc + ck) 0) eqn:Et; [discriminate|].
  apply Qeq_bool_false in Et.
  pose proof (normalise_weights_spec cp ci ca cc ck
    (Qabs_nonneg _) (Qabs_nonneg _) (Qabs_nonneg _) (Qabs_nonneg _) (Qabs_nonneg _) Et) as N.
  cbv zeta in N. revert N.
  destruct (negb _); intros N H; injection H as <-; split; auto.
Qed.

Lemma sumQ_acc_nonneg (l : list Q) (acc : Q) :
  0 <= acc -> Forall (fun x => 0 <= x) l -> 0 <= fold_left Qplus l acc.
Proof.
  revert acc. induction l as [|x l IH]; intros acc Ha H; simpl; [exact Ha|].
  inversion H; subst. apply IH; [qlra|assumption].
Qed.

Lemma mean_nonneg (l : list Q) (m : Q) :
  Forall (fun x => 0 <= x) l -> mean l = Ok m -> 0 <= m.
Proof.
  intros H. unfold mean. destruct (Nat.eqb (List.length l) 0) eqn:E; [discriminate|].
  intros Hm. injection Hm as <-. apply Nat.eqb_neq in E.
  apply Qdiv_nonneg; [apply sumQ_acc_nonneg; [qlra|exact H]|].
  change 0 with (inject_Z 0). rewrite <- Zlt_Qlt. lia.
Qed.

Lemma new_variance_range (mape : Q) (n : nat) :
  0.10 <= new_variance_of mape n <= 0.20.
Proof.
  assert (Hn : 0 <= inject_Z (Z.of_nat n))
    by (change 0 with (inject_Z 0); rewrite <- Zle_Qle; lia).
  unfold new_variance_of, Qltb.
  destruct (Qle_bool 10 mape); cbn [negb]; [|split; qdec].
  destruct (Qle_bool 15 mape); cbn [negb]; [|split; qdec].
  destruct (Qle_bool 20 mape); cbn [negb]; [|split; qdec].
  qminmax; split; qlra.
Qed.

Lemma mark_key (cid : string) (o : training_outcome) :
  (to_id (LearnerData.mark_of cid o), to_concept_id (LearnerData.mark_of cid o), to_prediction_id (LearnerData.mark_of cid o),
   actual_revenue_eur (LearnerData.mark_of cid o))
  = (to_id o, to_concept_id o, to_prediction_id o, actual_revenue_eur o).
Proof. unfold LearnerData.mark_of. destruct (String.eqb _ _); reflexivity. Qed.

Lemma mark_concept (cid : string) (o : training_outcome) :
  to_concept_id (LearnerData.mark_of cid o) = to_concept_id o.
Proof. unfold LearnerData.mark_of. destruct (String.eqb _ _); reflexivity. Qed.

Lemma mark_filter_same (cid : string) (l : list training_outcome) :
  filter (fun o => String.eqb (to_concept_id o) cid) (map (LearnerData.mark_of cid) l)
  = map (LearnerData.mark_of cid) (filter (fun o => String.eqb (to_concept_id o) cid) l).
Proof.
  induction l as [|o l IH]; simpl; [reflexivity|].
  rewrite mark_concept. destruct (String.eqb (to_concept_id o) cid); simpl; rewrite IH;
    reflexivity.
Qed.

Lemma mark_filter_other (cid : string) (l : list training_outcome) :
  filter (fun o => negb (String.eqb (to_concept_id o) cid)) (map (LearnerData.mark_of cid) l)
  = filter (fun o => negb (String.eqb (to_concept_id o) cid)) l.
Proof.
  induction l as [|o l IH]; simpl; [reflexivity|].
  rewrite mark_concept. destruct (String.eqb (to_concept_id o) cid) eqn:E; simpl;
    rewrite IH; [reflexivity|].
  unfold LearnerData.mark_of. rewrite E. reflexivity.
Qed.

Lemma mark_used (cid : string) (l : list training_outcome) :
  Forall (fun o => used_in_training o = true)
    (map (LearnerData.mark_of cid) (filter (fun o => String.eqb (to_concept_id o) cid) l)).
Proof.
  induction l as [|o l IH]; simpl; [constructor|].
  destruct (String.eqb (to_concept_id o) cid) eqn:E; simpl; [|exact IH].
  constructor; [unfold LearnerData.mark_of; rewrite E; reflexivity|exact IH].
Qed.

(** What a successful retraining of a stored concept with enough outcomes
    leaves in the session. *)
Lemma retrain_success (pow_half : Q -> Q) (d d' : db) (cid : string) (c : concept) :
  find_concept d cid = Some c ->
  (MIN_OUTCOMES_FOR_TRAINING <= List.length (outcomes_of d cid))%nat ->
  _retrain_concept pow_half d cid = Ok d' ->
  exists mape opt,
    mean (map (fun o => Qabs (variance_pct o)) (outcomes_of d cid)) = Ok mape /\
    (if Nat.leb MIN_OUTCOMES_FOR_WEIGHTS (List.length (outcomes_of d cid))
     then _optimize_weights pow_half (outcomes_of d cid) (weights c) else Ok None) = Ok opt /\
    outcomes d' = map (LearnerData.mark_of cid) (outcomes d) /\
    predictions d' = predictions d /\ next_outcome_id d' = next_outcome_id d /\
    exists c', find_concept d' cid = Some c' /\
      revenue_variance c' = new_variance_of mape (List.length (outcomes_of d cid)) /\
      avg_prediction_error c' = Some mape /\
      last_trained_at c' = Some (utcnow d) /\
      outcomes_count c' = outcomes_count c /\
      weights c' = match opt with Some w => w | None => weights c end.
Proof.
  intros Hc Hn. unfold _retrain_concept. rewrite Hc.
  destruct (Nat.ltb (List.length (outcomes_of d cid)) MIN_OUTCOMES_FOR_TRAINING) eqn:Hl.
  { apply Nat.ltb_lt in Hl. lia. }
  destruct (median (map actual_revenue_eur (outcomes_of d cid))) as [m|e];
    cbn [bind]; [|discriminate].
  destruct (mean _) as [mape|e] eqn:Hmape; cbn [bind]; [|discriminate].
  match goal with |- context [bind ?o _] => destruct o as [opt|e] eqn:Eopt end;
    cbn [bind]; [|discriminate].
  intros H. injection H as <-.
  pose proof (LearnerClaims.find_concept_id _ _ _ Hc) as Hid.
  exists mape, opt. split; [reflexivity|]. split; [exact Eopt|].
  split; [reflexivity|]. split; [reflexivity|]. split; [reflexivity|].
  eexists. split.
  - apply (LearnerClaims.find_concept_put _ _ c);
      [rewrite LearnerClaims.find_concept_set_outcomes; exact Hc|].
    destruct opt; exact Hid.
  - destruct opt; simpl; repeat split; reflexivity.
Qed.

(** X12: when [_optimize_weights] returns new weights it was given at
    least 20 outcomes, and the weights are each between 0 and 1 and sum to
    exactly 1 (the rounding remainder is added to the largest weight). *)
Theorem optimize_weights_normalised (pow_half : Q -> Q) (os : list training_outcome)
  (cw w : Scorer.weights) :
  _optimize_weights pow_half os cw = Ok (Some w) ->
  (MIN_OUTCOMES_FOR_WEIGHTS <= List.length os)%nat /\
  weight_sum w == 1 /\
  0 <= Scorer.w_population w <= 1 /\ 0 <= Scorer.w_income w <= 1 /\
  0 <= Scorer.w_access w <= 1 /\ 0 <= Scorer.w_competition w <= 1 /\
  0 <= Scorer.w_walkability w <= 1.
Proof. apply optimize_weights_ok. Qed.

(** Witness of X12: twenty outcomes with equal correlations for three
    factors give the weights 0.34, 0.33, 0, 0, 0.33. *)
Lemma optimize_weights_normalised_witness :
  exists w,
    _optimize_weights LearnerData.pow_half_one (outcomes LearnerData.featured_session)
      (weights LearnerData.coffee) = Ok (Some w) /\
    Scorer.w_population w = 0.34 /\
    ((MIN_OUTCOMES_FOR_WEIGHTS <= List.length (outcomes LearnerData.featured_session))%nat /\
     weight_sum w == 1 /\
     0 <= Scorer.w_population w <= 1 /\ 0 <= Scorer.w_income w <= 1 /\
     0 <= Scorer.w_access w <= 1 /\ 0 <= Scorer.w_competition w <= 1 /\
     0 <= Scorer.w_walkability w <= 1).
Proof.
  eexists. split; [vm_compute; reflexivity|]. split; [reflexivity|].
  apply (optimize_weights_normalised LearnerData.pow_half_one
    (outcomes LearnerData.featured_session) (weights LearnerData.coffee)).
  vm_compute. reflexivity.
Defined.

(** X13: a successful retraining of a stored concept with at least 5
    outcomes sets its revenue variance to a value between 0.10 and 0.20, its
    average prediction error to a non-negative number and its training time
    to now; it keeps the outcome count, keeps the weights unless at least
    20 outcomes gave normalised new ones, marks every outcome of the concept
    as used in training and leaves the other outcomes as they were. *)
Theorem retrain_concept_effects (pow_half : Q -> Q) (d d' : db) (cid : string)
  (c : concept) :
  find_concept d cid = Some c ->
  (MIN_OUTCOMES_FOR_TRAINING <= List.length (outcomes_of d cid))%nat ->
  _retrain_concept pow_half d cid = Ok d' ->
  (exists c', find_concept d' cid = Some c' /\
    0.10 <= revenue_variance c' <= 0.20 /\
    (exists e, avg_prediction_error c' = Some e /\ 0 <= e) /\
    last_trained_at c' = Some (utcnow d) /\
    outcomes_count c' = outcomes_count c /\
    ((List.length (outcomes_of d cid) < MIN_OUTCOMES_FOR_WEIGHTS)%nat -> weights c' = weights c) /\
    (weights c' = weights c \/
     (weight_sum (weights c') == 1 /\
      0 <= Scorer.w_population (weights c') <= 1 /\ 0 <= Scorer.w_income (weights c') <= 1 /\
      0 <= Scorer.w_access (weights c') <= 1 /\ 0 <= Scorer.w_competition (weights c') <= 1 /\
      0 <= Scorer.w_walkability (weights c') <= 1))) /\
  Forall (fun o => used_in_training o = true) (outcomes_of d' cid) /\
  List.length (outcomes_of d' cid) = List.length (outcomes_of d cid) /\
  filter (fun o => negb (String.eqb (to_concept_id o) cid)) (outcomes d')
    = filter (fun o => negb (String.eqb (to_concept_id o) cid)) (outcomes d).
Proof.
  intros Hc Hn H.
  destruct (retrain_success pow_half d d' cid c Hc Hn H)
    as (mape & opt & Hm & Hopt & Ho & _ & _ & c' & Hc' & Hv & He & Ht & Hcnt & Hw).
  unfold outcomes_of. rewrite Ho, mark_filter_same, mark_filter_other, length_map.
  split; [|split; [apply mark_used|split; reflexivity]].
  exists c'. split; [exact Hc'|]. split; [rewrite Hv; apply new_variance_range|].
  split.
  { exists mape. split; [exact He|]. eapply mean_nonneg; [|exact Hm].
    apply Forall_forall. intros x Hx. apply in_map_iff in Hx.
    destruct Hx as (o & <- & _). apply Qabs_nonneg. }
  split; [exact Ht|]. split; [exact Hcnt|]. rewrite Hw.
  destruct opt as [w|]; [|split; auto].
  fold (outcomes_of d cid) in *.
  destruct (Nat.leb MIN_OUTCOMES_FOR_WEIGHTS (List.length (outcomes_of d cid))) eqn:Eb;
    [|discriminate].
  apply Nat.leb_le in Eb.
  destruct (optimize_weights_ok _ _ _ _ Hopt) as (_ & N).
  split; [intros; lia|right; exact N].
Qed.

(** Witness of X13: retraining [coffee] on the twenty featured outcomes. *)
Lemma retrain_concept_effects_witness :
  exists d', _retrain_concept LearnerData.pow_half_one LearnerData.featured_session
               "coffee"%string = Ok d' /\
  ((exists c', find_concept d' "coffee"%string = Some c' /\
    0.10 <= revenue_variance c' <= 0.20 /\
    (exists e, avg_prediction_error c' = Some e /\ 0 <= e) /\
    last_trained_at c' = Some (utcnow LearnerData.featured_session) /\
    outcomes_count c' = outcomes_count LearnerData.coffee /\
    ((List.length (outcomes_of LearnerData.featured_session "coffee"%string)
       < MIN_OUTCOMES_FOR_WEIGHTS)%nat -> weights c' = weights LearnerData.coffee) /\
    (weights c' = weights LearnerData.coffee \/
     (weight_sum (weights c') == 1 /\
      0 <= Scorer.w_population (weights c') <= 1 /\ 0 <= Scorer.w_income (weights c') <= 1 /\
      0 <= Scorer.w_access (weights c') <= 1 /\ 0 <= Scorer.w_competition (weights c') <= 1 /\
      0 <= Scorer.w_walkability (weights c') <= 1))) /\
  Forall (fun o => used_in_training o = true) (outcomes_of d' "coffee"%string) /\
  List.length (outcomes_of d' "coffee"%string)
    = List.length (outcomes_of LearnerData.featured_session "coffee"%string) /\
  filter (fun o => negb (String.eqb (to_concept_id o) "coffee"%string)) (outcomes d')
    = filter (fun o => negb (String.eqb (to_concept_id o) "coffee"%string))
        (outcomes LearnerData.featured_session)).
Proof.
  eexists. split; [vm_compute; reflexivity|].
  apply (retrain_concept_effects LearnerData.pow_half_one LearnerData.featured_session
    _ "coffee"%string LearnerData.coffee); [reflexivity|vm_compute; lia|vm_compute; reflexivity].
Defined.

Lemma retrain_keys (pow_half : Q -> Q) (d d' : db) (cid : string) :
  _retrain_concept pow_half d cid = Ok d' ->
  map (fun o => (to_id o, to_concept_id o, to_prediction_id o, actual_revenue_eur o))
      (outcomes d')
    = map (fun o => (to_id o, to_concept_id o, to_prediction_id o, actual_revenue_eur o))
        (outcomes d) /\
  next_outcome_id d' = next_outcome_id d /\
  (forall c, find_concept d cid = Some c ->
   exists c', find_concept d' cid = Some c' /\ outcomes_count c' = outcomes_count c).
Proof.
  intros H. destruct (find_concept d cid) as [c|] eqn:Hc.
  - destruct (Nat.ltb (List.length (outcomes_of d cid)) MIN_OUTCOMES_FOR_TRAINING) eqn:Hl.
    + unfold _retrain_concept in H. rewrite Hc, Hl in H. injection H as <-.
      split; [reflexivity|]. split; [reflexivity|]. intros c0 E. exists c0. split; [rewrite Hc; exact E|reflexivity].
    + apply Nat.ltb_ge in Hl.
      destruct (retrain_success pow_half d d' cid c Hc Hl H)
        as (_ & _ & _ & _ & Ho & _ & Hnext & c' & Hc' & _ & _ & _ & Hcnt & _).
      rewrite Ho, map_map. split.
      * apply map_ext. intros o. apply mark_key.
      * split; [exact Hnext|]. intros c0 E. injection E as <-.
        exists c'. split; [exact Hc'|exact Hcnt].
  - unfold _retrain_concept in H. rewrite Hc in H. injection H as <-.
    split; [reflexivity|]. split; [reflexivity|]. intros c0 E. discriminate.
Qed.

(** X14: when [record_outcome] succeeds for a prediction linked to a
    concept, the prediction's revenue was nonzero; the new outcome gets the
    next id and is appended after the stored ones, none of which referred
    to the prediction (retraining changes none
    of their ids, concepts, predictions or revenues); the concept's outcome
    count goes up by one; and the result reports the id, the variance
    rounded to 2 places, the new count, and retraining exactly when that
    count reaches 5. *)
Theorem record_outcome_linked (pow_half : Q -> Q) (d d' : db) (pid : Z) (actual : Q)
  (opened : Z) (p : prediction) (cid : string) (r : record_result) :
  find_prediction d pid = Some p ->
  truthy_str (pred_concept_id p) = Some cid ->
  record_outcome pow_half d pid actual opened = Ok (r, d') ->
  ~ pred_revenue_mid p == 0 /\
  outcome_exists d pid = false /\
  training_outcome_id r = Some (next_outcome_id d) /\
  r_variance_pct r
    = py_round_nd ((actual - pred_revenue_mid p) / pred_revenue_mid p * 100) 2 /\
  next_outcome_id d' = (next_outcome_id d + 1)%Z /\
  map (fun o => (to_id o, to_concept_id o, to_prediction_id o, actual_revenue_eur o))
      (outcomes d')
    = map (fun o => (to_id o, to_concept_id o, to_prediction_id o, actual_revenue_eur o))
        (outcomes d) ++ [(next_outcome_id d, cid, pid, actual)] /\
  exists c c', find_concept d cid = Some c /\ find_concept d' cid = Some c' /\
    outcomes_count c' = (outcomes_count c + 1)%Z /\
    r_outcomes_count r = Some (outcomes_count c + 1)%Z /\
    triggered_retraining r = Z.leb (Z.of_nat MIN_OUTCOMES_FOR_TRAINING) (outcomes_count c + 1).
Proof.
  intros Hp Hcid. unfold record_outcome. rewrite Hp, Hcid.
  destruct (pydiv (actual - pred_revenue_mid p) (pred_revenue_mid p)) as [v|] eqn:Hv;
    cbn [of_div bind]; [|discriminate].
  apply pydiv_some in Hv. destruct Hv as [Hnz ->].
  destruct (outcome_exists d pid) eqn:Hex; [discriminate|].
  unfold find_concept at 1. cbn [concepts]. fold (find_concept d cid).
  destruct (find_concept d cid) as [c|] eqn:Hc; [|discriminate].
  pose proof (LearnerClaims.find_concept_id _ _ _ Hc) as Hid. subst cid.
  cbv zeta.
  match goal with |- context [put_concept ?d1 ?c1] =>
    assert (Hc2 : find_concept (put_concept d1 c1) (concept_id c) = Some c1)
      by (apply (LearnerClaims.find_concept_put _ _ c); [exact Hc|reflexivity]) end.
  destruct (Z.leb _ _) eqn:Hle.
  - match goal with |- context [_retrain_concept pow_half ?d2 ?cc] =>
      destruct (_retrain_concept pow_half d2 cc) as [d3|e] eqn:Hr end;
      cbn [bind]; [|discriminate].
    intros H. injection H as <- <-.
    destruct (retrain_keys _ _ _ _ Hr) as (Hk & Hn & Hcnt).
    destruct (Hcnt _ Hc2) as (c3 & Hc3 & Hcnt3).
    split; [exact Hnz|]. split; [reflexivity|]. split; [reflexivity|]. split; [reflexivity|].
    split; [rewrite Hn; reflexivity|]. split; [rewrite Hk; simpl; rewrite map_app; reflexivity|].
    exists c, c3. repeat split; try (symmetry; exact Hle); auto.
  - intros H. injection H as <- <-.
    split; [exact Hnz|]. split; [reflexivity|]. split; [reflexivity|]. split; [reflexivity|].
    split; [reflexivity|]. split; [simpl; rewrite map_app; reflexivity|].
    exists c. eexists. split; [reflexivity|]. split; [exact Hc2|]. repeat split; symmetry; exact Hle.
Qed.

(** Witness of X14: recording a revenue of 120000 for the prediction of
    [coffee], whose count then reaches 6. *)
Lemma record_outcome_linked_witness :
  exists r d',
    record_outcome LearnerData.pow_half_unused
      (LearnerData.linked_session 100000 [LearnerData.coffee]) 7 120000 1700000000
      = Ok (r, d') /\
    triggered_retraining r = true /\
    (~ 100000 == 0 /\
     outcome_exists (LearnerData.linked_session 100000 [LearnerData.coffee]) 7 = false /\
     training_outcome_id r = Some 1%Z /\
     r_variance_pct r = py_round_nd ((120000 - 100000) / 100000 * 100) 2 /\
     next_outcome_id d' = (1 + 1)%Z /\
     map (fun o => (to_id o, to_concept_id o, to_prediction_id o, actual_revenue_eur o))
         (outcomes d')
       = map (fun o => (to_id o, to_concept_id o, to_prediction_id o, actual_revenue_eur o))
           [] ++ [(1%Z, "coffee"%string, 7%Z, 120000)] /\
     exists c c', find_concept (LearnerData.linked_session 100000 [LearnerData.coffee])
                    "coffee"%string = Some c /\
       find_concept d' "coffee"%string = Some c' /\
       outcomes_count c' = (outcomes_count c + 1)%Z /\
       r_outcomes_count r = Some (outcomes_count c + 1)%Z /\
       triggered_retraining r
         = Z.leb (Z.of_nat MIN_OUTCOMES_FOR_TRAINING) (outcomes_count c + 1)).
Proof.
  do 2 eexists. split; [reflexivity|]. split; [reflexivity|].
  apply (record_outcome_linked LearnerData.pow_half_unused
    (LearnerData.linked_session 100000 [LearnerData.coffee]) _ 7 120000 1700000000
    (mkPrediction 7 (Some "coffee"%string) 100000 70 None) "coffee"%string);
    reflexivity.
Defined.

(** X15: for a prediction linked to a concept, [record_outcome] raises
    ZeroDivisionError when the predicted revenue is 0; otherwise it raises
    IntegrityError at [db.flush()] when a training outcome for the same
    prediction is already stored (the column is unique), and AttributeError
    when there is none but the concept row does not exist. *)
Theorem record_outcome_raises (pow_half : Q -> Q) (d : db) (pid : Z) (actual : Q)
  (opened : Z) (p : prediction) (cid : string) :
  find_prediction d pid = Some p ->
  truthy_str (pred_concept_id p) = Some cid ->
  (pred_revenue_mid p == 0 ->
   record_outcome pow_half d pid actual opened = Raise ZeroDivisionError) /\
  (~ pred_revenue_mid p == 0 -> outcome_exists d pid = true ->
   record_outcome pow_half d pid actual opened = Raise IntegrityError) /\
  (~ pred_revenue_mid p == 0 -> outcome_exists d pid = false -> find_concept d cid = None ->
   record_outcome pow_half d pid actual opened = Raise AttributeError).
Proof.
  intros Hp Hcid. unfold record_outcome. rewrite Hp, Hcid. unfold pydiv. split; [|split].
  - intros Hz. apply Qeq_bool_iff in Hz. rewrite Hz. reflexivity.
  - intros Hz Hex. destruct (Qeq_bool (pred_revenue_mid p) 0) eqn:E;
      [apply Qeq_bool_iff in E; contradiction|].
    cbn [of_div bind]. rewrite Hex. reflexivity.
  - intros Hz Hex Hc. destruct (Qeq_bool (pred_revenue_mid p) 0) eqn:E;
      [apply Qeq_bool_iff in E; contradiction|].
    cbn [of_div bind]. rewrite Hex. unfold find_concept at 1. cbn [concepts].
    fold (find_concept d cid). rewrite Hc. reflexivity.
Qed.

(** Witness of X15: a prediction of [coffee] with predicted revenue 0, in a
    session without concepts; with revenue 100000 and an outcome already
    stored for it; and with revenue 100000, no outcome and no concept. *)
Lemma record_outcome_raises_witness :
  record_outcome LearnerData.pow_half_unused (LearnerData.linked_session 0 []) 7 120000 0
    = Raise ZeroDivisionError /\
  record_outcome LearnerData.pow_half_unused LearnerData.duplicate_session 7 120000 0
    = Raise IntegrityError /\
  record_outcome LearnerData.pow_half_unused (LearnerData.linked_session 100000 []) 7 120000 0
    = Raise AttributeError.
Proof.
  split; [|split].
  - apply (record_outcome_raises LearnerData.pow_half_unused (LearnerData.linked_session 0 [])
      7 120000 0 (mkPrediction 7 (Some "coffee"%string) 0 70 None) "coffee"%string);
      reflexivity.
  - apply (record_outcome_raises LearnerData.pow_half_unused LearnerData.duplicate_session
      7 120000 0 (mkPrediction 7 (Some "coffee"%string) 100000 70 None) "coffee"%string);
      first [reflexivity | unfold Qeq; simpl; discriminate].
  - apply (record_outcome_raises LearnerData.pow_half_unused (LearnerData.linked_session 100000 [])
      7 120000 0 (mkPrediction 7 (Some "coffee"%string) 100000 70 None) "coffee"%string);
      first [reflexivity | unfold Qeq; simpl; discriminate].
Defined.

End LearnerExtras.

(** ** Job registry: lifecycle, streaming and cleanup *)

Module JobsExtras.
Import Jobs.
Local Open Scope string_scope.
Local Open Scope list_scope.

Section DictFacts.
Context {V : Type}.

Lemma lookup_cons (k ka : string) (va : V) (l : list (string * V)) :
  lookup k ((ka, va) :: l) = if String.eqb ka k then Some va else lookup k l.
Proof. unfold lookup. simpl. destruct (String.eqb ka k); reflexivity. Qed.

Lemma lookup_nil (k : string) : lookup k (@nil (string * V)) = None.
Proof. reflexivity. Qed.

Lemma lookup_set_eq (k : string) (v : V) (d : list (string * V)) :
  lookup k (set k v d) = Some v.
Proof.
  unfold set. destruct (existsb (fun p => String.eqb (fst p) k) d) eqn:E.
  - induction d as [|[ka va] l IH]; simpl in *; [discriminate|].
    destruct (String.eqb ka k) eqn:Ek; simpl in *.
    + rewrite lookup_cons, String.eqb_refl. reflexivity.
    + rewrite lookup_cons, Ek. apply IH, E.
  - induction d as [|[ka va] l IH]; simpl in *.
    + rewrite lookup_cons, String.eqb_refl. reflexivity.
    + destruct (String.eqb ka k) eqn:Ek; simpl in *; [discriminate|].
      rewrite lookup_cons, Ek. apply IH, E.
Qed.

Lemma lookup_set_neq (k k' : string) (v : V) (d : list (string * V)) :
  k' <> k -> lookup k' (set k v d) = lookup k' d.
Proof.
  intros Hne. assert (Hkk : String.eqb k k' = false) by (apply String.eqb_neq; auto).
  unfold set. destruct (existsb (fun p => String.eqb (fst p) k) d) eqn:E; clear E.
  - induction d as [|[ka va] l IH]; simpl; [reflexivity|].
    destruct (String.eqb ka k) eqn:Ek; rewrite !lookup_cons, IH.
    + apply String.eqb_eq in Ek. subst ka. rewrite Hkk. reflexivity.
    + reflexivity.
  - induction d as [|[ka va] l IH]; simpl.
    + rewrite lookup_cons, Hkk. reflexivity.
    + rewrite !lookup_cons, IH. reflexivity.
Qed.

Lemma keys_set (k : string) (v : V) (d : list (string * V)) :
  map fst (set k v d)
  = if existsb (fun p => String.eqb (fst p) k) d then map fst d else map fst d ++ [k].
Proof.
  unfold set. destruct (existsb _ d).
  - rewrite map_map. apply map_ext. intros [ka va]. simpl.
    destruct (String.eqb ka k) eqn:E; [apply String.eqb_eq in E; auto|reflexivity].
  - rewrite map_app. reflexivity.
Qed.

Lemma NoDup_set (k : string) (v : V) (d : list (string * V)) :
  NoDup (map fst d) -> NoDup (map fst (set k v d)).
Proof.
  intros H. rewrite keys_set. destruct (existsb _ d) eqn:E; [exact H|].
  apply (Permutation_NoDup (Permutation_cons_append _ _)). constructor; [|exact H].
  intros Hin. apply in_map_iff in Hin. destruct Hin as ([ka va] & Hk & Hin). simpl in Hk.
  subst ka. assert (Ht : existsb (fun p => String.eqb (fst p) k) d = true).
  { apply existsb_exists. exists (k, va). split; [exact Hin|apply String.eqb_refl]. }
  congruence.
Qed.

Lemma lookup_remove (k k' : string) (d : list (string * V)) :
  lookup k' (remove k d) = if String.eqb k' k then None else lookup k' d.
Proof.
  unfold remove. induction d as [|[ka va] l IH]; simpl.
  - destruct (String.eqb k' k); reflexivity.
  - destruct (String.eqb ka k) eqn:Ek; simpl.
    + rewrite IH. apply String.eqb_eq in Ek. subst ka.
      rewrite lookup_cons. destruct (String.eqb k' k) eqn:E'; [reflexivity|].
      rewrite String.eqb_sym, E'. reflexivity.
    + rewrite !lookup_cons, IH. destruct (String.eqb k' k) eqn:E'; [|reflexivity].
      apply String.eqb_eq in E'. subst k'. rewrite Ek. reflexivity.
Qed.

Lemma NoDup_remove_keys (k : string) (d : list (string * V)) :
  NoDup (map fst d) -> NoDup (map fst (remove k d)).
Proof.
  unfold remove. induction d as [|[ka va] l IH]; simpl; intros H; [constructor|].
  apply NoDup_cons_iff in H. destruct H as [H2 H3].
  destruct (negb (String.eqb ka k)); simpl; [|apply IH; assumption].
  constructor; [|apply IH; assumption].
  intros Hin. apply H2. apply in_map_iff in Hin. destruct Hin as (p & <- & Hp).
  apply filter_In in Hp. apply in_map, Hp.
Qed.

Lemma lookup_in_nodup (k : string) (v : V) (d : list (string * V)) :
  NoDup (map fst d) -> lookup k d = Some v ->
  In (k, v) d /\ forall v', In (k, v') d -> v' = v.
Proof.
  induction d as [|[ka va] l IH]; intros Hn H; [discriminate|].
  rewrite lookup_cons in H. simpl in Hn. apply NoDup_cons_iff in Hn. destruct Hn as [Hn1 Hn2].
  destruct (String.eqb ka k) eqn:Ek.
  - apply String.eqb_eq in Ek. subst ka. injection H as <-.
    split; [left; reflexivity|]. intros v' [E|Hin]; [congruence|].
    exfalso. apply Hn1. apply (in_map fst) in Hin. exact Hin.
  - destruct (IH Hn2 H) as [Hin Hu]. split; [right; exact Hin|].
    intros v' [E|Hin']; [|apply Hu, Hin'].
    injection E as E _. subst ka. rewrite String.eqb_refl in Ek. discriminate.
Qed.

Lemma lookup_none_not_in (k : string) (v : V) (d : list (string * V)) :
  lookup k d = None -> ~ In (k, v) d.
Proof.
  induction d as [|[ka va] l IH]; intros H Hin; [destruct Hin|].
  rewrite lookup_cons in H. destruct (String.eqb ka k) eqn:Ek; [discriminate|].
  destruct Hin as [E|Hin]; [|exact (IH H Hin)].
  injection E as -> _. rewrite String.eqb_refl in Ek. discriminate.
Qed.

End DictFacts.

Lemma put_events_queue (m : manager) (jid : string) (es : list event) :
  lookup jid (job_queues (put_events m jid es))
    = option_map (fun q => q ++ es) (lookup jid (job_queues m)).
Proof.
  unfold put_events. destruct (lookup jid (job_queues m)) eqn:E; simpl; [|exact E].
  apply lookup_set_eq.
Qed.

Lemma put_events_queue_other (m : manager) (jid k : string) (es : list event) :
  k <> jid -> lookup k (job_queues (put_events m jid es)) = lookup k (job_queues m).
Proof.
  intros H. unfold put_events. destruct (lookup jid (job_queues m)); [|reflexivity].
  apply lookup_set_neq, H.
Qed.

Lemma put_events_nodup (m : manager) (jid : string) (es : list event) :
  NoDup (map fst (job_queues m)) -> NoDup (map fst (job_queues (put_events m jid es))).
Proof.
  intros H. unfold put_events. destruct (lookup jid (job_queues m)); [|exact H].
  apply NoDup_set, H.
Qed.

Lemma drain_app (q rest : list event) (e : event) :
  ~ In EndOfStream q -> e <> EndOfStream ->
  drain (q ++ e :: EndOfStream :: rest) = (q ++ [e], Some rest).
Proof.
  intros Hq He. induction q as [|x q IH]; simpl.
  - destruct e; [reflexivity..|contradiction].
  - destruct x; simpl; try (rewrite IH; [reflexivity|intro; apply Hq; right; assumption]).
    exfalso. apply Hq. left. reflexivity.
Qed.

Lemma cleanup_fold_jobs (ks : list string) (m : manager) (k : string) :
  lookup k (jobs (fold_left (fun m' jid => mkManager (remove jid (jobs m'))
                   (remove jid (job_queues m')) (ttl_seconds m')) ks m))
  = if existsb (fun x => String.eqb k x) ks then None else lookup k (jobs m).
Proof.
  revert m. induction ks as [|x ks IH]; intros m; simpl; [reflexivity|].
  rewrite IH. simpl. rewrite lookup_remove.
  destruct (String.eqb k x), (existsb _ ks); reflexivity.
Qed.

Lemma cleanup_fold_queues (ks : list string) (m : manager) (k : string) :
  lookup k (job_queues (fold_left (fun m' jid => mkManager (remove jid (jobs m'))
                   (remove jid (job_queues m')) (ttl_seconds m')) ks m))
  = if existsb (fun x => String.eqb k x) ks then None else lookup k (job_queues m).
Proof.
  revert m. induction ks as [|x ks IH]; intros m; simpl; [reflexivity|].
  rewrite IH. simpl. rewrite lookup_remove.
  destruct (String.eqb k x), (existsb _ ks); reflexivity.
Qed.

Lemma expired_member (m : manager) (now : Z) (k : string) :
  NoDup (map fst (jobs m)) ->
  existsb (fun x => String.eqb k x)
    (map fst (filter (fun p => Z.ltb (expires_at (snd p)) now) (jobs m)))
  = match lookup k (jobs m) with Some j => Z.ltb (expires_at j) now | None => false end.
Proof.
  intros Hn. destruct (lookup k (jobs m)) as [j|] eqn:E.
  - destruct (lookup_in_nodup k j _ Hn E) as [Hin Hu].
    destruct (Z.ltb (expires_at j) now) eqn:Ej.
    + apply existsb_exists. exists k. split; [|apply String.eqb_refl].
      apply in_map_iff. exists (k, j). split; [reflexivity|]. apply filter_In. auto.
    + apply Bool.not_true_iff_false. intros Ht. apply existsb_exists in Ht.
      destruct Ht as (x & Hx & Ex). apply String.eqb_eq in Ex. subst x.
      apply in_map_iff in Hx. destruct Hx as ([ka va] & Hk & Hx). simpl in Hk. subst ka.
      apply filter_In in Hx. destruct Hx as [Hx Hl]. simpl in Hl.
      rewrite (Hu va Hx) in Hl. congruence.
  - apply Bool.not_true_iff_false. intros Ht. apply existsb_exists in Ht.
    destruct Ht as (x & Hx & Ex). apply String.eqb_eq in Ex. subst x.
    apply in_map_iff in Hx. destruct Hx as ([ka va] & Hk & Hx). simpl in Hk. subst ka.
    apply filter_In in Hx. exact (lookup_none_not_in k va _ E (proj1 Hx)).
Qed.

(** X16: [create_job] returns the id it was given; the job it registers
    under that id is pending, expires [ttl_seconds] after its creation, has
    no stages, warnings, result or error, and gets an empty event queue, so
    a stream opened on it yields nothing yet and waits; other jobs are as
    they were. *)
Theorem create_job_registers (m : manager) (jid : string) (now : Z)
  (city concept : string) (limit : Z) (incl : bool) :
  fst (create_job m jid now city concept limit incl) = jid /\
  get_job (snd (create_job m jid now city concept limit incl)) jid
    = Some (mkJob jid "pending" city concept limit incl now (now + ttl_seconds m)
              [] [] None None None) /\
  (forall k, k <> jid ->
     get_job (snd (create_job m jid now city concept limit incl)) k = get_job m k) /\
  lookup jid (job_queues (snd (create_job m jid now city concept limit incl))) = Some [] /\
  fst (fst (stream_job_events (snd (create_job m jid now city concept limit incl)) jid)) = [] /\
  snd (fst (stream_job_events (snd (create_job m jid now city concept limit incl)) jid))
    = false.
Proof.
  unfold create_job, get_job, stream_job_events. simpl.
  rewrite !lookup_set_eq. split; [reflexivity|]. split; [reflexivity|].
  split; [intros k Hk; apply lookup_set_neq, Hk|]. repeat split; reflexivity.
Qed.

(** X17: completing a registered job whose queue holds the events [q] (no
    end marker) sets its status to "complete", or to "degraded" when there
    are warnings, and stores the result, the warnings and the completion
    time; a stream then yields [q] followed by the completion event and
    returns, leaving the queue empty.  Other jobs are as they were. *)
Theorem complete_job_then_stream (m : manager) (jid res : string) (ws : list string)
  (now : Z) (j : job) (q : list event) :
  get_job m jid = Some j ->
  lookup jid (job_queues m) = Some q ->
  ~ In EndOfStream q ->
  get_job (complete_job m jid res ws now) jid
    = Some (mkJob (job_id j) (match ws with [] => "complete" | _ :: _ => "degraded" end)
              (city j) (concept j) (limit j) (include_crime j) (created_at j)
              (expires_at j) (stages j) ws (Some res) (error j) (Some now)) /\
  (forall k, k <> jid -> get_job (complete_job m jid res ws now) k = get_job m k) /\
  fst (fst (stream_job_events (complete_job m jid res ws now) jid))
    = q ++ [CompletionEvent jid res] /\
  snd (fst (stream_job_events (complete_job m jid res ws now) jid)) = true /\
  lookup jid (job_queues (snd (stream_job_events (complete_job m jid res ws now) jid)))
    = Some [].
Proof.
  intros Hj Hq Hn. unfold complete_job. unfold get_job in Hj. rewrite Hj. cbv zeta.
  unfold get_job. rewrite JobsClaims.put_events_jobs. simpl.
  split; [apply lookup_set_eq|]. split; [intros k Hk; apply lookup_set_neq, Hk|].
  unfold stream_job_events. rewrite put_events_queue. simpl. rewrite Hq. simpl.
  rewrite (drain_app q [] (CompletionEvent jid res) Hn ltac:(discriminate)).
  split; [reflexivity|]. split; [reflexivity|]. apply lookup_set_eq.
Qed.

(** Witness of X17: the job just created by the registry, completed
    without warnings. *)
Lemma complete_job_then_stream_witness :
  let m := snd (create_job (empty_manager 3600) "job-1" 0 "Helsinki" "coffee" 10 false) in
  exists j, get_job m "job-1" = Some j /\ lookup "job-1" (job_queues m) = Some [] /\
    ~ In EndOfStream [] /\
    fst (fst (stream_job_events (complete_job m "job-1" "result" [] 60) "job-1"))
      = [CompletionEvent "job-1" "result"] /\
    (exists j', get_job (complete_job m "job-1" "result" [] 60) "job-1" = Some j' /\
       status j' = "complete").
Proof.
  cbv zeta. eexists. split; [reflexivity|]. split; [reflexivity|].
  split; [intros []|].
  destruct (complete_job_then_stream
    (snd (create_job (empty_manager 3600) "job-1" 0 "Helsinki" "coffee" 10 false))
    "job-1" "result" [] 60 _ [] eq_refl eq_refl (fun H => H)) as (E1 & _ & E2 & _).
  split; [exact E2|]. eexists. split; [exact E1|reflexivity].
Defined.

(** X18: failing a registered job whose queue holds the events [q] (no end
    marker) sets its status to "failed" and stores the error and the
    completion time; a stream then yields [q] followed by the failure event
    and returns, leaving the queue empty.  Other jobs are as they were. *)
Theorem fail_job_then_stream (m : manager) (jid err : string) (now : Z) (j : job)
  (q : list event) :
  get_job m jid = Some j ->
  lookup jid (job_queues m) = Some q ->
  ~ In EndOfStream q ->
  get_job (fail_job m jid err now) jid
    = Some (mkJob (job_id j) "failed" (city j) (concept j) (limit j) (include_crime j)
              (created_at j) (expires_at j) (stages j) (degraded j) (result j)
              (Some err) (Some now)) /\
  (forall k, k <> jid -> get_job (fail_job m jid err now) k = get_job m k) /\
  fst (fst (stream_job_events (fail_job m jid err now) jid)) = q ++ [FailureEvent jid err] /\
  snd (fst (stream_job_events (fail_job m jid err now) jid)) = true /\
  lookup jid (job_queues (snd (stream_job_events (fail_job m jid err now) jid))) = Some [].
Proof.
  intros Hj Hq Hn. unfold fail_job. unfold get_job in Hj. rewrite Hj. cbv zeta.
  unfold get_job. rewrite JobsClaims.put_events_jobs. simpl.
  split; [apply lookup_set_eq|]. split; [intros k Hk; apply lookup_set_neq, Hk|].
  unfold stream_job_events. rewrite put_events_queue. simpl. rewrite Hq. simpl.
  rewrite (drain_app q [] (FailureEvent jid err) Hn ltac:(discriminate)).
  split; [reflexivity|]. split; [reflexivity|]. apply lookup_set_eq.
Qed.

(** Witness of X18: the job just created by the registry, failed. *)
Lemma fail_job_then_stream_witness :
  let m := snd (create_job (empty_manager 3600) "job-1" 0 "Helsinki" "coffee" 10 false) in
  exists j, get_job m "job-1" = Some j /\ lookup "job-1" (job_queues m) = Some [] /\
    ~ In EndOfStream [] /\
    fst (fst (stream_job_events (fail_job m "job-1" "timeout" 60) "job-1"))
      = [FailureEvent "job-1" "timeout"].
Proof.
  cbv zeta. eexists. split; [reflexivity|]. split; [reflexivity|].
  split; [intros []|].
  destruct (fail_job_then_stream
    (snd (create_job (empty_manager 3600) "job-1" 0 "Helsinki" "coffee" 10 false))
    "job-1" "timeout" 60 _ [] eq_refl eq_refl (fun H => H)) as (_ & _ & E & _).
  exact E.
Defined.

(** X19: a stage update of a registered job records the stage (replacing an
    earlier report of the same stage), leaves the job's status and its
    other stages as they were, and appends one stage event to the job's
    queue when it has one; other jobs are as they were. *)
Theorem emit_stage_update_records (m : manager) (jid stage st : string)
  (metrics : list (string * Z)) (ms : option Z) (cached : bool) (now : Z) (j : job) :
  get_job m jid = Some j ->
  (exists j', get_job (emit_stage_update m jid stage st metrics ms cached now) jid = Some j' /\
     status j' = status j /\ expires_at j' = expires_at j /\
     lookup stage (stages j') = Some (mkStage st metrics ms cached now) /\
     forall s, s <> stage -> lookup s (stages j') = lookup s (stages j)) /\
  (forall k, k <> jid ->
     get_job (emit_stage_update m jid stage st metrics ms cached now) k = get_job m k) /\
  lookup jid (job_queues (emit_stage_update m jid stage st metrics ms cached now))
    = option_map (fun q => q ++ [StageEvent jid stage st metrics ms cached])
        (lookup jid (job_queues m)).
Proof.
  intros Hj. unfold emit_stage_update. unfold get_job in Hj. rewrite Hj. cbv zeta.
  unfold get_job. rewrite JobsClaims.put_events_jobs. simpl.
  split; [|split; [intros k Hk; apply lookup_set_neq, Hk|rewrite put_events_queue; reflexivity]].
  eexists. split; [apply lookup_set_eq|]. simpl. split; [reflexivity|].
  split; [reflexivity|]. split; [apply lookup_set_eq|]. intros s Hs. apply lookup_set_neq, Hs.
Qed.

(** Witness of X19: the geocoding stage of the sample job, reported at
    60 s. *)
Lemma emit_stage_update_records_witness :
  let m := snd (create_job (empty_manager 3600) "job-1" 0 "Helsinki" "coffee" 10 false) in
  exists j, get_job m "job-1" = Some j /\
    lookup "job-1" (job_queues (emit_stage_update m "job-1" "GEO" "done" [] (Some 120%Z) false 60))
      = Some [StageEvent "job-1" "GEO" "done" [] (Some 120%Z) false].
Proof.
  cbv zeta. eexists. split; [reflexivity|].
  destruct (emit_stage_update_records
    (snd (create_job (empty_manager 3600) "job-1" 0 "Helsinki" "coffee" 10 false))
    "job-1" "GEO" "done" [] (Some 120%Z) false 60 _ eq_refl) as (_ & _ & E).
  rewrite E. reflexivity.
Defined.

(** X21: when job ids are unique, [cleanup_expired_jobs] at time [now]
    removes exactly the jobs whose [expires_at] is before [now], together
    with their queues, and keeps every other job and queue. *)
Theorem cleanup_removes_expired (m : manager) (now : Z) :
  NoDup (map fst (jobs m)) ->
  forall k,
    get_job (cleanup_expired_jobs m now) k
      = match get_job m k with
        | Some j => if Z.ltb (expires_at j) now then None else Some j
        | None => None
        end /\
    lookup k (job_queues (cleanup_expired_jobs m now))
      = match get_job m k with
        | Some j => if Z.ltb (expires_at j) now then None else lookup k (job_queues m)
        | None => lookup k (job_queues m)
        end.
Proof.
  intros Hn k. unfold cleanup_expired_jobs, get_job. cbv zeta.
  rewrite cleanup_fold_jobs, cleanup_fold_queues, (expired_member m now k Hn).
  destruct (lookup k (jobs m)) as [j|] eqn:E; [|split; reflexivity].
  destruct (Z.ltb (expires_at j) now); split; reflexivity.
Qed.

(** Witness of X21: the sample run cleaned up at 7200 s, long after its
    job expired. *)
Lemma cleanup_removes_expired_witness :
  NoDup (map fst (jobs JobsData.stale_run)) /\
  get_job (cleanup_expired_jobs JobsData.stale_run 7200) "job-1" = None /\
  get_job (cleanup_expired_jobs JobsData.stale_run 60) "job-1"
    = get_job JobsData.stale_run "job-1".
Proof.
  assert (Hn : NoDup (map fst (jobs JobsData.stale_run)))
    by (vm_compute; constructor; [intros []|constructor]).
  split; [exact Hn|]. split.
  - rewrite (proj1 (cleanup_removes_expired JobsData.stale_run 7200 Hn "job-1")).
    reflexivity.
  - rewrite (proj1 (cleanup_removes_expired JobsData.stale_run 60 Hn "job-1")).
    reflexivity.
Defined.

Lemma cleanup_fold_nodup (ks : list string) (m : manager) :
  NoDup (map fst (jobs m)) -> NoDup (map fst (job_queues m)) ->
  NoDup (map fst (jobs (fold_left (fun m' jid => mkManager (remove jid (jobs m'))
                   (remove jid (job_queues m')) (ttl_seconds m')) ks m))) /\
  NoDup (map fst (job_queues (fold_left (fun m' jid => mkManager (remove jid (jobs m'))
                   (remove jid (job_queues m')) (ttl_seconds m')) ks m))).
Proof.
  revert m. induction ks as [|x ks IH]; intros m Hj Hq; simpl; [split; assumption|].
  apply IH; simpl; apply NoDup_remove_keys; assumption.
Qed.

(** X22: every operation on the registry keeps job ids and queue ids
    unique: the operations of the application ([app_step]: creating a job,
    marking it running, emitting a stage update, completing or failing it),
    draining a job's queue with [stream_job_events], and
    [cleanup_expired_jobs]. *)
Theorem app_step_keeps_ids_unique (m : manager) :
  NoDup (map fst (jobs m)) -> NoDup (map fst (job_queues m)) ->
  (forall m', app_step m m' ->
     NoDup (map fst (jobs m')) /\ NoDup (map fst (job_queues m'))) /\
  (forall jid, NoDup (map fst (jobs (snd (stream_job_events m jid)))) /\
               NoDup (map fst (job_queues (snd (stream_job_events m jid))))) /\
  (forall now, NoDup (map fst (jobs (cleanup_expired_jobs m now))) /\
               NoDup (map fst (job_queues (cleanup_expired_jobs m now)))).
Proof.
  intros Hj Hq. split; [|split].
  - intros m' Hs. destruct Hs.
    + simpl. split; apply NoDup_set; assumption.
    + unfold mark_running, get_job. destruct (lookup jid (jobs m)); [|auto].
      simpl. split; [apply NoDup_set|]; assumption.
    + unfold emit_stage_update. destruct (lookup jid (jobs m)); [|auto]. cbv zeta.
      rewrite JobsClaims.put_events_jobs. split; [apply NoDup_set, Hj|].
      apply put_events_nodup, Hq.
    + unfold complete_job. destruct (lookup jid (jobs m)); [|auto]. cbv zeta.
      rewrite JobsClaims.put_events_jobs. split; [apply NoDup_set, Hj|].
      apply put_events_nodup, Hq.
    + unfold fail_job. destruct (lookup jid (jobs m)); [|auto]. cbv zeta.
      rewrite JobsClaims.put_events_jobs. split; [apply NoDup_set, Hj|].
      apply put_events_nodup, Hq.
  - intros jid. unfold stream_job_events.
    destruct (lookup jid (job_queues m)); [|split; assumption].
    destruct (drain l) as [ys [rest|]]; simpl; (split; [exact Hj|apply NoDup_set, Hq]).
  - intros now. unfold cleanup_expired_jobs. apply cleanup_fold_nodup; assumption.
Qed.

(** Witness of X22: creating the first job of an empty registry, then
    streaming its events and cleaning up. *)
Lemma app_step_keeps_ids_unique_witness :
  NoDup (map fst (jobs (snd (create_job (empty_manager 3600) "job-1" 0 "Helsinki"
                               "coffee" 10 false)))) /\
  NoDup (map fst (job_queues (snd (stream_job_events JobsData.stale_run "job-1")))) /\
  NoDup (map fst (jobs (cleanup_expired_jobs JobsData.stale_run 7200))).
Proof.
  split.
  - apply (proj1 (app_step_keeps_ids_unique (empty_manager 3600) (NoDup_nil _) (NoDup_nil _))
      (snd (create_job (empty_manager 3600) "job-1" 0 "Helsinki" "coffee" 10 false))).
    apply AppCreate; reflexivity.
  - assert (Hn : NoDup (map fst (jobs JobsData.stale_run)) /\
                 NoDup (map fst (job_queues JobsData.stale_run)))
      by (split; (vm_compute; constructor; [intros []|constructor])).
    destruct (app_step_keeps_ids_unique JobsData.stale_run (proj1 Hn) (proj2 Hn))
      as (_ & Hs & Hc).
    split; [exact (proj2 (Hs "job-1"))|exact (proj1 (Hc 7200%Z))].
Defined.

End JobsExtras.

(** ** Further properties of the trust metrics *)

Module TrustExtras.
Import Trust.
Local Open Scope R_scope.
Local Open Scope list_scope.

Lemma count_present_le (fields : list string) (f : list (string * option R)) :
  (count_present fields f <= List.length fields)%nat.
Proof. unfold count_present. apply filter_length_le. Qed.

Lemma count_present_all (fields : list string) (f : list (string * option R)) :
  (forall k, In k fields -> is_present f k = true) ->
  count_present fields f = List.length fields.
Proof.
  unfold count_present. induction fields as [|k l IH]; intros H; [reflexivity|].
  simpl. rewrite (H k (or_introl eq_refl)). simpl.
  rewrite IH; [reflexivity|]. intros x Hx. apply H. right. exact Hx.
Qed.

Lemma count_present_none (fields : list string) (f : list (string * option R)) :
  (forall k, In k fields -> is_present f k = false) ->
  count_present fields f = 0%nat.
Proof.
  unfold count_present. induction fields as [|k l IH]; intros H; [reflexivity|].
  simpl. rewrite (H k (or_introl eq_refl)).
  apply IH. intros x Hx. apply H. right. exact Hx.
Qed.

Lemma py_round_2_unit (x : R) : 0 <= x <= 1 -> 0 <= py_round_nd_R x 2 <= 1.
Proof.
  intros [H0 H1]. unfold py_round_nd_R.
  replace (10 ^ 2) with 100 by ring.
  assert (Hu : (round_half_even_R (x * 100) <= 100)%Z)
    by (apply TrustClaims.round_half_even_R_le; rlra).
  assert (Hl : (0 <= round_half_even_R (x * 100))%Z)
    by (apply AddressScoringExtras.round_half_even_R_ge; rlra).
  apply IZR_le in Hu. apply IZR_le in Hl. split; rlra.
Qed.

Lemma py_round_2_int (x : R) (n : Z) : x = IZR n -> py_round_nd_R x 2 = IZR n.
Proof.
  intros ->. unfold py_round_nd_R.
  replace (IZR n * 10 ^ 2) with (IZR (n * 100)) by (rewrite mult_IZR; simpl; ring).
  rewrite AddressScoringExtras.round_half_even_R_IZR, mult_IZR. simpl. field.
Qed.

Lemma share_unit (d : nat) (n : nat) :
  (d <= n)%nat -> (0 < n)%nat -> 0 <= INR d / INR n <= 1.
Proof.
  intros Hd Hn. apply le_INR in Hd. apply lt_0_INR in Hn.
  pose proof (pos_INR d).
  split.
  - apply Rmult_le_pos; [exact H|]. left. apply Rinv_0_lt_compat. exact Hn.
  - apply (Rmult_le_reg_r (INR n)); [exact Hn|].
    unfold Rdiv. rewrite Rmult_assoc, Rinv_l by rlra. rlra.
Qed.

Lemma coverage_unit (f : list (string * option R)) :
  0 <= demographics (calculate_coverage f) <= 1 /\
  0 <= competition (calculate_coverage f) <= 1 /\
  0 <= transit (calculate_coverage f) <= 1 /\
  0 <= overall (calculate_coverage f) <= 1.
Proof.
  unfold calculate_coverage. cbv zeta. cbn [demographics competition transit overall].
  match goal with |- context [INR (count_present ?l1 f) / INR (List.length ?l1)] =>
    pose proof (share_unit _ _ (count_present_le l1 f) ltac:(simpl; lia)) as Hd;
    set (dd := INR (count_present l1 f) / INR (List.length l1)) in * end.
  match goal with |- context [INR (count_present ?l1 f) / INR (List.length ?l1)] =>
    pose proof (share_unit _ _ (count_present_le l1 f) ltac:(simpl; lia)) as Hc;
    set (cc := INR (count_present l1 f) / INR (List.length l1)) in * end.
  match goal with |- context [INR (count_present ?l1 f) / INR (List.length ?l1)] =>
    pose proof (share_unit _ _ (count_present_le l1 f) ltac:(simpl; lia)) as Ht;
    set (tt := INR (count_present l1 f) / INR (List.length l1)) in * end.
  clearbody dd cc tt.
  repeat split; try apply py_round_2_unit; try tauto; rlra.
Qed.

(** X23: every field of the [DataCoverage] that [calculate_coverage] returns
    lies in [0, 1], whatever the feature dict holds. When all eight counted
    fields are present (not missing and not [None]) the coverage is
    1/1/1/1, and when none is present it is 0/0/0/0. *)
Theorem coverage_range_and_extremes (f : list (string * option R)) :
  (0 <= demographics (calculate_coverage f) <= 1 /\
   0 <= competition (calculate_coverage f) <= 1 /\
   0 <= transit (calculate_coverage f) <= 1 /\
   0 <= overall (calculate_coverage f) <= 1) /\
  ((forall k, In k ["population_1km"; "population_density"; "median_income";
                    "competitors_count"; "competitors_per_1k_residents";
                    "nearest_metro_distance_m"; "nearest_tram_distance_m";
                    "walkability_poi_count"]%string ->
              is_present f k = true) ->
   calculate_coverage f = mkCoverage 1 1 1 1) /\
  ((forall k, In k ["population_1km"; "population_density"; "median_income";
                    "competitors_count"; "competitors_per_1k_residents";
                    "nearest_metro_distance_m"; "nearest_tram_distance_m";
                    "walkability_poi_count"]%string ->
              is_present f k = false) ->
   calculate_coverage f = mkCoverage 0 0 0 0).
Proof.
  split; [apply coverage_unit|]. split.
  - intros H. unfold calculate_coverage. cbv zeta.
    rewrite !count_present_all by (intros k Hk; apply H; simpl in *; tauto).
    f_equal; apply (py_round_2_int _ 1); simpl List.length;
      rewrite ?(INR_IZR_INZ 3), ?(INR_IZR_INZ 2); simpl Z.of_nat; rlra.
  - intros H. unfold calculate_coverage. cbv zeta.
    rewrite !count_present_none by (intros k Hk; apply H; simpl in *; tauto).
    f_equal; apply (py_round_2_int _ 0); simpl List.length;
      rewrite ?(INR_IZR_INZ 3), ?(INR_IZR_INZ 2), ?(INR_IZR_INZ 0); simpl Z.of_nat; rlra.
Qed.

(** X24: the confidence computed from any score-components dict and the
    coverage [calculate_coverage] returns for any feature dict (as the
    analysis endpoints chain them) lies in [0, 1]. *)
Theorem confidence_of_coverage_range (sc : list (string * R))
  (f : list (string * option R)) :
  0 <= calculate_confidence sc (calculate_coverage f) <= 1.
Proof.
  destruct (coverage_unit f) as (_ & _ & _ & Hov).
  set (cov := calculate_coverage f) in *. clearbody cov.
  unfold calculate_confidence. cbv zeta.
  match goal with |- context [sqrt ?v] =>
    pose proof (sqrt_pos v); set (sd := sqrt v) in * end.
  assert (Hc : 0 <= Rmax 0 (1 - sd / 50) <= 1)
    by (split; [apply Rmax_l | apply Rmax_lub; rlra]).
  set (cm := Rmax 0 (1 - sd / 50)) in *. clearbody cm.
  assert (Hp : (features_present sc <= 5)%nat).
  { unfold features_present. apply (filter_length_le _ required_features). }
  apply le_INR in Hp. pose proof (pos_INR (features_present sc)).
  set (p := INR (features_present sc)) in *. clearbody p. simpl INR in Hp.
  apply py_round_2_unit.
  set (c := overall cov * 0.4 + cm * 0.3 + p / 5 * 0.3).
  assert (0 <= c) by (unfold c; rlra).
  unfold Rmin. destruct (Rle_dec c 1); rlra.
Qed.

End TrustExtras.

(** ** Further properties of the concept routes *)

Module ConceptsExtras.
Import ConceptsApi ConceptsData.
Local Open Scope string_scope.
Local Open Scope list_scope.

Definition by_id (cid : string) (r : concept_row) : bool := String.eqb (id r) cid.

Lemma find_by_id_some (l : list concept_row) (cid : string) (r : concept_row) :
  find (by_id cid) l = Some r -> id r = cid /\ In r l.
Proof.
  intros H. apply find_some in H as [Hin He]. unfold by_id in He.
  apply String.eqb_eq in He. auto.
Qed.

Lemma replace_first_hit (l : list concept_row) (cid : string) (r r' : concept_row) :
  find (by_id cid) l = Some r -> id r' = cid ->
  find (by_id cid) (replace_first cid r' l) = Some r' /\ In r' (replace_first cid r' l).
Proof.
  intros H Hi. induction l as [|a l IH]; [discriminate|].
  simpl in *. unfold by_id in *. destruct (String.eqb (id a) cid) eqn:E.
  - simpl. rewrite Hi, String.eqb_refl. auto.
  - simpl. rewrite E. destruct (IH H) as [H1 H2]. auto.
Qed.

Lemma replace_first_other (l : list concept_row) (cid c : string) (r' : concept_row) :
  id r' = cid -> c <> cid ->
  find (by_id c) (replace_first cid r' l) = find (by_id c) l.
Proof.
  intros Hi Hc. induction l as [|a l IH]; [reflexivity|].
  simpl. unfold by_id in *. destruct (String.eqb (id a) cid) eqn:E.
  - apply String.eqb_eq in E. simpl. rewrite Hi, E.
    destruct (String.eqb_spec cid c); [congruence|reflexivity].
  - simpl. rewrite IH. reflexivity.
Qed.

Lemma replace_first_length (l : list concept_row) (cid : string) (r' : concept_row) :
  List.length (replace_first cid r' l) = List.length l.
Proof.
  induction l as [|a l IH]; [reflexivity|]. simpl.
  destruct (String.eqb (id a) cid); simpl; [reflexivity|]. rewrite IH. reflexivity.
Qed.

Lemma replace_first_ids (l : list concept_row) (cid : string) (r' : concept_row) :
  id r' = cid -> map id (replace_first cid r' l) = map id l.
Proof.
  intros Hi. induction l as [|a l IH]; [reflexivity|]. simpl.
  destruct (String.eqb (id a) cid) eqn:E; simpl.
  - apply String.eqb_eq in E. rewrite Hi, E. reflexivity.
  - rewrite IH. reflexivity.
Qed.

Lemma replace_first_defaults (l : list concept_row) (cid : string) (r r' : concept_row) :
  find (by_id cid) l = Some r -> is_system_default r = false ->
  is_system_default r' = false ->
  filter is_system_default (replace_first cid r' l) = filter is_system_default l.
Proof.
  intros H Hr Hr'. induction l as [|a l IH]; [discriminate|].
  simpl in *. unfold by_id in *. destruct (String.eqb (id a) cid) eqn:E.
  - injection H as ->. simpl. rewrite Hr, Hr'. reflexivity.
  - simpl. destruct (is_system_default a); [f_equal|]; apply IH; exact H.
Qed.

Lemma find_append_other (p : concept_row -> bool) (l : list concept_row)
  (r : concept_row) :
  p r = false -> find p (l ++ [r]) = find p l.
Proof.
  intros Hp. induction l as [|a l IH]; simpl; [rewrite Hp; reflexivity|].
  destruct (p a); [reflexivity|exact IH].
Qed.

Lemma find_append_new (l : list concept_row) (nid : string) (r : concept_row) :
  find (by_id nid) l = None -> id r = nid -> find (by_id nid) (l ++ [r]) = Some r.
Proof.
  intros H Hi. induction l as [|a l IH]; simpl in *.
  - unfold by_id. rewrite Hi, String.eqb_refl. reflexivity.
  - destruct (by_id nid a); [discriminate|exact (IH H)].
Qed.

Lemma find_append_keys (l : list concept_row) (nid k : string) (r : concept_row) :
  id r = nid -> k <> nid -> find (by_id k) (l ++ [r]) = find (by_id k) l.
Proof.
  intros Hi Hk. apply find_append_other. unfold by_id. rewrite Hi.
  destruct (String.eqb_spec nid k); congruence.
Qed.

Lemma nodup_map_inj {A B} (f : A -> B) (l : list A) (x y : A) :
  NoDup (map f l) -> In x l -> In y l -> f x = f y -> x = y.
Proof.
  induction l as [|a l IH]; intros Hn Hx Hy He; [contradiction|].
  simpl in Hn. apply NoDup_cons_iff in Hn as [Ha Hn].
  destruct Hx as [<-|Hx], Hy as [<-|Hy]; auto.
  - exfalso. apply Ha. rewrite He. apply in_map. exact Hy.
  - exfalso. apply Ha. rewrite <- He. apply in_map. exact Hx.
Qed.

Lemma find_active_first (l : list concept_row) (cid : string) (r : concept_row) :
  find (by_id cid) l = Some r -> is_active r = true ->
  find (fun r => String.eqb (id r) cid && is_active r) l = Some r.
Proof.
  intros H Ha. induction l as [|a l IH]; [discriminate|].
  simpl in *. unfold by_id in *. destruct (String.eqb (id a) cid) eqn:E.
  - injection H as ->. rewrite Ha. reflexivity.
  - exact (IH H).
Qed.

Lemma truthy_str_some (s c : string) : Learner.truthy_str (Some s) = Some c -> c = s.
Proof. destruct s; simpl; congruence. Qed.

Lemma truthy_str_nonempty (s : string) : s <> "" -> Learner.truthy_str (Some s) = Some s.
Proof. destruct s; simpl; congruence. Qed.

(** An active row found by its id is what [_get_concept_config] resolves. *)
Lemma config_by_id (d : api_db) (yaml : list (string * Scorer.concept_config))
  (cat cid : string) (r : concept_row) :
  find_row d cid = Some r -> is_active r = true -> cid <> "" ->
  _get_concept_config (Some d) yaml cat (Some cid) = Some (_db_concept_to_config r, Some cid).
Proof.
  intros H Ha Hc. unfold _get_concept_config. rewrite (truthy_str_nonempty cid Hc).
  unfold find_row in H. rewrite (find_active_first _ _ _ H Ha).
  destruct (find_by_id_some _ _ _ H) as [<- _]. reflexivity.
Qed.

Lemma competition_zero_target (q : Q) :
  ~ (q == 0)%Q -> Scorer._calculate_competition_score q 0 = None.
Proof.
  intros Hq. unfold Scorer._calculate_competition_score.
  destruct (Qeq_bool q 0) eqn:E; [apply Qeq_bool_iff in E; contradiction|].
  reflexivity.
Qed.

(** Every stored row has a [datetime] (or NULL) [created_at], so the
    response validation of the routes fails on every row. *)
Lemma concept_response_500 (r : concept_row) : concept_response r = HTTPException 500.
Proof. unfold concept_response. destruct (created_at r); reflexivity. Qed.

Lemma get_concept_found (d : api_db) (k : string) (r : concept_row) :
  find_row d k = Some r -> get_concept d k = HTTPException 500.
Proof. intros H. unfold get_concept. rewrite H. apply concept_response_500. Qed.

(** X25: no concept route (create, update and clone, which commit before
    their response fails, or a soft delete that succeeds) adds, removes or
    changes a system-default row, changes the customers, or shortens the
    concept table. *)
Theorem api_step_keeps_defaults (d d' : api_db) :
  api_step d d' ->
  filter is_system_default (rows d') = filter is_system_default (rows d) /\
  customers d' = customers d /\ (List.length (rows d) <= List.length (rows d'))%nat.
Proof.
  intros Hs. destruct Hs as [d nid now c res d' _ H|d cid u res d' H
                            |d nid now cid nm cust res d' _ H|d cid d' H].
  - unfold create_concept in H.
    destruct (negb (create_fields_valid c)); [injection H as _ <-; auto|].
    destruct (negb (customer_exists d (cc_customer_id c))); [injection H as _ <-; auto|].
    destruct (negb (weights_total_ok (cc_weights c))); [injection H as _ <-; auto|].
    injection H as _ <-. simpl. rewrite filter_app, length_app. simpl.
    rewrite app_nil_r. split; [reflexivity|split; [reflexivity|lia]].
  - unfold update_concept in H.
    destruct (negb _); [injection H as _ <-; auto|].
    destruct (find_row d cid) as [r0|] eqn:Hf; [|injection H as _ <-; auto].
    destruct (is_system_default r0) eqn:Hd; [injection H as _ <-; auto|].
    destruct (negb _); [injection H as _ <-; auto|].
    injection H as _ <-. simpl.
    rewrite (replace_first_defaults _ cid r0), replace_first_length
      by first [exact Hf | exact Hd | reflexivity | simpl; exact Hd].
    auto.
  - unfold clone_concept in H.
    destruct (find_row d cid) as [s|]; [|injection H as _ <-; auto].
    destruct (negb (customer_exists d cust)); [injection H as _ <-; auto|].
    injection H as _ <-. simpl. rewrite filter_app, length_app. simpl.
    rewrite app_nil_r. split; [reflexivity|split; [reflexivity|lia]].
  - unfold delete_concept in H.
    destruct (find_row d cid) as [r0|] eqn:Hf; [|discriminate].
    destruct (is_system_default r0) eqn:Hd; [discriminate|].
    injection H as <-. simpl.
    rewrite (replace_first_defaults _ cid r0), replace_first_length
      by first [exact Hf | exact Hd | reflexivity | simpl; exact Hd].
    auto.
Qed.

(** Witness of X25: soft-deleting the custom row of the sample table. *)
Lemma api_step_keeps_defaults_witness :
  exists d', delete_concept demo_api_db "c1" = Done d' /\
  filter is_system_default (rows d') = filter is_system_default (rows demo_api_db) /\
  customers d' = customers demo_api_db /\
  (List.length (rows demo_api_db) <= List.length (rows d'))%nat.
Proof.
  eexists. split; [vm_compute; reflexivity|].
  apply api_step_keeps_defaults. apply (StepDelete _ "c1"). vm_compute. reflexivity.
Defined.

(** X26: [delete_concept] succeeds only on an existing non-default row; it
    keeps the row (same fields, [is_active] now false), leaves every other id's
    lookup, the table length and the customers unchanged. When the ids are
    unique, [_get_concept_config] afterwards never resolves the deleted id,
    neither by id nor as a category default, while before the delete an
    active row with a non-empty id was resolved by its id. *)
Theorem delete_concept_soft (d d' : api_db) (cid : string) :
  delete_concept d cid = Done d' ->
  exists r, find_row d cid = Some r /\ is_system_default r = false /\
    find_row d' cid =
      Some (mkRow (id r) (customer_id r) (name r) (category r) (description r)
              (base_revenue_eur r) (revenue_variance r) (target_income_min r)
              (target_income_max r) (optimal_population_density r)
              (target_competitors_per_1k r) (weights r) (outcomes_count r)
              (avg_prediction_error r) (is_system_default r) false (created_at r)) /\
    (forall c, c <> cid -> find_row d' c = find_row d c) /\
    List.length (rows d') = List.length (rows d) /\ customers d' = customers d /\
    (NoDup (map id (rows d)) ->
     forall yaml cat,
       (is_active r = true -> cid <> "" ->
        _get_concept_config (Some d) yaml cat (Some cid) =
          Some (_db_concept_to_config r, Some cid)) /\
       match _get_concept_config (Some d') yaml cat (Some cid) with
       | Some (_, Some i) => i <> cid
       | _ => True
       end).
Proof.
  intros H. unfold delete_concept in H.
  destruct (find_row d cid) as [r|] eqn:Hf; [|discriminate].
  destruct (is_system_default r) eqn:Hd; [discriminate|].
  injection H as <-.
  set (r' := mkRow (id r) (customer_id r) (name r) (category r) (description r)
              (base_revenue_eur r) (revenue_variance r) (target_income_min r)
              (target_income_max r) (optimal_population_density r)
              (target_competitors_per_1k r) (weights r) (outcomes_count r)
              (avg_prediction_error r) false false (created_at r)).
  assert (Hi : id r = cid) by exact (proj1 (find_by_id_some _ _ _ Hf)).
  assert (Hi' : id r' = cid) by exact Hi.
  destruct (replace_first_hit _ _ _ r' Hf Hi') as [Hhit Hin].
  exists r. split; [reflexivity|]. split; [exact Hd|]. split.
  { unfold find_row, with_rows. cbn [rows].
    change (fun r => String.eqb (id r) cid) with (by_id cid). rewrite Hhit, Hd. reflexivity. }
  split.
  { intros c Hc. unfold find_row. simpl. apply replace_first_other; assumption. }
  split; [simpl; apply replace_first_length|]. split; [reflexivity|].
  intros Hnd yaml cat. split; [intros Ha Hc; apply config_by_id; assumption|].
  assert (Hnd' : NoDup (map id (rows (with_rows d (replace_first cid r' (rows d))))))
    by (simpl; rewrite replace_first_ids by exact Hi'; exact Hnd).
  set (l' := replace_first cid r' (rows d)) in *.
  (* an active row of the new table never has the deleted id *)
  assert (Hne : forall r0, In r0 l' -> is_active r0 = true -> id r0 <> cid).
  { intros r0 Hr0 Ha0 He. assert (r0 = r').
    { apply (nodup_map_inj id l'); [exact Hnd'|exact Hr0|exact Hin|congruence]. }
    subst r0. discriminate. }
  unfold _get_concept_config. cbn [rows with_rows]. fold l'. clear Hhit.
  destruct (Learner.truthy_str (Some cid)) as [c|] eqn:Ht;
    [apply truthy_str_some in Ht; subst c|].
  all: repeat match goal with
    | |- context [@find concept_row ?p ?l] =>
        let E := fresh "E" in
        destruct (find p l) as [r0|] eqn:E;
        [apply find_some in E as [Hr0 Hp]; apply andb_prop in Hp as [_ Ha];
         cbn; exact (Hne r0 Hr0 Ha) | cbn]
    end.
  all: destruct (find _ yaml) as [[? ?]|]; exact I.
Qed.

(** Witness of X26: soft-deleting the custom row of the sample table. *)
Lemma delete_concept_soft_witness :
  exists d', delete_concept demo_api_db "c1" = Done d' /\
  exists r, find_row demo_api_db "c1" = Some r /\ is_system_default r = false.
Proof.
  eexists. split; [vm_compute; reflexivity|].
  destruct (delete_concept_soft demo_api_db _ "c1" ltac:(vm_compute; reflexivity))
    as (r & H1 & H2 & _).
  exists r. auto.
Defined.



(** X28: [ConceptUpdate] puts no constraint on [target_competitors_per_1k],
    so [update_concept] commits 0 for any non-default row (and answers 500).
    The row then stores 0; if it is active and its id non-empty,
    [_get_concept_config] resolves the id to it, and [calculate_score] on
    that configuration raises for every feature dict with a non-zero
    [competitors_per_1k_residents]. *)
Theorem update_zero_target_breaks_scoring (d : api_db) (cid : string)
  (r : concept_row) (u : concept_update) :
  find_row d cid = Some r -> is_system_default r = false ->
  u_target_competitors_per_1k u = Some 0%Q -> u_weights u = None ->
  exists r' d', update_concept d cid u = (HTTPException 500, d') /\
    find_row d' cid = Some r' /\
    target_competitors_per_1k r' = 0%Q /\
    (is_active r' = true -> cid <> "" ->
     forall yaml cat,
       _get_concept_config (Some d') yaml cat (Some cid) =
         Some (_db_concept_to_config r', Some cid)) /\
    (forall f q, Scorer.competitors_per_1k_residents f = Scorer.Num q -> ~ (q == 0)%Q ->
       Scorer.calculate_score f (_db_concept_to_config r') = None).
Proof.
  intros Hf Hd Hz Hw.
  assert (Hu : update_concept d cid u =
               (HTTPException 500,
                with_rows d (replace_first cid (apply_update r u) (rows d)))).
  { unfold update_concept. rewrite Hw. cbn [negb]. rewrite Hf, Hd.
    rewrite concept_response_500. reflexivity. }
  exists (apply_update r u), (with_rows d (replace_first cid (apply_update r u) (rows d))).
  split; [exact Hu|].
  assert (Hs : find_row (with_rows d (replace_first cid (apply_update r u) (rows d))) cid
               = Some (apply_update r u)).
  { unfold find_row, with_rows. cbn [rows].
    change (fun r => String.eqb (id r) cid) with (by_id cid).
    exact (proj1 (replace_first_hit _ _ r (apply_update r u) Hf
                    (proj1 (find_by_id_some _ _ _ Hf)))). }
  split; [exact Hs|].
  assert (Ht : target_competitors_per_1k (apply_update r u) = 0%Q)
    by (unfold apply_update; cbn; rewrite Hz; reflexivity).
  split; [exact Ht|]. split.
  - intros Ha Hc yaml cat. apply config_by_id; [exact Hs|exact Ha|exact Hc].
  - intros f q Hq Hq0.
    set (cfg := _db_concept_to_config (apply_update r u)).
    assert (Hc : Scorer.target_competitors_per_1k cfg = 0%Q) by exact Ht.
    clearbody cfg. unfold Scorer.calculate_score. rewrite Hq, Hc. cbn [Scorer.get_default].
    cbv beta iota.
    rewrite (competition_zero_target q Hq0).
    repeat match goal with
    | |- (match ?x with Some _ => _ | None => _ end) = None =>
        destruct x; cbv beta iota; [|reflexivity]
    end; reflexivity.
Qed.

(** Witness of X28: the zero-target update of the custom row of the sample
    table. *)
Lemma update_zero_target_breaks_scoring_witness :
  exists r' d', update_concept demo_api_db "c1" zero_target_update = (HTTPException 500, d') /\
    find_row d' "c1" = Some r' /\ target_competitors_per_1k r' = 0%Q.
Proof.
  destruct (update_zero_target_breaks_scoring demo_api_db "c1" custom_row
              zero_target_update ltac:(vm_compute; reflexivity) eq_refl eq_refl eq_refl)
    as (r' & d' & H1 & H2 & H3 & _).
  exists r', d'. auto.
Defined.

(** X29: [create_concept] never answers with the concept. When the body
    fails the Pydantic field checks, the customer does not exist or the
    weights total is outside 0.95 to 1.05, it refuses (422, 404 or 400) and
    the session is unchanged. Otherwise it commits a new row and then
    answers 500, and [get_concept] on the new id answers 500 as well. The
    committed row is appended, is found by its fresh id, leaves the other
    lookups unchanged, has variance 0.2, no outcomes, no error and
    [created_at] the current time, is active and not a default, carries the
    request's parameters, and its configuration passes the scorer-side
    validity check. *)
Theorem create_concept_effects (d d' : api_db) (nid : string) (now : Z)
  (c : concept_create) (res : api_res concept_row) :
  find_row d nid = None -> create_concept d nid now c = (res, d') ->
  (create_fields_valid c && customer_exists d (cc_customer_id c)
     && weights_total_ok (cc_weights c) = false ->
   d' = d /\ exists code, res = HTTPException code /\ (code = 422 \/ code = 404 \/ code = 400)%Z) /\
  (create_fields_valid c && customer_exists d (cc_customer_id c)
     && weights_total_ok (cc_weights c) = true ->
   res = HTTPException 500 /\
   exists r, rows d' = rows d ++ [r] /\ customers d' = customers d /\
  find_row d' nid = Some r /\ get_concept d' nid = HTTPException 500 /\
  (forall k, k <> nid -> find_row d' k = find_row d k) /\
  id r = nid /\ customer_id r = cc_customer_id c /\
  revenue_variance r = 0.2%Q /\ outcomes_count r = 0%Z /\
  avg_prediction_error r = None /\ is_system_default r = false /\ is_active r = true /\
  created_at r = Some now /\
  _db_concept_to_config r =
    Scorer.mkConfig (inject_Z (cc_base_revenue_eur c)) (inject_Z (cc_target_income_min c))
      (inject_Z (cc_target_income_max c)) (inject_Z (cc_optimal_population_density c))
      (cc_target_competitors_per_1k c) (cc_weights c) /\
  Scorer.concept_create_valid (_db_concept_to_config r) = true).
Proof.
  intros Hn H. unfold create_concept in H.
  destruct (create_fields_valid c) eqn:Hv; cbn [negb] in H;
    [|injection H as <- <-; split; [intros _; split; [reflexivity|eexists; split; [reflexivity|lia]]
                                   |intros E; discriminate E]].
  destruct (customer_exists d (cc_customer_id c)) eqn:Hc; cbn [negb] in H;
    [|injection H as <- <-; split; [intros _; split; [reflexivity|eexists; split; [reflexivity|lia]]
                                   |intros E; discriminate E]].
  destruct (weights_total_ok (cc_weights c)) eqn:Ht; cbn [negb] in H;
    [|injection H as <- <-; split; [intros _; split; [reflexivity|eexists; split; [reflexivity|lia]]
                                   |intros E; discriminate E]].
  injection H as <- <-. split; [intros E; discriminate E|intros _].
  split; [apply concept_response_500|].
  eexists. do 2 (split; [reflexivity|]).
  assert (Hs : find_row (with_rows d (rows d ++
      [mkRow nid (cc_customer_id c) (cc_name c) (cc_category c) (cc_description c)
         (cc_base_revenue_eur c) 0.2 (cc_target_income_min c) (cc_target_income_max c)
         (cc_optimal_population_density c) (cc_target_competitors_per_1k c)
         (cc_weights c) 0 None false true (Some now)])) nid
      = Some (mkRow nid (cc_customer_id c) (cc_name c) (cc_category c) (cc_description c)
         (cc_base_revenue_eur c) 0.2 (cc_target_income_min c) (cc_target_income_max c)
         (cc_optimal_population_density c) (cc_target_competitors_per_1k c)
         (cc_weights c) 0 None false true (Some now))).
  { unfold find_row, with_rows. cbn [rows].
    change (fun r => String.eqb (id r) nid) with (by_id nid).
    rewrite find_append_new; [reflexivity|exact Hn|reflexivity]. }
  split; [exact Hs|].
  split; [exact (get_concept_found _ _ _ Hs)|].
  split.
  { intros k Hk. unfold find_row. simpl. apply (find_append_keys _ nid); [reflexivity|exact Hk]. }
  do 9 (split; [reflexivity|]).
  unfold create_fields_valid, weights_fields_valid in Hv.
  unfold weights_total_ok in Ht.
  unfold Scorer.concept_create_valid, _db_concept_to_config. cbn.
  repeat match goal with H : _ && _ = true |- _ => apply andb_prop in H as [? ?] end.
  assert (P : forall z, (0 < z)%Z -> negb (Qle_bool (inject_Z z) 0) = true).
  { intros z Hz. destruct (Qle_bool (inject_Z z) 0) eqn:E; [|reflexivity].
    apply Qle_bool_iff in E. change 0%Q with (inject_Z 0) in E.
    rewrite <- Zle_Qle in E. lia. }
  repeat match goal with H : (_ <? _)%Z = true |- _ => apply Z.ltb_lt in H end.
  repeat rewrite andb_true_iff. unfold Qltb in *.
  repeat split; first [assumption | apply P; assumption].
Qed.

(** Witness of X29: a bakery concept for the sample customer: it is stored,
    and both the POST and a later GET of it answer 500. *)
Lemma create_concept_effects_witness :
  fst (create_concept demo_api_db "c2" 1700000000 demo_create) = HTTPException 500 /\
  get_concept (snd (create_concept demo_api_db "c2" 1700000000 demo_create)) "c2"
    = HTTPException 500 /\
  exists r, find_row (snd (create_concept demo_api_db "c2" 1700000000 demo_create)) "c2"
              = Some r /\
    Scorer.concept_create_valid (_db_concept_to_config r) = true.
Proof.
  destruct (create_concept_effects demo_api_db _ "c2" 1700000000 demo_create _
              ltac:(vm_compute; reflexivity) (surjective_pairing _)) as [_ Hok].
  destruct (Hok ltac:(vm_compute; reflexivity))
    as (Hres & r & _ & _ & Hf & Hg & _ & _ & _ & _ & _ & _ & _ & _ & _ & _ & Hv).
  split; [exact Hres|]. split; [exact Hg|]. exists r. auto.
Defined.

(** X30: [clone_concept] never answers with the clone. When the source row
    (active or not) or the customer does not exist it answers 404 and the
    session is unchanged. Otherwise it commits the clone and then answers
    500, and [get_concept] on the new id answers 500 as well. The clone is
    appended under its fresh id, owned by the given customer, named as
    given, a non-default active row with no outcomes and no error, and it
    has the source's category, learned variance and scoring configuration. *)
Theorem clone_concept_effects (d d' : api_db) (nid : string) (now : Z)
  (cid nm cust : string) (res : api_res concept_row) :
  find_row d nid = None -> clone_concept d nid now cid nm cust = (res, d') ->
  (find_row d cid = None \/ customer_exists d cust = false ->
   d' = d /\ res = HTTPException 404) /\
  (forall s, find_row d cid = Some s -> customer_exists d cust = true ->
   res = HTTPException 500 /\
   exists r, rows d' = rows d ++ [r] /\ customers d' = customers d /\
    find_row d' nid = Some r /\ get_concept d' nid = HTTPException 500 /\
    id r = nid /\ customer_id r = cust /\ name r = nm /\
    description r = Some ("Cloned from " ++ name s)%string /\
    category r = category s /\ revenue_variance r = revenue_variance s /\
    _db_concept_to_config r = _db_concept_to_config s /\
    outcomes_count r = 0%Z /\ avg_prediction_error r = None /\
    is_system_default r = false /\ is_active r = true /\ created_at r = Some now).
Proof.
  intros Hn H. unfold clone_concept in H.
  destruct (find_row d cid) as [s|] eqn:Hf.
  2: { injection H as <- <-. split; [auto|intros s E; discriminate E]. }
  destruct (customer_exists d cust) eqn:Hc; cbn [negb] in H.
  2: { injection H as <- <-. split; [auto|intros s' _ E; discriminate E]. }
  injection H as <- <-. split; [intros [E|E]; discriminate E|].
  intros s' Es _. injection Es as <-.
  split; [apply concept_response_500|].
  eexists. do 2 (split; [reflexivity|]).
  assert (Hs : find_row (with_rows d (rows d ++
      [mkRow nid cust nm (category s) (Some ("Cloned from " ++ name s)%string) (base_revenue_eur s)
         (revenue_variance s) (target_income_min s) (target_income_max s)
         (optimal_population_density s) (target_competitors_per_1k s)
         (weights s) 0 None false true (Some now)])) nid
      = Some (mkRow nid cust nm (category s) (Some ("Cloned from " ++ name s)%string)
         (base_revenue_eur s) (revenue_variance s) (target_income_min s)
         (target_income_max s) (optimal_population_density s)
         (target_competitors_per_1k s) (weights s) 0 None false true (Some now))).
  { unfold find_row, with_rows. cbn [rows].
    change (fun r => String.eqb (id r) nid) with (by_id nid).
    rewrite find_append_new; [reflexivity|exact Hn|reflexivity]. }
  split; [exact Hs|].
  split; [exact (get_concept_found _ _ _ Hs)|].
  repeat split.
Qed.

(** Witness of X30: cloning the system default for the sample customer: the
    clone is stored and the route answers 500. *)
Lemma clone_concept_effects_witness :
  fst (clone_concept demo_api_db "c3" 1700000000 "sys-coffee" "Our Coffee" "cust1")
    = HTTPException 500 /\
  exists r, find_row (snd (clone_concept demo_api_db "c3" 1700000000 "sys-coffee"
                             "Our Coffee" "cust1")) "c3" = Some r /\
    _db_concept_to_config r = _db_concept_to_config default_row /\
    is_system_default r = false.
Proof.
  destruct (clone_concept_effects demo_api_db _ "c3" 1700000000 "sys-coffee" "Our Coffee"
              "cust1" _ ltac:(vm_compute; reflexivity) (surjective_pairing _)) as [_ Hok].
  destruct (Hok default_row ltac:(vm_compute; reflexivity) ltac:(vm_compute; reflexivity))
    as (Hres & r & _ & _ & Hf & _ & _ & _ & _ & _ & _ & _ & Hcfg & _ & _ & Hd & _).
  split; [exact Hres|]. exists r. auto.
Defined.

End ConceptsExtras.
